(** * ggRMCP: a shallow embedding of the gRPC-to-MCP gateway core

    The development follows the Go packages of the repository:
    - [Strs]        the functions of Go's [strings] package that the code calls;
    - [Types]       [types.MethodInfo] and the tool-name derivation;
    - [Descriptors] [descriptors.Loader.ExtractMethodInfo];
    - [Connection]  [connectionManager.healthCheckLocked];
    - [Reflection]  [reflectionClient]: discovery by reflection and [InvokeMethod];
    - [Discovery]   [serviceDiscoverer]: [DiscoverServices], [GetMethods],
                    [InvokeMethodByTool];
    - [Tools]       [MCPToolBuilder]: [validateTool] and the JSON-Schema projection.

    Go strings are modelled as [string] (a sequence of bytes), Go maps with
    string keys as [gmap string _], the [visited] set of the schema projector
    as [gset string].  Calls that leave the process (the reflection stream,
    the unary RPC, the JSON codec, the clock of the channel) are answered by
    an explicit environment and recorded in a trace of events. *)

From Stdlib Require Import ZArith Ascii String List Bool Lia DecimalString.
From stdpp Require Import base option list gmap strings.

Open Scope string_scope.
Open Scope list_scope.

(** ** Errors and results *)

(** [codes.Code]: the kinds gRPC gives an error. *)
Module Codes.

Inductive Code : Type :=
| OK | Canceled | Unknown | InvalidArgument | DeadlineExceeded | NotFound
| AlreadyExists | PermissionDenied | ResourceExhausted | FailedPrecondition
| Aborted | OutOfRange | Unimplemented | Internal | Unavailable | DataLoss
| Unauthenticated.

(** [Code.String]. *)
Definition Code_String (c : Code) : string :=
  match c with
  | OK => "OK"
  | Canceled => "Canceled"
  | Unknown => "Unknown"
  | InvalidArgument => "InvalidArgument"
  | DeadlineExceeded => "DeadlineExceeded"
  | NotFound => "NotFound"
  | AlreadyExists => "AlreadyExists"
  | PermissionDenied => "PermissionDenied"
  | ResourceExhausted => "ResourceExhausted"
  | FailedPrecondition => "FailedPrecondition"
  | Aborted => "Aborted"
  | OutOfRange => "OutOfRange"
  | Unimplemented => "Unimplemented"
  | Internal => "Internal"
  | Unavailable => "Unavailable"
  | DataLoss => "DataLoss"
  | Unauthenticated => "Unauthenticated"
  end.

End Codes.

(** [fmt.Errorf("...")], [fmt.Errorf("...: %w", err)], and the status
    errors of the gRPC library ([status.Error(code, desc)]). *)
Inductive error : Type :=
| Errorf (msg : string)
| Wrapf (msg : string) (cause : error)
| Status (code : Codes.Code) (desc : string).

(** [status.Code(err)]: the kind gRPC reads off an error.  It is the code
    of the first status error in the chain of the error, and [Unknown] when
    there is none: an error made by [fmt.Errorf] has no kind of its own. *)
Fixpoint status_Code (e : error) : Codes.Code :=
  match e with
  | Errorf _ => Codes.Unknown
  | Wrapf _ cause => status_Code cause
  | Status code _ => code
  end.

(** A Go [(T, error)] pair. *)
Inductive result (A : Type) : Type :=
| Ok (a : A)
| Err (e : error).
Arguments Ok {A} a.
Arguments Err {A} e.

Definition is_Ok {A} (r : result A) : bool :=
  match r with Ok _ => true | Err _ => false end.

(** ** The [strings] package *)

Module Strs.

Definition is_upper (c : ascii) : bool :=
  (65 <=? nat_of_ascii c)%nat && (nat_of_ascii c <=? 90)%nat.

(** Lower-casing of one byte.  Protobuf identifiers are ASCII, and on ASCII
    [strings.ToLower] maps [A-Z] to [a-z] and leaves every other byte alone. *)
Definition lower_byte (c : ascii) : ascii :=
  if is_upper c then ascii_of_nat (nat_of_ascii c + 32) else c.

Fixpoint map_bytes (f : ascii -> ascii) (s : string) : string :=
  match s with
  | EmptyString => EmptyString
  | String c s' => String (f c) (map_bytes f s')
  end.

(** [strings.ToLower]. *)
Definition ToLower (s : string) : string := map_bytes lower_byte s.

(** [strings.ReplaceAll(s, old, new)] for one-byte [old] and [new]. *)
Definition ReplaceAllByte (s : string) (old new : ascii) : string :=
  map_bytes (fun c => if Ascii.eqb c old then new else c) s.

(** [strings.HasPrefix(s, prefix)]. *)
Definition HasPrefix (s pre : string) : bool := String.prefix pre s.

(** [strings.Contains(s, substr)]: [substr] starts at some position of [s]. *)
Fixpoint Contains (s substr : string) : bool :=
  HasPrefix s substr ||
  match s with
  | EmptyString => false
  | String _ s' => Contains s' substr
  end.

(** [strings.LastIndex(s, substr)]: the index of the last occurrence of
    [substr] in [s], or [-1]. *)
Fixpoint LastIndex (s substr : string) : Z :=
  match s with
  | EmptyString => if HasPrefix s substr then 0 else (-1)
  | String _ s' =>
      let r := LastIndex s' substr in
      if (0 <=? r)%Z then (r + 1)%Z
      else if HasPrefix s substr then 0%Z else (-1)%Z
  end.

(** The slice expression [s[:hi]]; it panics ([None]) unless
    [0 <= hi <= len(s)]. *)
Definition slice_to (s : string) (hi : Z) : option string :=
  if ((0 <=? hi) && (hi <=? Z.of_nat (String.length s)))%Z
  then Some (String.substring 0 (Z.to_nat hi) s)
  else None.

(** [strings.TrimPrefix(s, prefix)]. *)
Fixpoint drop_bytes (n : nat) (s : string) : string :=
  match n, s with
  | O, _ => s
  | S n', String _ s' => drop_bytes n' s'
  | S _, EmptyString => EmptyString
  end.

Definition TrimPrefix (s pre : string) : string :=
  if HasPrefix s pre then drop_bytes (String.length pre) s else s.

(** [strings.Split(s, sep)] for a one-byte separator. *)
Fixpoint SplitByte (s : string) (sep : ascii) : list string :=
  match s with
  | EmptyString => [EmptyString]
  | String c s' =>
      if Ascii.eqb c sep then EmptyString :: SplitByte s' sep
      else match SplitByte s' sep with
           | [] => [String c EmptyString]
           | p :: ps => String c p :: ps
           end
  end.

End Strs.

(** ** JSON values: the [map[string]interface{}] trees of the schema builder *)

#[warnings="-register-all"]
Inductive json : Type :=
| JBool (b : bool)
| JNum (n : Z)
| JStr (s : string)
| JArr (items : list json)
| JObj (members : list (string * json)).

(** [m[k] = v] on an object held as an association list: the value of an
    existing key is replaced, a new key is added at the end. *)
Fixpoint jset (k : string) (v : json) (members : list (string * json))
  : list (string * json) :=
  match members with
  | [] => [(k, v)]
  | (k', v') :: rest =>
      if String.eqb k' k then (k, v) :: rest else (k', v') :: jset k v rest
  end.

(** [m[k]]. *)
Fixpoint jget (k : string) (members : list (string * json)) : option json :=
  match members with
  | [] => None
  | (k', v') :: rest => if String.eqb k' k then Some v' else jget k rest
  end.

Definition jfield (k : string) (j : json) : option json :=
  match j with JObj ms => jget k ms | _ => None end.

(** A Go [[]string] stored in a schema. *)
Definition jstrings (l : list string) : json := JArr (map JStr l).

(** ** Package [types] *)

Module Types.

(** Leading and trailing comments of a descriptor ([SourceLocation]). *)
Record SourceLocation := {
  LeadingComments : string;
  TrailingComments : string
}.

Definition no_location : SourceLocation :=
  {| LeadingComments := ""; TrailingComments := "" |}.

(** [types.MethodInfo].  The descriptors of the input and output message
    are held by the full name of the message they describe. *)
Record MethodInfo := {
  Name : string;
  FullName : string;
  ServiceName : string;
  ServiceDescription : string;
  Description : string;
  InputType : string;
  OutputType : string;
  InputDescriptor : string;
  OutputDescriptor : string;
  IsClientStreaming : bool;
  IsServerStreaming : bool;
  ToolName : string;
  Comments : list string
}.

Definition with_ToolName (m : MethodInfo) (t : string) : MethodInfo :=
  {| Name := Name m; FullName := FullName m; ServiceName := ServiceName m;
     ServiceDescription := ServiceDescription m;
     Description := Description m;
     InputType := InputType m; OutputType := OutputType m;
     InputDescriptor := InputDescriptor m;
     OutputDescriptor := OutputDescriptor m;
     IsClientStreaming := IsClientStreaming m;
     IsServerStreaming := IsServerStreaming m;
     ToolName := t; Comments := Comments m |}.

(** Modelled from the spec: [MethodInfo.GenerateToolName] is a method of
    package [types], which lies outside the files embedded here; only its
    callers are embedded.  Section 6 of the specification: the tool
    identifier is produced from the fully-qualified name by lowercasing the
    entire string and replacing every [.] with [_]. *)
Definition GenerateToolName (m : MethodInfo) : string :=
  Strs.ReplaceAllByte (Strs.ToLower (FullName m)) "." "_".

End Types.

(** ** Go slices of method records

    [DiscoverServices] tests [methods == nil], so the difference between the
    nil slice and a slice with elements is kept: [None] is the nil slice. *)

Module Slice.

Definition slice (A : Type) : Type := option (list A).

Definition nil {A} : slice A := None.

(** [append(s, xs...)]: appending nothing to the nil slice leaves it nil. *)
Definition append {A} (s : slice A) (xs : list A) : slice A :=
  match s, xs with
  | None, [] => None
  | None, _ :: _ => Some xs
  | Some l, _ => Some (l ++ xs)
  end.

(** The elements a [for ... range] loop visits. *)
Definition elems {A} (s : slice A) : list A :=
  match s with None => [] | Some l => l end.

(** [s == nil]. *)
Definition is_nil {A} (s : slice A) : bool :=
  match s with None => true | Some _ => false end.

End Slice.

(** ** Resolved descriptors ([protoreflect])

    A message descriptor refers to the messages of its fields by pointer, and
    the pointers may form cycles.  Here a field holds the full name of its
    message type, and the name is looked up in the pool of message
    descriptors the projection runs in. *)

Module Protoreflect.
Import Types.

Inductive Kind : Type :=
| BoolKind | EnumKind
| Int32Kind | Sint32Kind | Uint32Kind
| Int64Kind | Sint64Kind | Uint64Kind
| Sfixed32Kind | Fixed32Kind | FloatKind
| Sfixed64Kind | Fixed64Kind | DoubleKind
| StringKind | BytesKind
| MessageKind | GroupKind.

Record EnumValueDescriptor := {
  ev_Name : string;
  ev_Location : SourceLocation
}.

Record EnumDescriptor := {
  enum_FullName : string;
  enum_Location : SourceLocation;
  enum_Values : list EnumValueDescriptor
}.

(** [field.Message()] is given by the name [fd_Message]; [field.MapValue()]
    is [Some] exactly for a map field, so [IsMap] is read off it. *)
#[warnings="-register-all"]
Inductive FieldDescriptor : Type := mkField {
  fd_Name : string;
  fd_Location : SourceLocation;
  fd_Kind : Kind;
  fd_IsList : bool;
  fd_HasOptionalKeyword : bool;
  fd_HasPresence : bool;
  fd_Enum : EnumDescriptor;
  fd_Message : string;
  fd_MapValue : option FieldDescriptor
}.

Definition fd_IsMap (f : FieldDescriptor) : bool :=
  match fd_MapValue f with Some _ => true | None => false end.

Record OneofDescriptor := {
  oneof_Name : string;
  oneof_Location : SourceLocation;
  oneof_Fields : list FieldDescriptor
}.

(** [msg_Fields] is [Fields()]: all the fields of the message, the members
    of its oneofs among them; [msg_Oneofs] is [Oneofs()]. *)
Record MessageDescriptor := {
  msg_FullName : string;
  msg_Location : SourceLocation;
  msg_Fields : list FieldDescriptor;
  msg_Oneofs : list OneofDescriptor
}.

Record MethodDescriptor := {
  method_Name : string;
  method_Location : SourceLocation;
  method_Input : string;
  method_Output : string;
  method_IsStreamingClient : bool;
  method_IsStreamingServer : bool
}.

Record ServiceDescriptor := {
  service_FullName : string;
  service_Location : SourceLocation;
  service_Methods : list MethodDescriptor
}.

Record FileDescriptor := {
  file_Path : string;
  file_Services : list ServiceDescriptor
}.

(** [FullName.Append]: the full name of a child of [parent]. *)
Definition FullName_Append (parent name : string) : string :=
  if String.eqb parent "" then name else parent +:+ "." +:+ name.

(** [methodDesc.FullName()] of a method of service [svc]. *)
Definition method_FullName (svc : ServiceDescriptor) (m : MethodDescriptor)
  : string :=
  FullName_Append (service_FullName svc) (method_Name m).

End Protoreflect.

(** ** Package [descriptors]: the offline descriptor-set loader *)

Module Descriptors.
Import Types Protoreflect.

(** [extractComments]: leading comments, then trailing comments, joined by
    a newline when both are present. *)
Definition extractComments (loc : SourceLocation) : string :=
  let comments :=
    if negb (String.eqb (LeadingComments loc) "")
    then LeadingComments loc else "" in
  if negb (String.eqb (TrailingComments loc) "") then
    if negb (String.eqb comments "")
    then comments +:+ String "010" "" +:+ TrailingComments loc
    else TrailingComments loc
  else comments.

(** [extractServiceNameForCompatibility]: the last two dot-separated parts
    of the full service name. *)
Definition extractServiceNameForCompatibility (fullName : string) : string :=
  let parts := Strs.SplitByte fullName "." in
  if (length parts <? 2)%nat then fullName
  else
    let packageName := nth (length parts - 2) parts "" in
    let serviceName := nth (length parts - 1) parts "" in
    packageName +:+ "." +:+ serviceName.

(** The record built for one method in the inner loop of
    [ExtractMethodInfo]. *)
Definition methodInfo_of (serviceName serviceDescription : string)
    (serviceDesc : ServiceDescriptor) (methodDesc : MethodDescriptor)
  : MethodInfo :=
  let methodInfo :=
    {| Name := method_Name methodDesc;
       FullName := method_FullName serviceDesc methodDesc;
       ServiceName := serviceName;
       ServiceDescription := serviceDescription;
       Description := extractComments (method_Location methodDesc);
       InputType := method_Input methodDesc;
       OutputType := method_Output methodDesc;
       InputDescriptor := method_Input methodDesc;
       OutputDescriptor := method_Output methodDesc;
       IsClientStreaming := method_IsStreamingClient methodDesc;
       IsServerStreaming := method_IsStreamingServer methodDesc;
       ToolName := "";
       Comments := [extractComments (method_Location methodDesc)] |} in
  with_ToolName methodInfo (GenerateToolName methodInfo).

(** The loop over the methods of one service. *)
Definition extract_service (methods : Slice.slice MethodInfo)
    (serviceDesc : ServiceDescriptor) : Slice.slice MethodInfo :=
  let fullName := service_FullName serviceDesc in
  let serviceName := extractServiceNameForCompatibility fullName in
  let serviceDescription := extractComments (service_Location serviceDesc) in
  fold_left
    (fun methods methodDesc =>
       Slice.append methods
         [methodInfo_of serviceName serviceDescription serviceDesc methodDesc])
    (service_Methods serviceDesc) methods.

(** [Loader.ExtractMethodInfo]: every method of every service of every
    registered file, in one flat slice; the error is always nil.  [files]
    is in the order [RangeFiles] visits the registry in this call. *)
Definition ExtractMethodInfo (files : list FileDescriptor)
  : result (Slice.slice MethodInfo) :=
  Ok (fold_left
        (fun methods fd => fold_left extract_service (file_Services fd) methods)
        files Slice.nil).

End Descriptors.

(** ** Package [grpc]: the connection manager *)

Module Connection.

(** [connectivity.State]. *)
Inductive State : Type :=
| Idle | Connecting | Ready | TransientFailure | Shutdown.

Definition State_eqb (a b : State) : bool :=
  match a, b with
  | Idle, Idle | Connecting, Connecting | Ready, Ready
  | TransientFailure, TransientFailure | Shutdown, Shutdown => true
  | _, _ => false
  end.

(** [State.String]. *)
Definition State_String (s : State) : string :=
  match s with
  | Idle => "IDLE"
  | Connecting => "CONNECTING"
  | Ready => "READY"
  | TransientFailure => "TRANSIENT_FAILURE"
  | Shutdown => "SHUTDOWN"
  end.

(** A channel as a health probe sees it: [state_at c t] is what
    [conn.GetState()] answers [t] milliseconds after the probe started. *)
Record ClientConn := { state_at : nat -> State }.

(** The manager; [conn = None] is the nil connection. *)
Record connectionManager := { conn : option ClientConn }.

(** A context is given by the time left until its deadline, in
    milliseconds ([None]: no deadline).  [context.WithTimeout(ctx, d)]
    keeps the earlier of the two deadlines. *)
Definition WithTimeout (ctx : option nat) (d : nat) : nat :=
  match ctx with
  | None => d
  | Some remaining => Nat.min remaining d
  end.

(** The first instant in [t, t + n] at which the state differs from
    [sourceState]. *)
Fixpoint first_change (c : ClientConn) (sourceState : State) (t n : nat)
  : option nat :=
  if negb (State_eqb (state_at c t) sourceState) then Some t
  else match n with
       | O => None
       | S n' => first_change c sourceState (S t) n'
       end.

(** [conn.WaitForStateChange(ctx, sourceState)]: blocks until the state
    differs from [sourceState] ([Some t]: it returned true at instant [t])
    or the context expires ([None]: it returned false). *)
Definition WaitForStateChange (c : ClientConn) (deadline : nat)
    (sourceState : State) : option nat :=
  first_change c sourceState 0 deadline.

Definition five_seconds : nat := 5000.

(** [connectionManager.healthCheckLocked]. *)
Definition healthCheckLocked (cm : connectionManager) (ctx : option nat)
  : result unit :=
  match conn cm with
  | None => Err (Errorf "no connection available")
  | Some c =>
      let state := state_at c 0 in
      if State_eqb state TransientFailure || State_eqb state Shutdown
      then Err (Errorf ("connection is in unhealthy state: "
                          +:+ State_String state))
      else if negb (State_eqb state Ready) then
        let healthCtx := WithTimeout ctx five_seconds in
        match WaitForStateChange c healthCtx state with
        | None => Err (Errorf "connection state did not change within timeout")
        | Some t =>
            if negb (State_eqb (state_at c t) Ready)
            then Err (Errorf "connection failed to become ready")
            else Ok tt
        end
      else Ok tt
  end.

(** [connectionManager.IsConnected]. *)
Definition IsConnected (cm : connectionManager) : bool :=
  match conn cm with
  | None => false
  | Some c =>
      let state := state_at c 0 in
      State_eqb state Ready || State_eqb state Idle
  end.

End Connection.

(** ** Package [grpc]: the reflection client *)

Module Reflection.
Import Types.

(** [descriptorpb]: the unresolved descriptors a reflection server sends. *)
Record MethodDescriptorProto := {
  mp_Name : string;
  mp_InputType : string;
  mp_OutputType : string;
  mp_ClientStreaming : bool;
  mp_ServerStreaming : bool
}.

Record ServiceDescriptorProto := {
  sp_Name : string;
  sp_Method : list MethodDescriptorProto
}.

Record FileDescriptorProto := {
  fp_Name : string;
  fp_Package : string;
  fp_Service : list ServiceDescriptorProto
}.

(** [dynamicpb.Message]: the descriptor it is typed by and the fields
    that are set. *)
Record Message := {
  m_Descriptor : string;
  m_Fields : list (string * json)
}.

Definition NewMessage (descriptor : string) : Message :=
  {| m_Descriptor := descriptor; m_Fields := [] |}.

(** What goes out on the connection. *)
Inductive event : Type :=
| ListServicesRequest
| FileContainingSymbolRequest (symbol : string)
| UnaryCall (metadata : list (string * string)) (method : string)
            (input : Message).

Definition is_reflection_request (e : event) : bool :=
  match e with
  | ListServicesRequest | FileContainingSymbolRequest _ => true
  | UnaryCall _ _ _ => false
  end.

Definition is_unary_call (e : event) : bool :=
  match e with UnaryCall _ _ _ => true | _ => false end.

(** The far side of the connection and the protobuf library.  A reply may
    depend on everything sent before it.
    - [listServices_reply]: the outcome of one ListServices exchange;
    - [fileContainingSymbol_reply]: the outcome of one FileContainingSymbol
      exchange, down to the first file descriptor of the response;
    - [resolve]: [protodesc.NewFile] and the registry lookups of
      [resolveMessageDescriptor];
    - [protojson_Unmarshal], [protojson_Marshal]: the JSON codec;
    - [unary_reply]: the outcome of [conn.Invoke]. *)
Record Backend := {
  listServices_reply : list event -> result (list string);
  fileContainingSymbol_reply : list event -> string -> result FileDescriptorProto;
  resolve : string -> FileDescriptorProto -> result string;
  protojson_Unmarshal : string -> Message -> result Message;
  protojson_Marshal : Message -> result string;
  unary_reply : list event -> list (string * string) -> string -> Message ->
                result Message
}.

(** [reflectionClient]: the descriptor cache, and the log of what has been
    sent on [conn]. *)
Record reflectionClient := {
  fdCache : gmap string FileDescriptorProto;
  sent : list event
}.

(** [NewReflectionClient]. *)
Definition NewReflectionClient : reflectionClient :=
  {| fdCache := ∅; sent := [] |}.

Definition send (r : reflectionClient) (e : event) : reflectionClient :=
  {| fdCache := fdCache r; sent := sent r ++ [e] |}.

Definition with_fdCache (r : reflectionClient)
    (c : gmap string FileDescriptorProto) : reflectionClient :=
  {| fdCache := c; sent := sent r |}.

Definition internalPrefixes : list string :=
  ["grpc.reflection."; "grpc.health."; "grpc.channelz."; "grpc.testing."].

(** The inner loop of [filterInternalServices]. *)
Definition isInternal (service : string) : bool :=
  existsb (fun pre => Strs.HasPrefix service pre) internalPrefixes.

(** [reflectionClient.filterInternalServices]. *)
Definition filterInternalServices (services : list string) : list string :=
  fold_left
    (fun filtered service =>
       if negb (isInternal service) then filtered ++ [service] else filtered)
    services [].

Section WithBackend.
Variable B : Backend.

(** [reflectionClient.listServices]. *)
Definition listServices (r : reflectionClient)
  : result (list string) * reflectionClient :=
  (listServices_reply B (sent r), send r ListServicesRequest).

(** [reflectionClient.getFileDescriptorBySymbol]: the cache first, the
    server on a miss; a reply is cached under the symbol and under the
    name of the file. *)
Definition getFileDescriptorBySymbol (r : reflectionClient) (symbol : string)
  : result FileDescriptorProto * reflectionClient :=
  match fdCache r !! symbol with
  | Some fd => (Ok fd, r)
  | None =>
      let r1 := send r (FileContainingSymbolRequest symbol) in
      match fileContainingSymbol_reply B (sent r) symbol with
      | Err e => (Err e, r1)
      | Ok fileDescriptor =>
          let c1 := <[symbol := fileDescriptor]> (fdCache r1) in
          let c2 :=
            if negb (String.eqb (fp_Name fileDescriptor) "")
            then <[fp_Name fileDescriptor := fileDescriptor]> c1 else c1 in
          (Ok fileDescriptor, with_fdCache r1 c2)
      end
  end.

(** [reflectionClient.resolveMessageDescriptor]. *)
Definition resolveMessageDescriptor (typeName : string)
    (fileDescriptor : FileDescriptorProto) : result string :=
  let typeName := Strs.TrimPrefix typeName "." in
  resolve B typeName fileDescriptor.

(** [reflectionClient.createMethodInfoWithServiceContext]. *)
Definition createMethodInfoWithServiceContext (serviceName : string)
    (method : MethodDescriptorProto) (fileDescriptor : FileDescriptorProto)
  : result MethodInfo :=
  let methodInfo :=
    {| Name := mp_Name method;
       FullName := serviceName +:+ "." +:+ mp_Name method;
       ServiceName := serviceName;
       ServiceDescription := "";
       Description := "";
       InputType := mp_InputType method;
       OutputType := mp_OutputType method;
       InputDescriptor := "";
       OutputDescriptor := "";
       IsClientStreaming := mp_ClientStreaming method;
       IsServerStreaming := mp_ServerStreaming method;
       ToolName := "";
       Comments := [] |} in
  let methodInfo := with_ToolName methodInfo (GenerateToolName methodInfo) in
  match resolveMessageDescriptor (mp_InputType method) fileDescriptor with
  | Err e =>
      Err (Wrapf ("failed to resolve input descriptor for "
                    +:+ mp_InputType method) e)
  | Ok inputDescriptor =>
      match resolveMessageDescriptor (mp_OutputType method) fileDescriptor with
      | Err e =>
          Err (Wrapf ("failed to resolve output descriptor for "
                        +:+ mp_OutputType method) e)
      | Ok outputDescriptor =>
          Ok {| Name := Name methodInfo; FullName := FullName methodInfo;
                ServiceName := ServiceName methodInfo;
                ServiceDescription := ServiceDescription methodInfo;
                Description := Description methodInfo;
                InputType := InputType methodInfo;
                OutputType := OutputType methodInfo;
                InputDescriptor := inputDescriptor;
                OutputDescriptor := outputDescriptor;
                IsClientStreaming := IsClientStreaming methodInfo;
                IsServerStreaming := IsServerStreaming methodInfo;
                ToolName := ToolName methodInfo;
                Comments := Comments methodInfo |}
      end
  end.

(** The full name [extractMethodsFromFileDescriptor] gives a service. *)
Definition fullServiceName (fileDescriptor : FileDescriptorProto)
    (service : ServiceDescriptorProto) : string :=
  if negb (String.eqb (fp_Package fileDescriptor) "")
  then fp_Package fileDescriptor +:+ "." +:+ sp_Name service
  else sp_Name service.

(** [reflectionClient.extractMethodsFromFileDescriptor]: the methods of
    the services of the file that are among [targetServices]; a method
    whose record cannot be built is skipped. *)
Definition extractMethodsFromFileDescriptor
    (fileDescriptor : FileDescriptorProto) (targetServices : list string)
  : Slice.slice MethodInfo :=
  let targetServiceMap : gset string := list_to_set targetServices in
  fold_left
    (fun methods service =>
       let name := fullServiceName fileDescriptor service in
       if bool_decide (name ∈ targetServiceMap) then
         fold_left
           (fun methods method =>
              match createMethodInfoWithServiceContext name method
                      fileDescriptor with
              | Err _ => methods
              | Ok methodInfo => Slice.append methods [methodInfo]
              end)
           (sp_Method service) methods
       else methods)
    (fp_Service fileDescriptor) Slice.nil.

(** The first loop of [DiscoverMethods]: one file descriptor per
    surviving service, kept under the name of the file the first time
    the file is met.  ([serviceToFileMap] is written by the loop and read
    nowhere; it is left out.) *)
Definition collect_files (r : reflectionClient) (filteredServices : list string)
  : gmap string FileDescriptorProto * reflectionClient :=
  fold_left
    (fun '(fileDescriptorMap, r) serviceName =>
       match getFileDescriptorBySymbol r serviceName with
       | (Err _, r') => (fileDescriptorMap, r')
       | (Ok fileDescriptor, r') =>
           let fileName :=
             if String.eqb (fp_Name fileDescriptor) ""
             then serviceName else fp_Name fileDescriptor in
           match fileDescriptorMap !! fileName with
           | Some _ => (fileDescriptorMap, r')
           | None => (<[fileName := fileDescriptor]> fileDescriptorMap, r')
           end
       end)
    filteredServices (∅, r).

(** [reflectionClient.DiscoverMethods].  The files are visited in the
    order [map_to_list] gives; Go leaves the order of a map open. *)
Definition DiscoverMethods (r : reflectionClient)
  : result (Slice.slice MethodInfo) * reflectionClient :=
  match listServices r with
  | (Err e, r1) => (Err (Wrapf "failed to list services" e), r1)
  | (Ok serviceNames, r1) =>
      let filteredServices := filterInternalServices serviceNames in
      let '(fileDescriptorMap, r2) := collect_files r1 filteredServices in
      let methods :=
        fold_left
          (fun methods '(fileName, fileDescriptor) =>
             let fileMethods :=
               extractMethodsFromFileDescriptor fileDescriptor
                 filteredServices in
             Slice.append methods (Slice.elems fileMethods))
          (map_to_list fileDescriptorMap) Slice.nil in
      (Ok methods, r2)
  end.

(** The method path of [InvokeMethod]:
    [fmt.Sprintf("/%s/%s", FullName[:strings.LastIndex(FullName, ".")], Name)].
    [None]: the slice expression panics. *)
Definition grpcMethodName (method : MethodInfo) : option string :=
  match Strs.slice_to (FullName method)
          (Strs.LastIndex (FullName method) ".") with
  | None => None
  | Some service => Some ("/" +:+ service +:+ "/" +:+ Name method)
  end.

(** [reflectionClient.InvokeMethod].  [headers] are the pairs of the map
    in the order the range loop meets them; they are logged as they are
    handed to [metadata.AppendToOutgoingContext], which lower-cases the
    keys on the way out.  The outer [option] is [None] when the call
    panics. *)
Definition InvokeMethod (r : reflectionClient)
    (headers : list (string * string)) (method : MethodInfo)
    (inputJSON : string) : option (result string) * reflectionClient :=
  let metadata := headers in
  let inputMsg := NewMessage (InputDescriptor method) in
  let parsed :=
    if negb (String.eqb inputJSON "") && negb (String.eqb inputJSON "{}")
    then protojson_Unmarshal B inputJSON inputMsg
    else Ok inputMsg in
  match parsed with
  | Err e => (Some (Err (Wrapf "failed to parse input JSON" e)), r)
  | Ok inputMsg =>
      match grpcMethodName method with
      | None => (None, r)
      | Some name =>
          let r' := send r (UnaryCall metadata name inputMsg) in
          match unary_reply B (sent r) metadata name inputMsg with
          | Err e => (Some (Err (Wrapf "gRPC call failed" e)), r')
          | Ok outputMsg =>
              match protojson_Marshal B outputMsg with
              | Err e =>
                  (Some (Err (Wrapf "failed to marshal output to JSON" e)), r')
              | Ok outputJSON => (Some (Ok outputJSON), r')
              end
          end
      end
  end.

End WithBackend.

End Reflection.

(** ** Package [grpc]: the service discoverer *)

Module Discovery.
Import Types Protoreflect.

(** [config.DescriptorSetConfig]. *)
Record DescriptorSetConfig := {
  Enabled : bool;
  Path : string
}.

(** The two steps of [descriptors.Loader] that [discoverFromFileDescriptor]
    runs before [ExtractMethodInfo], given by their outcome: [LoadFromFile]
    reads the file and unmarshals the descriptor set, [BuildRegistry] links
    its files into resolved descriptors.  The registry is given as the list
    of its files in the order [RangeFiles] visits them in this round; Go
    leaves that order open, and another round may meet another order. *)
Record Loader := {
  LoadFromFile : string -> result (list Reflection.FileDescriptorProto);
  BuildRegistry : list Reflection.FileDescriptorProto ->
                  result (list FileDescriptor)
}.

(** [serviceDiscoverer].  [reflectionClient = None] is the nil client;
    [tools] is what the atomic pointer holds ([None]: nil). *)
Record serviceDiscoverer := {
  reflectionClient : option Reflection.reflectionClient;
  tools : option (gmap string MethodInfo);
  descriptorLoader : Loader;
  descriptorConfig : DescriptorSetConfig
}.

Definition with_reflectionClient (d : serviceDiscoverer)
    (r : Reflection.reflectionClient) : serviceDiscoverer :=
  {| reflectionClient := Some r; tools := tools d;
     descriptorLoader := descriptorLoader d;
     descriptorConfig := descriptorConfig d |}.

(** [d.tools.Store(&m)]. *)
Definition tools_Store (d : serviceDiscoverer) (m : gmap string MethodInfo)
  : serviceDiscoverer :=
  {| reflectionClient := reflectionClient d; tools := Some m;
     descriptorLoader := descriptorLoader d;
     descriptorConfig := descriptorConfig d |}.

(** [NewServiceDiscoverer]: no reflection client yet, an empty catalog. *)
Definition NewServiceDiscoverer (loader : Loader)
    (descriptorConfig : DescriptorSetConfig) : serviceDiscoverer :=
  {| reflectionClient := None; tools := Some ∅;
     descriptorLoader := loader; descriptorConfig := descriptorConfig |}.

(** [serviceDiscoverer.discoverFromFileDescriptor]. *)
Definition discoverFromFileDescriptor (d : serviceDiscoverer)
  : result (Slice.slice MethodInfo) :=
  match LoadFromFile (descriptorLoader d) (Path (descriptorConfig d)) with
  | Err e => Err (Wrapf "failed to load descriptor set" e)
  | Ok fdSet =>
      match BuildRegistry (descriptorLoader d) fdSet with
      | Err e => Err (Wrapf "failed to build file registry" e)
      | Ok files =>
          match Descriptors.ExtractMethodInfo files with
          | Err e => Err (Wrapf "failed to extract method info" e)
          | Ok methods => Ok methods
          end
      end
  end.

(** The catalog built by the last loop of [DiscoverServices]:
    [tools[method.ToolName] = method] for each method in turn. *)
Definition build_tools (methods : list MethodInfo) : gmap string MethodInfo :=
  fold_left (fun tools method => <[ToolName method := method]> tools)
    methods ∅.

Section WithBackend.
Variable B : Reflection.Backend.

(** [serviceDiscoverer.discoverFromReflection]. *)
Definition discoverFromReflection (r : Reflection.reflectionClient)
  : result (Slice.slice MethodInfo) * Reflection.reflectionClient :=
  match Reflection.DiscoverMethods B r with
  | (Err e, r') =>
      (Err (Wrapf "failed to discover services via reflection" e), r')
  | (Ok methods, r') => (Ok methods, r')
  end.

(** The first step of [DiscoverServices]: the offline descriptor set,
    when it is enabled and has a path; a failure leaves [methods] nil. *)
Definition offline_methods (d : serviceDiscoverer) : Slice.slice MethodInfo :=
  if Enabled (descriptorConfig d)
     && negb (String.eqb (Path (descriptorConfig d)) "")
  then match discoverFromFileDescriptor d with
       | Ok methods => methods
       | Err _ => Slice.nil
       end
  else Slice.nil.

(** [serviceDiscoverer.DiscoverServices]. *)
Definition DiscoverServices (d : serviceDiscoverer)
  : result unit * serviceDiscoverer :=
  match reflectionClient d with
  | None => (Err (Errorf "not connected to gRPC server"), d)
  | Some r =>
      let methods := offline_methods d in
      if Slice.is_nil methods then
        match discoverFromReflection r with
        | (Err e, r') => (Err e, with_reflectionClient d r')
        | (Ok methods, r') =>
            (Ok tt,
             tools_Store (with_reflectionClient d r')
               (build_tools (Slice.elems methods)))
        end
      else (Ok tt, tools_Store d (build_tools (Slice.elems methods)))
  end.

(** [serviceDiscoverer.GetMethods]: the records of the catalog, in the
    order [map_to_list] gives. *)
Definition GetMethods (d : serviceDiscoverer) : list MethodInfo :=
  match tools d with
  | None => []
  | Some tools => (map_to_list tools).*2
  end.

(** [serviceDiscoverer.getMethodByTool]. *)
Definition getMethodByTool (d : serviceDiscoverer) (toolName : string)
  : option MethodInfo :=
  match tools d with
  | None => None
  | Some tools => tools !! toolName
  end.

(** [serviceDiscoverer.InvokeMethodByTool].  The outer [option] is [None]
    when the call panics. *)
Definition InvokeMethodByTool (d : serviceDiscoverer)
    (headers : list (string * string)) (toolName inputJSON : string)
  : option (result string) * serviceDiscoverer :=
  match getMethodByTool d toolName with
  | None => (Some (Err (Errorf ("tool " +:+ toolName +:+ " not found"))), d)
  | Some method =>
      if IsClientStreaming method || IsServerStreaming method
      then (Some (Err (Errorf "streaming methods are not supported")), d)
      else
        match reflectionClient d with
        | None => (Some (Err (Errorf "not connected to gRPC server")), d)
        | Some r =>
            match Reflection.InvokeMethod B r headers method inputJSON with
            | (Some (Err e), r') =>
                (Some (Err (Wrapf "failed to invoke method" e)),
                 with_reflectionClient d r')
            | (Some (Ok result), r') =>
                (Some (Ok result), with_reflectionClient d r')
            | (None, r') => (None, with_reflectionClient d r')
            end
        end
  end.

End WithBackend.

(** Everything the discoverer has sent on its connection so far. *)
Definition sent_by (d : serviceDiscoverer) : list Reflection.event :=
  match reflectionClient d with
  | None => []
  | Some r => Reflection.sent r
  end.

End Discovery.

(** ** Package [tools]: the MCP tool builder *)

Module Tools.
Import Types Protoreflect.

(** [mcp.Tool]; a schema is a map or nil. *)
Record Tool := {
  tool_Name : string;
  tool_Description : string;
  tool_InputSchema : option json;
  tool_OutputSchema : option json
}.

(** [MCPToolBuilder.generateDescription]. *)
Definition generateDescription (method : MethodInfo) : string :=
  if negb (String.eqb (Description method) "") then Description method
  else "Calls the " +:+ Name method +:+ " method of the "
         +:+ ServiceName method +:+ " service".

(** [MCPToolBuilder.validateTool]; [None] is the nil error. *)
Definition validateTool (tool : Tool) : option error :=
  if String.eqb (tool_Name tool) "" then
    Some (Errorf "tool name cannot be empty")
  else if String.eqb (tool_Description tool) "" then
    Some (Errorf "tool description cannot be empty")
  else match tool_InputSchema tool with
       | None => Some (Errorf "tool input schema cannot be nil")
       | Some _ =>
           if negb (Strs.Contains (tool_Name tool) "_") then
             Some (Errorf "tool name must contain underscore separator")
           else None
       end.

(** [MCPToolBuilder.extractComments]. *)
Definition extractComments (loc : SourceLocation) : string :=
  Descriptors.extractComments loc.

(** The schema returned for a message that is already being projected. *)
Definition ref_schema (fullName : string) : json :=
  JObj [("$ref", JStr ("#/definitions/" +:+ fullName))].

(** The inner switch of [extractFieldTypeSchemaInternal]: the schema of a
    well-known message type, [None] for the [default] branch. *)
Definition well_known_schema (fullName : string) : option json :=
  if String.eqb fullName "google.protobuf.Any" then
    Some (JObj [("type", JStr "object");
                ("description",
                 JStr "Any contains an arbitrary serialized protocol buffer message")])
  else if String.eqb fullName "google.protobuf.Timestamp" then
    Some (JObj [("type", JStr "string"); ("format", JStr "date-time");
                ("description", JStr "RFC 3339 formatted timestamp")])
  else if String.eqb fullName "google.protobuf.Duration" then
    Some (JObj [("type", JStr "string"); ("format", JStr "duration");
                ("description",
                 JStr "Duration in seconds with up to 9 fractional digits")])
  else if String.eqb fullName "google.protobuf.Struct" then
    Some (JObj [("type", JStr "object");
                ("description", JStr "Arbitrary JSON-like structure")])
  else if String.eqb fullName "google.protobuf.Value" then
    Some (JObj [("description", JStr "Any JSON value")])
  else if String.eqb fullName "google.protobuf.ListValue" then
    Some (JObj [("type", JStr "array");
                ("description", JStr "Array of JSON values")])
  else if String.eqb fullName "google.protobuf.StringValue"
          || String.eqb fullName "google.protobuf.BytesValue" then
    Some (JObj [("type", JStr "string")])
  else if String.eqb fullName "google.protobuf.BoolValue" then
    Some (JObj [("type", JStr "boolean")])
  else if String.eqb fullName "google.protobuf.Int32Value"
          || String.eqb fullName "google.protobuf.UInt32Value"
          || String.eqb fullName "google.protobuf.Int64Value"
          || String.eqb fullName "google.protobuf.UInt64Value" then
    Some (JObj [("type", JStr "integer")])
  else if String.eqb fullName "google.protobuf.FloatValue"
          || String.eqb fullName "google.protobuf.DoubleValue" then
    Some (JObj [("type", JStr "number")])
  else None.

(** The [EnumKind] case of [extractFieldTypeSchemaInternal]. *)
Definition enum_schema (enumDesc : EnumDescriptor) : json :=
  let enumValues := map (fun v => JStr (ev_Name v)) (enum_Values enumDesc) in
  let enumDescriptions :=
    fold_left
      (fun descriptions v =>
         let desc := extractComments (ev_Location v) in
         if negb (String.eqb desc "")
         then jset (ev_Name v) (JStr desc) descriptions else descriptions)
      (enum_Values enumDesc) [] in
  let schema := [("type", JStr "string"); ("enum", JArr enumValues)] in
  let schema :=
    let desc := extractComments (enum_Location enumDesc) in
    if negb (String.eqb desc "")
    then jset "description" (JStr desc) schema else schema in
  let schema :=
    if (0 <? length enumDescriptions)%nat
    then jset "enumDescriptions" (JObj enumDescriptions) schema else schema in
  JObj schema.

(** A step of the projector: it reads and updates the [visited] set, and
    yields a schema or an error; [None] when the recursion budget of the
    embedding is used up. *)
Definition step (A : Type) : Type :=
  gset string -> option (result A * gset string).

Section Projection.
(** The message descriptors that [field.Message()] can point to. *)
Variable pool : list MessageDescriptor.

(** An unresolved name stands for a placeholder descriptor, which has
    the name and nothing else. *)
Definition placeholder (fullName : string) : MessageDescriptor :=
  {| msg_FullName := fullName; msg_Location := no_location;
     msg_Fields := []; msg_Oneofs := [] |}.

(** [field.Message()]. *)
Definition Message_of (fullName : string) : MessageDescriptor :=
  match find (fun m => String.eqb (msg_FullName m) fullName) pool with
  | Some m => m
  | None => placeholder fullName
  end.

Section Fields.
(** The recursive call to [extractMessageSchemaInternal]. *)
Variable extractMessage : MessageDescriptor -> step json.

(** [MCPToolBuilder.extractFieldTypeSchemaInternal]. *)
Definition extractFieldTypeSchemaInternal (field : FieldDescriptor)
  : step json :=
  fun visited =>
    match fd_Kind field with
    | BoolKind => Some (Ok (JObj [("type", JStr "boolean")]), visited)
    | Int32Kind | Sint32Kind | Sfixed32Kind =>
        Some (Ok (JObj [("type", JStr "integer");
                        ("format", JStr "int32")]), visited)
    | Int64Kind | Sint64Kind | Sfixed64Kind =>
        Some (Ok (JObj [("type", JStr "integer");
                        ("format", JStr "int64")]), visited)
    | Uint32Kind | Fixed32Kind =>
        Some (Ok (JObj [("type", JStr "integer");
                        ("format", JStr "uint32");
                        ("minimum", JNum 0)]), visited)
    | Uint64Kind | Fixed64Kind =>
        Some (Ok (JObj [("type", JStr "integer");
                        ("format", JStr "uint64");
                        ("minimum", JNum 0)]), visited)
    | FloatKind =>
        Some (Ok (JObj [("type", JStr "number");
                        ("format", JStr "float")]), visited)
    | DoubleKind =>
        Some (Ok (JObj [("type", JStr "number");
                        ("format", JStr "double")]), visited)
    | StringKind => Some (Ok (JObj [("type", JStr "string")]), visited)
    | BytesKind =>
        Some (Ok (JObj [("type", JStr "string");
                        ("format", JStr "byte")]), visited)
    | EnumKind => Some (Ok (enum_schema (fd_Enum field)), visited)
    | MessageKind =>
        match well_known_schema (fd_Message field) with
        | Some schema => Some (Ok schema, visited)
        | None =>
            match extractMessage (Message_of (fd_Message field)) visited with
            | None => None
            | Some (Err e, visited') =>
                Some (Err (Wrapf ("failed to extract schema for message "
                                    +:+ fd_Message field) e), visited')
            | Some (Ok messageSchema, visited') =>
                Some (Ok messageSchema, visited')
            end
        end
    | GroupKind =>
        Some (Err (Errorf "unsupported field kind: group"), visited)
    end.

(** [MCPToolBuilder.extractFieldSchemaInternal]. *)
Definition extractFieldSchemaInternal (field : FieldDescriptor)
  : step json :=
  fun visited =>
    let schema :=
      let desc := extractComments (fd_Location field) in
      if negb (String.eqb desc "") then [("description", JStr desc)]
      else [] in
    if fd_IsList field then
      match extractFieldTypeSchemaInternal field visited with
      | None => None
      | Some (Err e, visited') => Some (Err e, visited')
      | Some (Ok itemSchema, visited') =>
          Some (Ok (JObj (jset "items" itemSchema
                            (jset "type" (JStr "array") schema))),
                visited')
      end
    else
      match fd_MapValue field with
      | Some valueField =>
          match extractFieldTypeSchemaInternal valueField visited with
          | None => None
          | Some (Err e, visited') => Some (Err e, visited')
          | Some (Ok valueSchema, visited') =>
              Some (Ok (JObj
                          (jset "additionalProperties" (JBool false)
                             (jset "patternProperties"
                                (JObj [(".*", valueSchema)])
                                (jset "type" (JStr "object") schema)))),
                    visited')
          end
      | None => extractFieldTypeSchemaInternal field visited
      end.

(** The loop over [msgDesc.Fields()]: a field whose schema cannot be
    built is skipped; any other field becomes a property, and is
    required unless it has the optional keyword or presence. *)
Fixpoint fields_loop (fields : list FieldDescriptor)
    (properties : list (string * json)) (required : list string)
    (visited : gset string)
  : option (list (string * json) * list string * gset string) :=
  match fields with
  | [] => Some (properties, required, visited)
  | field :: rest =>
      let fieldName := fd_Name field in
      match extractFieldSchemaInternal field visited with
      | None => None
      | Some (Err _, visited') =>
          fields_loop rest properties required visited'
      | Some (Ok fieldSchema, visited') =>
          let properties := jset fieldName fieldSchema properties in
          let required :=
            if fd_HasOptionalKeyword field || fd_HasPresence field
            then required else required ++ [fieldName] in
          fields_loop rest properties required visited'
      end
  end.

(** The loop over the fields of one oneof: one alternative for each
    field whose schema can be built. *)
Fixpoint oneof_options (fields : list FieldDescriptor)
    (options : list json) (visited : gset string)
  : option (list json * gset string) :=
  match fields with
  | [] => Some (options, visited)
  | field :: rest =>
      let fieldName := fd_Name field in
      match extractFieldSchemaInternal field visited with
      | None => None
      | Some (Err _, visited') => oneof_options rest options visited'
      | Some (Ok fieldSchema, visited') =>
          let oneofOption :=
            JObj [("type", JStr "object");
                  ("properties", JObj [(fieldName, fieldSchema)]);
                  ("required", jstrings [fieldName])] in
          oneof_options rest (options ++ [oneofOption]) visited'
      end
  end.

(** The loop over [msgDesc.Oneofs()]. *)
Fixpoint oneofs_loop (oneofs : list OneofDescriptor)
    (properties : list (string * json)) (visited : gset string)
  : option (list (string * json) * gset string) :=
  match oneofs with
  | [] => Some (properties, visited)
  | oneof :: rest =>
      match oneof_options (oneof_Fields oneof) [] visited with
      | None => None
      | Some (options, visited') =>
          let desc := extractComments (oneof_Location oneof) in
          let oneofSchema :=
            [("type", JStr "object"); ("oneOf", JArr options)]
            ++ (if negb (String.eqb desc "")
                then [("description", JStr desc)] else []) in
          oneofs_loop rest
            (jset (oneof_Name oneof) (JObj oneofSchema) properties)
            visited'
      end
  end.

(** The body of [extractMessageSchemaInternal] after the name has
    been put into [visited]. *)
Definition message_body (msgDesc : MessageDescriptor)
    (visited : gset string) : option (json * gset string) :=
  match fields_loop (msg_Fields msgDesc) [] [] visited with
  | None => None
  | Some (properties, required, visited1) =>
      match oneofs_loop (msg_Oneofs msgDesc) properties visited1 with
      | None => None
      | Some (properties, visited2) =>
          let desc := extractComments (msg_Location msgDesc) in
          let schema :=
            [("type", JStr "object"); ("properties", JObj properties)]
            ++ (if negb (String.eqb desc "")
                then [("description", JStr desc)] else [])
            ++ (if (0 <? length required)%nat
                then [("required", jstrings required)] else []) in
          Some (JObj schema, visited2)
      end
  end.

End Fields.

(** [MCPToolBuilder.extractMessageSchemaInternal].  [depth] bounds the
    nesting of the calls; a message that is already in [visited] yields
    a reference; otherwise its name is in [visited] while its fields are
    projected and is deleted on the way out (the deferred [delete]). *)
Fixpoint extractMessageSchemaInternal (depth : nat)
    (msgDesc : MessageDescriptor) : step json :=
  fun visited =>
    match depth with
    | O => None
    | S depth' =>
        let fullName := msg_FullName msgDesc in
        if bool_decide (fullName ∈ visited) then
          Some (Ok (ref_schema fullName), visited)
        else
          let visited := {[fullName]} ∪ visited in
          match message_body (extractMessageSchemaInternal depth')
                  msgDesc visited with
          | None => None
          | Some (schema, visited') =>
              Some (Ok schema, visited' ∖ {[fullName]})
          end
    end.

(** The names of the messages of the pool. *)
Definition pool_names : gset string :=
  list_to_set (map msg_FullName pool).

(** [MCPToolBuilder.ExtractMessageSchema]: the projection starts with an
    empty [visited] set.  The nesting of the calls never exceeds the
    number of message names of the pool by more than two
    (lemma [ExtractMessageSchema_total]). *)
Definition ExtractMessageSchema (msgDesc : MessageDescriptor)
  : option (result json) :=
  match extractMessageSchemaInternal (2 + size pool_names) msgDesc ∅ with
  | None => None
  | Some (r, _) => Some r
  end.

(** [MCPToolBuilder.BuildTool]; the descriptors of the method are looked
    up in the pool by name. *)
Definition BuildTool (method : MethodInfo) : option (result Tool) :=
  let toolName := GenerateToolName method in
  let description := generateDescription method in
  match ExtractMessageSchema (Message_of (InputDescriptor method)) with
  | None => None
  | Some (Err e) => Some (Err (Wrapf "failed to generate input schema" e))
  | Some (Ok inputSchema) =>
      match ExtractMessageSchema (Message_of (OutputDescriptor method)) with
      | None => None
      | Some (Err e) =>
          Some (Err (Wrapf "failed to generate output schema" e))
      | Some (Ok outputSchema) =>
          let tool :=
            {| tool_Name := toolName; tool_Description := description;
               tool_InputSchema := Some inputSchema;
               tool_OutputSchema := Some outputSchema |} in
          match validateTool tool with
          | Some e => Some (Err (Wrapf "tool validation failed" e))
          | None => Some (Ok tool)
          end
      end
  end.

End Projection.

End Tools.

(** * Further functions of the packages *)

(** ** Error texts *)

(** [err.Error()]: the text of an error; a wrapped error is printed after
    the message and a colon, as the [%w] verb at the end of each format
    string does; a status error prints its code and its description. *)
Fixpoint error_Error (e : error) : string :=
  match e with
  | Errorf msg => msg
  | Wrapf msg cause => msg +:+ ": " +:+ error_Error cause
  | Status code desc =>
      "rpc error: code = " +:+ Codes.Code_String code +:+ " desc = " +:+ desc
  end.

(** ** Package [grpc]: service names *)

Module Names.

(** [getSimpleServiceName]: the last dot-separated part of the name. *)
Definition getSimpleServiceName (fullName : string) : string :=
  let parts := Strs.SplitByte fullName "." in
  if (0 <? length parts)%nat then nth (length parts - 1) parts ""
  else fullName.

End Names.

(** ** Package [grpc]: counts and statistics of the discoverer *)

Module Stats.
Import Types.

(** The set the loops of [GetServiceCount] and [GetServiceStats] build:
    [serviceNames[method.ServiceName] = true] for each record of the
    catalog. *)
Definition serviceNames (tools : gmap string MethodInfo) : gset string :=
  fold_left (fun names '(_, method) => {[ServiceName method]} ∪ names)
    (map_to_list tools) ∅.

(** [serviceDiscoverer.GetServiceCount]. *)
Definition GetServiceCount (d : Discovery.serviceDiscoverer) : nat :=
  match Discovery.tools d with
  | None => 0
  | Some tools => size (serviceNames tools)
  end.

(** [serviceDiscoverer.GetMethodCount]. *)
Definition GetMethodCount (d : Discovery.serviceDiscoverer) : nat :=
  match Discovery.tools d with
  | None => 0
  | Some tools => size tools
  end.

(** [serviceDiscoverer.isConnected]; the connection manager of the
    discoverer is passed beside it. *)
Definition isConnected (cm : Connection.connectionManager)
    (d : Discovery.serviceDiscoverer) : bool :=
  Connection.IsConnected cm &&
  match Discovery.reflectionClient d with Some _ => true | None => false end.

(** The map [GetServiceStats] returns, by its four keys. *)
Record ServiceStats := {
  serviceCount : nat;
  methodCount : nat;
  stats_isConnected : bool;
  services : list string
}.

(** [serviceDiscoverer.GetServiceStats].  The service names are listed in
    the order [elements] gives; Go leaves the order of a map open. *)
Definition GetServiceStats (cm : Connection.connectionManager)
    (d : Discovery.serviceDiscoverer) : ServiceStats :=
  match Discovery.tools d with
  | None =>
      {| serviceCount := 0; methodCount := 0;
         stats_isConnected := isConnected cm d; services := [] |}
  | Some tools =>
      let names := serviceNames tools in
      {| serviceCount := size names; methodCount := size tools;
         stats_isConnected := isConnected cm d;
         services := elements names |}
  end.

End Stats.

(** ** Package [tools]: all the tools of a catalog *)

Module Listing.
Import Types.

Section WithPool.
Variable pool : list Protoreflect.MessageDescriptor.

(** The loop of [BuildTools]: a streaming method is skipped, and so is a
    method whose tool cannot be built. *)
Fixpoint build_loop (methods : list MethodInfo) (tools : list Tools.Tool)
  : option (list Tools.Tool) :=
  match methods with
  | [] => Some tools
  | method :: rest =>
      if IsClientStreaming method || IsServerStreaming method
      then build_loop rest tools
      else match Tools.BuildTool pool method with
           | None => None
           | Some (Err _) => build_loop rest tools
           | Some (Ok tool) => build_loop rest (tools ++ [tool])
           end
  end.

(** [MCPToolBuilder.BuildTools]; the error it returns is always nil.  The
    outer [option] is that of [BuildTool]. *)
Definition BuildTools (methods : list MethodInfo)
  : option (result (list Tools.Tool)) :=
  match build_loop methods [] with
  | None => None
  | Some tools => Some (Ok tools)
  end.

(** [Handler.handleToolsList]: the tools of the methods of the catalog. *)
Definition handleToolsList (d : Discovery.serviceDiscoverer)
  : option (result (list Tools.Tool)) :=
  let methods := Discovery.GetMethods d in
  match BuildTools methods with
  | None => None
  | Some (Err e) => Some (Err (Wrapf "failed to build tools" e))
  | Some (Ok toolList) => Some (Ok toolList)
  end.

End WithPool.

End Listing.

(** ** Package [server]: request headers and error codes *)

Module Server.

(** [extractHeaders]: the first value of each header that has one.  The
    request headers are a map from names to lists of values; the loop visits
    them in the order [map_to_list] gives. *)
Definition extractHeaders (header : gmap string (list string))
  : gmap string string :=
  fold_left
    (fun headerMap '(name, values) =>
       match values with
       | [] => headerMap
       | v :: _ => <[name := v]> headerMap
       end)
    (map_to_list header) ∅.

(** The JSON-RPC error codes [handlePost] chooses among. *)
Inductive ErrorCode : Type :=
| ErrorCodeMethodNotFound
| ErrorCodeInvalidParams
| ErrorCodeInternalError.

(** The choice of the error code in [handlePost], by the text of the
    error. *)
Definition errorCode (err : error) : ErrorCode :=
  if Strs.Contains (error_Error err) "not found" then ErrorCodeMethodNotFound
  else if Strs.Contains (error_Error err) "invalid" then ErrorCodeInvalidParams
  else ErrorCodeInternalError.

(** The [default] case of [handleRequest]. *)
Definition method_not_found (method : string) : error :=
  Errorf ("method not found: " +:+ method).

End Server.

(** ** Packages [grpc]: connecting, probing and closing *)

Module Lifecycle.
Import Connection.

(** A connection after [conn.Close()]: shut down for good. *)
Definition closed : ClientConn := {| state_at := fun _ => Shutdown |}.

(** The channel [c] as seen [t] milliseconds later. *)
Definition later (t : nat) (c : ClientConn) : ClientConn :=
  {| state_at := fun u => state_at c (t + u) |}.

(** The instant at which [healthCheckLocked] returns on the channel [c]:
    at once, or when its wait ends. *)
Definition probe_end (c : ClientConn) (ctx : option nat) : nat :=
  let state := state_at c 0 in
  if State_eqb state TransientFailure || State_eqb state Shutdown then 0
  else if negb (State_eqb state Ready) then
    let healthCtx := WithTimeout ctx five_seconds in
    match WaitForStateChange c healthCtx state with
    | None => healthCtx
    | Some t => t
    end
  else 0.

(** [connectionManager.GetConnection]. *)
Definition GetConnection (cm : connectionManager) : option ClientConn :=
  conn cm.

(** [connectionManager.HealthCheck]. *)
Definition HealthCheck (cm : connectionManager) (ctx : option nat)
  : result unit :=
  healthCheckLocked cm ctx.

(** [connectionManager.Connect].  [dial] is the outcome of
    [grpc.DialContext].  A connection the manager held is closed first and
    stays in [conn] when the dial fails; a dialed connection that fails the
    probe is closed and [conn] is set to nil; one that passes is kept, and
    the manager is returned as it is when the probe ends. *)
Definition Connect (dial : result ClientConn) (cm : connectionManager)
    (ctx : option nat) : result unit * connectionManager :=
  let cm :=
    match conn cm with
    | Some _ => {| conn := Some closed |}
    | None => cm
    end in
  match dial with
  | Err e => (Err (Wrapf "failed to connect to gRPC server" e), cm)
  | Ok c =>
      let cm := {| conn := Some c |} in
      match healthCheckLocked cm ctx with
      | Err e => (Err (Wrapf "health check failed" e), {| conn := None |})
      | Ok _ => (Ok tt, {| conn := Some (later (probe_end c ctx) c) |})
      end
  end.

(** [connectionManager.Reconnect]. *)
Definition Reconnect (dial : result ClientConn) (cm : connectionManager)
    (ctx : option nat) : result unit * connectionManager :=
  Connect dial cm ctx.

(** [connectionManager.Close]: the connection is closed and [conn] set to
    nil; closing a connection that is already shut down is an error, the
    [ErrClientConnClosing] of the gRPC library. *)
Definition Close (cm : connectionManager)
  : option error * connectionManager :=
  match conn cm with
  | None => (None, cm)
  | Some c =>
      (if State_eqb (state_at c 0) Shutdown
       then Some (Status Codes.Canceled
                    "grpc: the client connection is closing")
       else None,
       {| conn := None |})
  end.

Section WithBackend.
Variable B : Reflection.Backend.

(** [reflectionClient.HealthCheck]: one ListServices exchange. *)
Definition reflection_HealthCheck (r : Reflection.reflectionClient)
  : result unit * Reflection.reflectionClient :=
  match Reflection.listServices B r with
  | (Err e, r') => (Err (Wrapf "health check failed" e), r')
  | (Ok _, r') => (Ok tt, r')
  end.

(** [serviceDiscoverer.Connect]. *)
Definition discoverer_Connect (dial : result ClientConn)
    (d : Discovery.serviceDiscoverer) (cm : connectionManager)
    (ctx : option nat)
  : result unit * Discovery.serviceDiscoverer * connectionManager :=
  match Connect dial cm ctx with
  | (Err e, cm') =>
      (Err (Wrapf "failed to connect via connection manager" e), d, cm')
  | (Ok _, cm') =>
      match GetConnection cm' with
      | None =>
          (Err (Errorf "connection manager returned nil connection"), d, cm')
      | Some _ =>
          match reflection_HealthCheck Reflection.NewReflectionClient with
          | (Err e, r') =>
              (Err (Wrapf "health check failed" e),
               Discovery.with_reflectionClient d r', cm')
          | (Ok _, r') =>
              (Ok tt, Discovery.with_reflectionClient d r', cm')
          end
      end
  end.

(** [serviceDiscoverer.HealthCheck]. *)
Definition discoverer_HealthCheck (d : Discovery.serviceDiscoverer)
    (cm : connectionManager) (ctx : option nat)
  : result unit * Discovery.serviceDiscoverer :=
  match HealthCheck cm ctx with
  | Err e => (Err (Wrapf "connection manager health check failed" e), d)
  | Ok _ =>
      match Discovery.reflectionClient d with
      | None => (Err (Errorf "reflection client not initialized"), d)
      | Some r =>
          let '(res, r') := reflection_HealthCheck r in
          (res, Discovery.with_reflectionClient d r')
      end
  end.

End WithBackend.

(** [serviceDiscoverer.Close]: the reflection client is closed and dropped,
    the connection manager is closed, the catalog is reset to the empty
    map; the errors of the two closes are logged, and nil is returned. *)
Definition discoverer_Close (d : Discovery.serviceDiscoverer)
    (cm : connectionManager)
  : Discovery.serviceDiscoverer * connectionManager :=
  ({| Discovery.reflectionClient := None;
      Discovery.tools := Some ∅;
      Discovery.descriptorLoader := Discovery.descriptorLoader d;
      Discovery.descriptorConfig := Discovery.descriptorConfig d |},
   snd (Close cm)).

(** What one turn of the loop of [serviceDiscoverer.Reconnect] meets:
    whether the context is done before the wait that precedes the turn is
    over (not looked at in the first turn), the outcome of the dial, the
    backend behind the new connection, and the context of the calls. *)
Record Turn := {
  ctx_done : option error;
  turn_dial : result ClientConn;
  turn_backend : Reflection.Backend;
  turn_ctx : option nat
}.

(** The error [Reconnect] returns when no turn is left. *)
Definition exhausted (maxReconnectAttempts : nat) (lastErr : option error)
  : error :=
  let msg := "failed to reconnect after "
               +:+ NilZero.string_of_uint (Nat.to_uint maxReconnectAttempts)
               +:+ " attempts" in
  match lastErr with
  | Some e => Wrapf msg e
  | None => Errorf (msg +:+ ": %!w(<nil>)")
  end.

(** One turn of the loop of [serviceDiscoverer.Reconnect], after its
    wait: reconnect the manager, put a new reflection client in place,
    rediscover.  [Err e]: the turn ends in [continue] with [lastErr = e];
    [Ok]: the turn returns nil. *)
Definition attempt (turn : Turn) (d : Discovery.serviceDiscoverer)
    (cm : connectionManager)
  : result unit * Discovery.serviceDiscoverer * connectionManager :=
  match Reconnect (turn_dial turn) cm (turn_ctx turn) with
  | (Err e, cm') => (Err e, d, cm')
  | (Ok _, cm') =>
      match GetConnection cm' with
      | None =>
          (Err (Errorf
                  "connection manager returned nil connection after reconnect"),
           d, cm')
      | Some _ =>
          let d1 :=
            Discovery.with_reflectionClient d Reflection.NewReflectionClient in
          match Discovery.DiscoverServices (turn_backend turn) d1 with
          | (Err e, d2) => (Err e, d2, cm')
          | (Ok _, d2) => (Ok tt, d2, cm')
          end
      end
  end.

(** The loop of [serviceDiscoverer.Reconnect] from turn [i] on, with [n]
    turns left: wait (from the second turn on; a done context ends the
    loop), then the turn; the first turn that succeeds ends the loop, a
    turn that fails leaves its error in [lastErr]. *)
Fixpoint reconnect_loop (maxReconnectAttempts : nat) (turns : nat -> Turn)
    (i n : nat) (lastErr : option error) (d : Discovery.serviceDiscoverer)
    (cm : connectionManager)
  : result unit * Discovery.serviceDiscoverer * connectionManager :=
  match n with
  | O => (Err (exhausted maxReconnectAttempts lastErr), d, cm)
  | S n' =>
      let turn := turns i in
      match (if (0 <? i)%nat then ctx_done turn else None) with
      | Some e => (Err e, d, cm)
      | None =>
          match attempt turn d cm with
          | (Err e, d', cm') =>
              reconnect_loop maxReconnectAttempts turns (S i) n' (Some e) d' cm'
          | (Ok _, d', cm') => (Ok tt, d', cm')
          end
      end
  end.

(** [serviceDiscoverer.Reconnect], with [maxReconnectAttempts] turns. *)
Definition discoverer_Reconnect (maxReconnectAttempts : nat)
    (turns : nat -> Turn) (d : Discovery.serviceDiscoverer)
    (cm : connectionManager)
  : result unit * Discovery.serviceDiscoverer * connectionManager :=
  reconnect_loop maxReconnectAttempts turns 0 maxReconnectAttempts None d cm.

End Lifecycle.

(** * Sample inputs *)

Module Samples.
Import Types Protoreflect.

(** ** A reflection server *)

Definition SayHello_proto : Reflection.MethodDescriptorProto :=
  {| Reflection.mp_Name := "SayHello";
     Reflection.mp_InputType := ".hello.HelloRequest";
     Reflection.mp_OutputType := ".hello.HelloReply";
     Reflection.mp_ClientStreaming := false;
     Reflection.mp_ServerStreaming := false |}.

Definition WatchHello_proto : Reflection.MethodDescriptorProto :=
  {| Reflection.mp_Name := "WatchHello";
     Reflection.mp_InputType := ".hello.HelloRequest";
     Reflection.mp_OutputType := ".hello.HelloReply";
     Reflection.mp_ClientStreaming := false;
     Reflection.mp_ServerStreaming := true |}.

Definition hello_proto : Reflection.FileDescriptorProto :=
  {| Reflection.fp_Name := "hello.proto";
     Reflection.fp_Package := "hello";
     Reflection.fp_Service :=
       [ {| Reflection.sp_Name := "HelloService";
            Reflection.sp_Method := [SayHello_proto; WatchHello_proto] |} ] |}.

(** The codec of the sample backend refuses the input [[]] and accepts
    every other input. *)
Definition sample_Unmarshal (inputJSON : string) (msg : Reflection.Message)
  : result Reflection.Message :=
  if String.eqb inputJSON "[]" then Err (Errorf "proto: syntax error")
  else Ok {| Reflection.m_Descriptor := Reflection.m_Descriptor msg;
             Reflection.m_Fields := [("name", JStr inputJSON)] |}.

(** A backend that lists the reflection service and the hello service. *)
Definition hello_backend : Reflection.Backend :=
  {| Reflection.listServices_reply := fun _ =>
       Ok ["grpc.reflection.v1alpha.ServerReflection"; "hello.HelloService"];
     Reflection.fileContainingSymbol_reply := fun _ _ => Ok hello_proto;
     Reflection.resolve := fun typeName _ => Ok typeName;
     Reflection.protojson_Unmarshal := sample_Unmarshal;
     Reflection.protojson_Marshal := fun _ => Ok "{}";
     Reflection.unary_reply := fun _ _ _ _ =>
       Ok (Reflection.NewMessage "hello.HelloReply") |}.

(** A backend whose reflection service does not answer. *)
Definition silent_backend : Reflection.Backend :=
  {| Reflection.listServices_reply := fun _ =>
       Err (Errorf "failed to receive list services response");
     Reflection.fileContainingSymbol_reply := fun _ _ =>
       Err (Errorf "failed to receive file containing symbol response");
     Reflection.resolve := fun typeName _ => Ok typeName;
     Reflection.protojson_Unmarshal := sample_Unmarshal;
     Reflection.protojson_Marshal := fun _ => Ok "{}";
     Reflection.unary_reply := fun _ _ _ _ => Err (Errorf "unavailable") |}.

(** A server with package [grpc] and a service named [health] in it. *)
Definition grpc_health_proto : Reflection.FileDescriptorProto :=
  {| Reflection.fp_Name := "health.proto";
     Reflection.fp_Package := "grpc";
     Reflection.fp_Service :=
       [ {| Reflection.sp_Name := "health";
            Reflection.sp_Method :=
              [ {| Reflection.mp_Name := "Probe";
                   Reflection.mp_InputType := ".grpc.ProbeRequest";
                   Reflection.mp_OutputType := ".grpc.ProbeReply";
                   Reflection.mp_ClientStreaming := false;
                   Reflection.mp_ServerStreaming := false |} ] |} ] |}.

Definition grpc_health_backend : Reflection.Backend :=
  {| Reflection.listServices_reply := fun _ => Ok ["grpc.health"];
     Reflection.fileContainingSymbol_reply := fun _ _ => Ok grpc_health_proto;
     Reflection.resolve := fun typeName _ => Ok typeName;
     Reflection.protojson_Unmarshal := sample_Unmarshal;
     Reflection.protojson_Marshal := fun _ => Ok "{}";
     Reflection.unary_reply := fun _ _ _ _ =>
       Ok (Reflection.NewMessage "grpc.ProbeReply") |}.

(** ** Descriptor sets *)

Definition SayHello_method : MethodDescriptor :=
  {| method_Name := "SayHello"; method_Location := no_location;
     method_Input := "hello.HelloRequest"; method_Output := "hello.HelloReply";
     method_IsStreamingClient := false; method_IsStreamingServer := false |}.

Definition hello_file : FileDescriptor :=
  {| file_Path := "hello.proto";
     file_Services :=
       [ {| service_FullName := "hello.HelloService";
            service_Location := no_location;
            service_Methods := [SayHello_method] |} ] |}.

(** A file that declares messages and no service. *)
Definition messages_file : FileDescriptor :=
  {| file_Path := "messages.proto"; file_Services := [] |}.

(** The standard health service, compiled into the descriptor set. *)
Definition health_file : FileDescriptor :=
  {| file_Path := "grpc/health/v1/health.proto";
     file_Services :=
       [ {| service_FullName := "grpc.health.v1.Health";
            service_Location := no_location;
            service_Methods :=
              [ {| method_Name := "Check"; method_Location := no_location;
                   method_Input := "grpc.health.v1.HealthCheckRequest";
                   method_Output := "grpc.health.v1.HealthCheckResponse";
                   method_IsStreamingClient := false;
                   method_IsStreamingServer := false |} ] |} ] |}.

(** A loader whose descriptor set links into [files]. *)
Definition loader_of (files : list FileDescriptor) : Discovery.Loader :=
  {| Discovery.LoadFromFile := fun _ => Ok [];
     Discovery.BuildRegistry := fun _ => Ok files |}.

(** A loader whose file cannot be opened. *)
Definition broken_loader : Discovery.Loader :=
  {| Discovery.LoadFromFile := fun _ =>
       Err (Errorf "failed to open descriptor file");
     Discovery.BuildRegistry := fun _ => Ok [] |}.

Definition descriptor_set_enabled : Discovery.DescriptorSetConfig :=
  {| Discovery.Enabled := true; Discovery.Path := "services.binpb" |}.

Definition descriptor_set_disabled : Discovery.DescriptorSetConfig :=
  {| Discovery.Enabled := false; Discovery.Path := "" |}.

(** A connected discoverer: [Connect] has put a fresh reflection client
    in place. *)
Definition connected (loader : Discovery.Loader)
    (config : Discovery.DescriptorSetConfig) : Discovery.serviceDiscoverer :=
  Discovery.with_reflectionClient
    (Discovery.NewServiceDiscoverer loader config)
    Reflection.NewReflectionClient.

(** A connected discoverer that published the hello catalog in an earlier
    round, and whose descriptor file has since become unreadable. *)
Definition hello_catalog : gmap string MethodInfo :=
  Discovery.build_tools
    [Descriptors.methodInfo_of "hello.HelloService" ""
       {| service_FullName := "hello.HelloService";
          service_Location := no_location;
          service_Methods := [SayHello_method] |}
       SayHello_method].

Definition stale_discoverer : Discovery.serviceDiscoverer :=
  Discovery.tools_Store (connected broken_loader descriptor_set_enabled)
    hello_catalog.

(** The discoverer after a round against the hello backend with the
    descriptor set switched off: its catalog comes from reflection. *)
Definition ready_discoverer : Discovery.serviceDiscoverer :=
  snd (Discovery.DiscoverServices hello_backend
         (connected broken_loader descriptor_set_disabled)).

(** The record of [hello.HelloService.SayHello]. *)
Definition SayHello_info : MethodInfo :=
  Descriptors.methodInfo_of "hello.HelloService" ""
    {| service_FullName := "hello.HelloService";
       service_Location := no_location;
       service_Methods := [SayHello_method] |}
    SayHello_method.

(** A connected discoverer whose descriptor set holds [messages_file]
    alone: the set loads, and no method is in it. *)
Definition messages_only_discoverer : Discovery.serviceDiscoverer :=
  connected (loader_of [messages_file]) descriptor_set_enabled.

(** A connected discoverer whose descriptor set holds the hello service. *)
Definition offline_discoverer : Discovery.serviceDiscoverer :=
  connected (loader_of [hello_file]) descriptor_set_enabled.

(** A connected discoverer whose descriptor set holds the hello service
    and the standard health service. *)
Definition offline_with_health : Discovery.serviceDiscoverer :=
  connected (loader_of [hello_file; health_file]) descriptor_set_enabled.

(** ** Channels *)

(** A channel that is idle when probed, starts to connect one millisecond
    later and is ready after fifty milliseconds. *)
Definition connecting_channel : Connection.ClientConn :=
  {| Connection.state_at := fun t =>
       if (t =? 0)%nat then Connection.Idle
       else if (t <? 50)%nat then Connection.Connecting
       else Connection.Ready |}.

(** A channel that is connecting when probed and ready after fifty
    milliseconds. *)
Definition dialing_channel : Connection.ClientConn :=
  {| Connection.state_at := fun t =>
       if (t <? 50)%nat then Connection.Connecting else Connection.Ready |}.

(** ** Messages *)

Definition no_enum : EnumDescriptor :=
  {| enum_FullName := ""; enum_Location := no_location; enum_Values := [] |}.

(** A singular field of a scalar kind, without presence. *)
Definition scalar_field (name : string) (kind : Kind) : FieldDescriptor :=
  {| fd_Name := name; fd_Location := no_location; fd_Kind := kind;
     fd_IsList := false; fd_HasOptionalKeyword := false;
     fd_HasPresence := false; fd_Enum := no_enum; fd_Message := "";
     fd_MapValue := None |}.

(** A singular message field; it has presence. *)
Definition message_field (name type : string) : FieldDescriptor :=
  {| fd_Name := name; fd_Location := no_location; fd_Kind := MessageKind;
     fd_IsList := false; fd_HasOptionalKeyword := false;
     fd_HasPresence := true; fd_Enum := no_enum; fd_Message := type;
     fd_MapValue := None |}.

(** [message HelloRequest { string name = 1; }] *)
Definition HelloRequest : MessageDescriptor :=
  {| msg_FullName := "hello.HelloRequest"; msg_Location := no_location;
     msg_Fields := [scalar_field "name" StringKind]; msg_Oneofs := [] |}.

(** [message Node { string v = 1; Node next = 2; }] *)
Definition Node : MessageDescriptor :=
  {| msg_FullName := "Node"; msg_Location := no_location;
     msg_Fields := [scalar_field "v" StringKind; message_field "next" "Node"];
     msg_Oneofs := [] |}.

(** A cycle through a chain: [A] has a field of type [B], [B] a repeated
    field of type [A]. *)
Definition chain_A : MessageDescriptor :=
  {| msg_FullName := "chain.A"; msg_Location := no_location;
     msg_Fields := [message_field "b" "chain.B"]; msg_Oneofs := [] |}.

Definition chain_B : MessageDescriptor :=
  {| msg_FullName := "chain.B"; msg_Location := no_location;
     msg_Fields :=
       [ {| fd_Name := "as"; fd_Location := no_location;
            fd_Kind := MessageKind; fd_IsList := true;
            fd_HasOptionalKeyword := false; fd_HasPresence := false;
            fd_Enum := no_enum; fd_Message := "chain.A";
            fd_MapValue := None |} ];
     msg_Oneofs := [] |}.

(** A proto2 message with a repeated group:
    [message SearchResponse { repeated group Result = 1 { ... } repeated string tags = 2; }].
    Both fields are lists, so they have no presence and no optional
    keyword. *)
Definition Result_group : FieldDescriptor :=
  {| fd_Name := "result"; fd_Location := no_location; fd_Kind := GroupKind;
     fd_IsList := true; fd_HasOptionalKeyword := false;
     fd_HasPresence := false; fd_Enum := no_enum;
     fd_Message := "search.SearchResponse.Result"; fd_MapValue := None |}.

Definition SearchResponse : MessageDescriptor :=
  {| msg_FullName := "search.SearchResponse"; msg_Location := no_location;
     msg_Fields :=
       [ Result_group;
         {| fd_Name := "tags"; fd_Location := no_location;
            fd_Kind := StringKind; fd_IsList := true;
            fd_HasOptionalKeyword := false; fd_HasPresence := false;
            fd_Enum := no_enum; fd_Message := ""; fd_MapValue := None |} ];
     msg_Oneofs := [] |}.

End Samples.

(** ** Further samples *)

Module MoreSamples.
Import Types Protoreflect.

(** The method and the service of [Samples.health_file]. *)
Definition Check_method : MethodDescriptor :=
  {| method_Name := "Check"; method_Location := no_location;
     method_Input := "grpc.health.v1.HealthCheckRequest";
     method_Output := "grpc.health.v1.HealthCheckResponse";
     method_IsStreamingClient := false;
     method_IsStreamingServer := false |}.

Definition Health_service : ServiceDescriptor :=
  {| service_FullName := "grpc.health.v1.Health";
     service_Location := no_location;
     service_Methods := [Check_method] |}.

(** A fresh reflection client after one lookup of the hello service
    against the hello backend. *)
Definition cached_client : Reflection.reflectionClient :=
  snd (Reflection.getFileDescriptorBySymbol Samples.hello_backend
         Reflection.NewReflectionClient "hello.HelloService").

(** A manager that holds [Samples.dialing_channel]. *)
Definition dialing_manager : Connection.connectionManager :=
  {| Connection.conn := Some Samples.dialing_channel |}.

End MoreSamples.

(** * Vocabulary of the statements *)

Section Vocabulary.
Import Types Protoreflect.

(** A slice grown from the nil slice by [append] alone is nil exactly when
    it has no element. *)
Definition grown {A : Type} (s : Slice.slice A) : Prop :=
  Slice.is_nil s = true <-> Slice.elems s = [].

(** An occurrence of the byte [c] in [s]. *)
Fixpoint occurs (c : ascii) (s : string) : bool :=
  match s with
  | EmptyString => false
  | String c' s' => Ascii.eqb c' c || occurs c s'
  end.

(** What the tool-name derivation does to one byte of the full name. *)
Definition tool_byte (c : ascii) : ascii :=
  if Ascii.eqb c "." then "_"%char else Strs.lower_byte c.

(** A record of the offline path: built by [methodInfo_of] from a method
    of a service of a registered file. *)
Definition offline_record (files : list FileDescriptor) (m : MethodInfo)
  : Prop :=
  exists fd svc md,
    In fd files /\ In svc (file_Services fd) /\ In md (service_Methods svc) /\
    m = Descriptors.methodInfo_of
          (Descriptors.extractServiceNameForCompatibility (service_FullName svc))
          (Descriptors.extractComments (service_Location svc)) svc md.

(** A record of the reflection path: built by
    [createMethodInfoWithServiceContext] for a method of a service whose
    full name survived [filterInternalServices]. *)
Definition reflection_record (B : Reflection.Backend)
    (serviceNames : list string) (m : MethodInfo)
  : Prop :=
  exists fd svc method,
    In svc (Reflection.fp_Service fd) /\
    In method (Reflection.sp_Method svc) /\
    In (Reflection.fullServiceName fd svc)
       (Reflection.filterInternalServices serviceNames) /\
    Reflection.createMethodInfoWithServiceContext B
      (Reflection.fullServiceName fd svc) method fd = Ok m.

(** Every service of the registry has a name.  [protodesc.NewFile] accepts
    no declaration with an empty name, so the registries [BuildRegistry]
    returns are of this kind. *)
Definition services_named (files : list FileDescriptor) : bool :=
  forallb (fun fd =>
             forallb (fun svc => negb (String.eqb (service_FullName svc) ""))
               (file_Services fd))
    files.

Definition loader_names_services (d : Discovery.serviceDiscoverer) : Prop :=
  forall fdSet files,
    Discovery.LoadFromFile (Discovery.descriptorLoader d)
      (Discovery.Path (Discovery.descriptorConfig d)) = Ok fdSet ->
    Discovery.BuildRegistry (Discovery.descriptorLoader d) fdSet = Ok files ->
    services_named files = true.

(** A record with a dotted full name whose tool name was derived from it. *)
Definition well_named (m : MethodInfo) : Prop :=
  ToolName m = GenerateToolName m /\ occurs "." (FullName m) = true.

(** What the wait of the probe finds: the channel is ready at the instant
    it leaves the state it was probed in. *)
Definition ready_at_first_change (c : Connection.ClientConn)
    (src : Connection.State) (W : nat) : Prop :=
  exists t,
    (t <= W)%nat /\
    (forall u, (u < t)%nat -> Connection.state_at c u = src) /\
    Connection.state_at c t = Connection.Ready.

(** A recursive call that hands [visited] back as it got it, and that
    returns no error. *)
Definition restores (rec : MessageDescriptor -> Tools.step json) : Prop :=
  forall m v r v', rec m v = Some (r, v') -> v' = v /\ exists s, r = Ok s.

(** What [field.Message()] returns is a message of the pool, or has no
    field and no oneof. *)
Definition pooled (pool : list MessageDescriptor) (m : MessageDescriptor)
  : Prop :=
  msg_FullName m ∈ Tools.pool_names pool \/
  (msg_Fields m = [] /\ msg_Oneofs m = []).

(** [rec'] answers as [rec] does wherever [rec] answers. *)
Definition extends (rec rec' : MessageDescriptor -> Tools.step json) : Prop :=
  forall m v x, rec m v = Some x -> rec' m v = Some x.

(** The names listed under [required] in a schema. *)
Definition required_of (schema : json) : list string :=
  match jfield "required" schema with
  | Some (JArr items) =>
      flat_map (fun j => match j with JStr s => [s] | _ => [] end) items
  | _ => []
  end.

(** The names of the properties of a schema. *)
Definition properties_of (schema : json) : list string :=
  match jfield "properties" schema with
  | Some (JObj members) => map fst members
  | _ => []
  end.

(** The descriptor whose kind decides the schema of a field: the field
    itself for a list, the map value for a map, the field itself otherwise. *)
Definition type_carrier (f : Protoreflect.FieldDescriptor)
  : Protoreflect.FieldDescriptor :=
  if Protoreflect.fd_IsList f then f
  else match Protoreflect.fd_MapValue f with
       | Some valueField => valueField
       | None => f
       end.

(** The kinds [extractFieldTypeSchemaInternal] has a case for: all but the
    group kind. *)
Definition supported (f : Protoreflect.FieldDescriptor) : bool :=
  match Protoreflect.fd_Kind (type_carrier f) with
  | Protoreflect.GroupKind => false
  | _ => true
  end.

(** The fields [fields_loop] lists as required. *)
Definition listed (f : Protoreflect.FieldDescriptor) : bool :=
  supported f &&
  negb (Protoreflect.fd_HasOptionalKeyword f || Protoreflect.fd_HasPresence f).

End Vocabulary.

(** The kinds whose schema is a fixed scalar schema. *)
Definition scalar_kind (k : Protoreflect.Kind) : bool :=
  match k with
  | Protoreflect.EnumKind | Protoreflect.MessageKind
  | Protoreflect.GroupKind => false
  | _ => true
  end.

(** The field [f] with other comments. *)
Definition with_Location (f : Protoreflect.FieldDescriptor)
    (loc : Types.SourceLocation) : Protoreflect.FieldDescriptor :=
  Protoreflect.mkField (Protoreflect.fd_Name f) loc (Protoreflect.fd_Kind f)
    (Protoreflect.fd_IsList f) (Protoreflect.fd_HasOptionalKeyword f)
    (Protoreflect.fd_HasPresence f) (Protoreflect.fd_Enum f)
    (Protoreflect.fd_Message f) (Protoreflect.fd_MapValue f).

(** The discoverer and the connection manager after the first [k] turns of
    a reconnect, none of which ended the loop. *)
Fixpoint after_turns (turns : nat -> Lifecycle.Turn) (k : nat)
    (d : Discovery.serviceDiscoverer) (cm : Connection.connectionManager)
  : Discovery.serviceDiscoverer * Connection.connectionManager :=
  match k with
  | O => (d, cm)
  | S k' =>
      let '(d1, cm1) := after_turns turns k' d cm in
      let '(_, d2, cm2) := Lifecycle.attempt (turns k') d1 cm1 in
      (d2, cm2)
  end.

(** The comment a schema carries under [description]. *)
Definition description_of (loc : Types.SourceLocation) : option json :=
  if String.eqb (Tools.extractComments loc) "" then None
  else Some (JStr (Tools.extractComments loc)).

(** * Properties *)

(** ** Loops and slices *)

Lemma fold_left_invariant {A B : Type} (f : A -> B -> A) (P : A -> Prop)
    (l : list B) (a : A) :
  P a -> (forall a b, P a -> In b l -> P (f a b)) -> P (fold_left f l a).
Proof.
  revert a. induction l as [|b l IH]; intros a Ha Hstep; simpl.
  - exact Ha.
  - apply IH.
    + apply Hstep; [exact Ha | now left].
    + intros a' b' Ha' Hb'. apply Hstep; [exact Ha' | now right].
Qed.

Lemma elems_append {A : Type} (s : Slice.slice A) (xs : list A) :
  Slice.elems (Slice.append s xs) = Slice.elems s ++ xs.
Proof.
  destruct s as [l|], xs as [|x xs]; simpl; try reflexivity.
Qed.

Lemma is_nil_elems {A : Type} (s : Slice.slice A) :
  Slice.is_nil s = true -> Slice.elems s = [].
Proof. destruct s; simpl; [discriminate | reflexivity]. Qed.

Lemma grown_nil {A : Type} : grown (@Slice.nil A).
Proof. unfold grown; simpl; tauto. Qed.

Lemma grown_append {A : Type} (s : Slice.slice A) (xs : list A) :
  grown s -> grown (Slice.append s xs).
Proof.
  unfold grown. destruct s as [l|], xs as [|x xs]; simpl; intros [H1 H2];
    split; intros H; try reflexivity; try discriminate; try tauto.
  - apply app_eq_nil in H as [-> _]. now apply H2.
  - apply app_eq_nil in H as [_ H]. discriminate.
Qed.

(** ** Strings *)

Lemma map_bytes_length (f : ascii -> ascii) (s : string) :
  String.length (Strs.map_bytes f s) = String.length s.
Proof. induction s; simpl; congruence. Qed.

Lemma map_bytes_get (f : ascii -> ascii) (s : string) (i : nat) :
  String.get i (Strs.map_bytes f s) = option_map f (String.get i s).
Proof.
  revert i. induction s as [|c s IH]; intros [|i]; simpl; auto.
Qed.

Lemma map_bytes_map_bytes (f g : ascii -> ascii) (s : string) :
  Strs.map_bytes g (Strs.map_bytes f s) = Strs.map_bytes (fun c => g (f c)) s.
Proof. induction s; simpl; congruence. Qed.

Lemma HasPrefix_byte (c : ascii) (s : string) :
  Strs.HasPrefix s (String c "") =
  match s with EmptyString => false | String c' _ => Ascii.eqb c' c end.
Proof.
  unfold Strs.HasPrefix. destruct s as [|c' s]; simpl; [reflexivity|].
  destruct (ascii_dec c c') as [->|Hne].
  - rewrite Ascii.eqb_refl. destruct s; reflexivity.
  - symmetry. apply Ascii.eqb_neq. congruence.
Qed.

Lemma Contains_byte (c : ascii) (s : string) :
  Strs.Contains s (String c "") = occurs c s.
Proof.
  induction s as [|c' s IH].
  - reflexivity.
  - cbn [Strs.Contains occurs]. rewrite HasPrefix_byte, IH. reflexivity.
Qed.

Lemma occurs_app (c : ascii) (s t : string) :
  occurs c (s +:+ t) = occurs c s || occurs c t.
Proof.
  induction s as [|c' s IH]; simpl; [reflexivity|].
  rewrite IH. apply orb_assoc.
Qed.

Lemma occurs_map_bytes (f : ascii -> ascii) (c d : ascii) (s : string) :
  f c = d -> occurs c s = true -> occurs d (Strs.map_bytes f s) = true.
Proof.
  intros Hf. induction s as [|c' s IH]; simpl; [discriminate|].
  intros H. apply orb_true_iff in H as [H|H].
  - apply Ascii.eqb_eq in H. subst c'. rewrite Hf, Ascii.eqb_refl. reflexivity.
  - rewrite (IH H). apply orb_true_r.
Qed.

Lemma map_bytes_ext (f g : ascii -> ascii) (s : string) :
  (forall c, f c = g c) -> Strs.map_bytes f s = Strs.map_bytes g s.
Proof. intros H. induction s; simpl; congruence. Qed.

Lemma lower_then_replace (c : ascii) :
  (if Ascii.eqb (Strs.lower_byte c) "." then "_"%char else Strs.lower_byte c)
  = tool_byte c.
Proof.
  destruct c as [b0 b1 b2 b3 b4 b5 b6 b7].
  destruct b0, b1, b2, b3, b4, b5, b6, b7; reflexivity.
Qed.

Lemma GenerateToolName_bytes (m : Types.MethodInfo) :
  Types.GenerateToolName m = Strs.map_bytes tool_byte (Types.FullName m).
Proof.
  unfold Types.GenerateToolName, Strs.ReplaceAllByte, Strs.ToLower.
  rewrite map_bytes_map_bytes. apply map_bytes_ext, lower_then_replace.
Qed.

Lemma GenerateToolName_underscore (m : Types.MethodInfo) :
  occurs "." (Types.FullName m) = true ->
  Strs.Contains (Types.GenerateToolName m) "_" = true.
Proof.
  intros H. rewrite Contains_byte, GenerateToolName_bytes.
  now apply (occurs_map_bytes tool_byte "."%char).
Qed.

Lemma occurs_dotted (a b : string) : occurs "." (a +:+ "." +:+ b) = true.
Proof. rewrite !occurs_app. simpl. apply orb_true_r. Qed.

(** ** Where the records of a catalog come from *)

Section Provenance.
Import Types Protoreflect.
Variable B : Reflection.Backend.

Lemma extract_service_elems (methods : Slice.slice MethodInfo)
    (svc : ServiceDescriptor) :
  Slice.elems (Descriptors.extract_service methods svc) =
  Slice.elems methods ++
  map (Descriptors.methodInfo_of
         (Descriptors.extractServiceNameForCompatibility (service_FullName svc))
         (Descriptors.extractComments (service_Location svc)) svc)
      (service_Methods svc).
Proof.
  unfold Descriptors.extract_service.
  generalize (Descriptors.methodInfo_of
         (Descriptors.extractServiceNameForCompatibility (service_FullName svc))
         (Descriptors.extractComments (service_Location svc)) svc) as mk.
  intros mk. revert methods.
  induction (service_Methods svc) as [|md mds IH]; intros methods; simpl.
  - now rewrite app_nil_r.
  - rewrite IH, elems_append, <- app_assoc. reflexivity.
Qed.

Lemma ExtractMethodInfo_elems (files : list FileDescriptor)
    (methods : Slice.slice MethodInfo) (m : MethodInfo) :
  Descriptors.ExtractMethodInfo files = Ok methods ->
  In m (Slice.elems methods) -> offline_record files m.
Proof.
  unfold Descriptors.ExtractMethodInfo. intros [= <-]. revert m.
  apply (fold_left_invariant _
           (fun ms => forall m, In m (Slice.elems ms) -> offline_record files m)).
  - intros m [].
  - intros ms fd IHms Hfd.
    apply (fold_left_invariant _
             (fun ms => forall m, In m (Slice.elems ms) -> offline_record files m)).
    + exact IHms.
    + intros ms' svc IHms' Hsvc m. rewrite extract_service_elems.
      intros Hm. apply in_app_or in Hm as [Hm|Hm]; [now apply IHms'|].
      apply in_map_iff in Hm as (md & <- & Hmd).
      exists fd, svc, md. auto.
Qed.

Lemma ExtractMethodInfo_grown (files : list FileDescriptor)
    (methods : Slice.slice MethodInfo) :
  Descriptors.ExtractMethodInfo files = Ok methods -> grown methods.
Proof.
  unfold Descriptors.ExtractMethodInfo. intros [= <-].
  apply (fold_left_invariant _ grown); [apply grown_nil|].
  intros ms fd Hms _.
  apply (fold_left_invariant _ grown); [exact Hms|].
  intros ms' svc Hms' _. unfold Descriptors.extract_service.
  apply (fold_left_invariant _ grown); [exact Hms'|].
  intros ms'' md Hms'' _. now apply grown_append.
Qed.

Lemma extractMethodsFromFileDescriptor_elems
    (fd : Reflection.FileDescriptorProto) (serviceNames : list string)
    (m : MethodInfo) :
  In m (Slice.elems
          (Reflection.extractMethodsFromFileDescriptor B fd
             (Reflection.filterInternalServices serviceNames))) ->
  reflection_record B serviceNames m.
Proof.
  unfold Reflection.extractMethodsFromFileDescriptor. revert m.
  apply (fold_left_invariant _
           (fun ms => forall m, In m (Slice.elems ms) ->
                                reflection_record B serviceNames m)).
  - intros m [].
  - intros ms svc IHms Hsvc. case_bool_decide as Hin; [|exact IHms].
    apply elem_of_list_to_set, list_elem_of_In in Hin.
    apply (fold_left_invariant _
             (fun ms => forall m, In m (Slice.elems ms) ->
                                  reflection_record B serviceNames m)).
    + exact IHms.
    + intros ms' method IHms' Hmethod m.
      destruct (Reflection.createMethodInfoWithServiceContext B
                  (Reflection.fullServiceName fd svc) method fd) as [mi|e] eqn:E.
      * rewrite elems_append. intros Hm.
        apply in_app_or in Hm as [Hm|[<-|[]]]; [now apply IHms'|].
        exists fd, svc, method. auto.
      * apply IHms'.
Qed.

Lemma DiscoverMethods_elems (r r' : Reflection.reflectionClient)
    (methods : Slice.slice MethodInfo) (m : MethodInfo) :
  Reflection.DiscoverMethods B r = (Ok methods, r') ->
  In m (Slice.elems methods) ->
  exists serviceNames,
    Reflection.listServices_reply B (Reflection.sent r) = Ok serviceNames /\
    reflection_record B serviceNames m.
Proof.
  unfold Reflection.DiscoverMethods, Reflection.listServices.
  destruct (Reflection.listServices_reply B (Reflection.sent r))
    as [serviceNames|e] eqn:E; [|discriminate].
  destruct (Reflection.collect_files B _ _) as [fileDescriptorMap r2].
  intros [= <- <-] Hm. exists serviceNames. split; [reflexivity|].
  revert m Hm.
  apply (fold_left_invariant _
           (fun ms => forall m, In m (Slice.elems ms) ->
                                reflection_record B serviceNames m)).
  - intros m [].
  - intros ms [fileName fd] IHms _ m. rewrite elems_append.
    intros Hm. apply in_app_or in Hm as [Hm|Hm]; [now apply IHms|].
    now apply extractMethodsFromFileDescriptor_elems in Hm.
Qed.

Lemma createMethodInfo_fields (serviceName : string)
    (method : Reflection.MethodDescriptorProto)
    (fd : Reflection.FileDescriptorProto) (m : MethodInfo) :
  Reflection.createMethodInfoWithServiceContext B serviceName method fd = Ok m ->
  Name m = Reflection.mp_Name method /\
  FullName m = serviceName +:+ "." +:+ Reflection.mp_Name method /\
  ServiceName m = serviceName /\
  ToolName m = GenerateToolName m.
Proof.
  unfold Reflection.createMethodInfoWithServiceContext.
  destruct (Reflection.resolveMessageDescriptor B _ fd); [|discriminate].
  destruct (Reflection.resolveMessageDescriptor B _ fd); [|discriminate].
  intros [= <-]. simpl. auto.
Qed.

(** The catalog holds each record under its own tool name, and holds
    nothing but records of the list it was built from. *)
Lemma build_tools_lookup (methods : list MethodInfo) (t : string)
    (m : MethodInfo) :
  Discovery.build_tools methods !! t = Some m ->
  In m methods /\ ToolName m = t.
Proof.
  unfold Discovery.build_tools.
  assert (forall (l : list MethodInfo) (acc : gmap string MethodInfo),
             (forall t m, acc !! t = Some m -> In m methods /\ ToolName m = t) ->
             (forall m, In m l -> In m methods) ->
             forall t m,
               fold_left (fun tools method => <[ToolName method := method]> tools)
                 l acc !! t = Some m ->
               In m methods /\ ToolName m = t) as H.
  { induction l as [|x l IH]; intros acc Hacc Hl t' m'; simpl.
    - apply Hacc.
    - apply IH.
      + intros t0 m0. rewrite lookup_insert. case_decide as Hd.
        * intros [= <-]. split; [apply Hl; now left | exact Hd].
        * apply Hacc.
      + intros m0 Hm0. apply Hl. now right. }
  apply H; [|auto]. intros t0 m0. rewrite lookup_empty. discriminate.
Qed.

End Provenance.

(** ** The catalog published by a discovery round *)

Section Catalog.
Import Types Protoreflect.
Variable B : Reflection.Backend.

Lemma offline_record_well_named (files : list FileDescriptor) (m : MethodInfo) :
  services_named files = true -> offline_record files m -> well_named m.
Proof.
  intros Hnamed (fd & svc & md & Hfd & Hsvc & Hmd & ->).
  split; [reflexivity|]. simpl.
  unfold services_named in Hnamed. rewrite forallb_forall in Hnamed.
  specialize (Hnamed fd Hfd). rewrite forallb_forall in Hnamed.
  specialize (Hnamed svc Hsvc).
  unfold method_FullName, FullName_Append.
  destruct (String.eqb (service_FullName svc) ""); [discriminate|].
  apply occurs_dotted.
Qed.

Lemma reflection_record_well_named (serviceNames : list string)
    (m : MethodInfo) :
  reflection_record B serviceNames m -> well_named m.
Proof.
  intros (fd & svc & method & _ & _ & _ & Hm).
  apply createMethodInfo_fields in Hm as (_ & Hfull & _ & Htool).
  split; [exact Htool|]. rewrite Hfull. apply occurs_dotted.
Qed.

Lemma offline_methods_elems (d : Discovery.serviceDiscoverer) (m : MethodInfo) :
  In m (Slice.elems (Discovery.offline_methods d)) ->
  exists fdSet files,
    Discovery.LoadFromFile (Discovery.descriptorLoader d)
      (Discovery.Path (Discovery.descriptorConfig d)) = Ok fdSet /\
    Discovery.BuildRegistry (Discovery.descriptorLoader d) fdSet = Ok files /\
    offline_record files m.
Proof.
  unfold Discovery.offline_methods, Discovery.discoverFromFileDescriptor.
  destruct (_ && _); [|intros []].
  destruct (Discovery.LoadFromFile _ _) as [fdSet|e] eqn:El; [|intros []].
  destruct (Discovery.BuildRegistry _ fdSet) as [files|e] eqn:Eb; [|intros []].
  destruct (Descriptors.ExtractMethodInfo files) as [methods|e] eqn:E;
    [|intros []].
  intros Hm. exists fdSet, files.
  split; [reflexivity|]. split; [exact Eb|].
  eapply ExtractMethodInfo_elems; eauto.
Qed.

(** The records of the catalog after a successful round, by the path that
    produced them. *)
Lemma DiscoverServices_catalog (d d' : Discovery.serviceDiscoverer)
    (cat : gmap string MethodInfo) (t : string) (m : MethodInfo) :
  Discovery.DiscoverServices B d = (Ok tt, d') ->
  Discovery.tools d' = Some cat -> cat !! t = Some m ->
  ToolName m = t /\
  (In m (Slice.elems (Discovery.offline_methods d)) \/
   exists r serviceNames,
     Discovery.reflectionClient d = Some r /\
     Slice.is_nil (Discovery.offline_methods d) = true /\
     Reflection.listServices_reply B (Reflection.sent r) = Ok serviceNames /\
     reflection_record B serviceNames m).
Proof.
  unfold Discovery.DiscoverServices.
  destruct (Discovery.reflectionClient d) as [r|] eqn:Hr; [|discriminate].
  destruct (Slice.is_nil (Discovery.offline_methods d)) eqn:Hnil.
  - unfold Discovery.discoverFromReflection.
    destruct (Reflection.DiscoverMethods B r) as [[methods|e] r'] eqn:E;
      [|discriminate].
    intros [= <-]. simpl. intros [= <-] Hm.
    apply build_tools_lookup in Hm as [Hm Ht]. split; [exact Ht|]. right.
    destruct (DiscoverMethods_elems B r r' methods m E Hm) as (names & Hn & Hrec).
    exists r, names. auto.
  - intros [= <-]. simpl. intros [= <-] Hm.
    apply build_tools_lookup in Hm as [Hm Ht]. auto.
Qed.

End Catalog.

(** C1.  After a successful discovery round, every record of the catalog is
    stored under its tool name; the tool name is the fully-qualified name of
    the method, lowercased, with every dot replaced by an underscore (byte
    by byte: a dot becomes an underscore, any other byte its lower-case
    form); and it contains an underscore.  Tool construction rejects a tool
    whose name contains no underscore: [validateTool] returns an error for
    it, and a tool that [BuildTool] returns carries the derived name, with an
    underscore in it. *)
Theorem tool_identifier_derivation (B : Reflection.Backend)
    (d d' : Discovery.serviceDiscoverer)
    (cat : gmap string Types.MethodInfo) (t : string) (m : Types.MethodInfo) :
  loader_names_services d ->
  Discovery.DiscoverServices B d = (Ok tt, d') ->
  Discovery.tools d' = Some cat -> cat !! t = Some m ->
  (t = Types.ToolName m /\
   Types.ToolName m =
     Strs.ReplaceAllByte (Strs.ToLower (Types.FullName m)) "." "_" /\
   String.length (Types.ToolName m) = String.length (Types.FullName m) /\
   (forall i, String.get i (Types.ToolName m) =
              option_map tool_byte (String.get i (Types.FullName m))) /\
   Strs.Contains (Types.ToolName m) "_" = true) /\
  (forall tool, Strs.Contains (Tools.tool_Name tool) "_" = false ->
                exists e, Tools.validateTool tool = Some e) /\
  (forall pool method tool,
      Tools.BuildTool pool method = Some (Ok tool) ->
      Tools.tool_Name tool = Types.GenerateToolName method /\
      Strs.Contains (Tools.tool_Name tool) "_" = true).
Proof.
  intros Hloader Hround Hcat Hm. split; [|split].
  - destruct (DiscoverServices_catalog B d d' cat t m Hround Hcat Hm)
      as [Ht Hsrc].
    assert (well_named m) as [Htool Hdot].
    { destruct Hsrc as [Hoff|(r & names & _ & _ & _ & Hrec)].
      - apply offline_methods_elems in Hoff as (fdSet & files & Hl & Hb & Hrec).
        eapply offline_record_well_named; eauto.
      - eapply reflection_record_well_named; eauto. }
    split; [now symmetry|]. split; [exact Htool|].
    rewrite Htool, GenerateToolName_bytes.
    split; [apply map_bytes_length|]. split; [intros i; apply map_bytes_get|].
    rewrite <- GenerateToolName_bytes. now apply GenerateToolName_underscore.
  - intros tool Hno. unfold Tools.validateTool.
    destruct (String.eqb (Tools.tool_Name tool) ""); [eauto|].
    destruct (String.eqb (Tools.tool_Description tool) ""); [eauto|].
    destruct (Tools.tool_InputSchema tool); [|eauto].
    rewrite Hno. simpl. eauto.
  - intros pool method tool. unfold Tools.BuildTool.
    destruct (Tools.ExtractMessageSchema pool _) as [[inputSchema|e]|];
      try discriminate.
    destruct (Tools.ExtractMessageSchema pool _) as [[outputSchema|e]|];
      try discriminate.
    destruct (Tools.validateTool _) as [e|] eqn:Hv; [discriminate|].
    intros [= <-]. simpl. split; [reflexivity|].
    unfold Tools.validateTool in Hv. simpl in Hv.
    destruct (String.eqb (Types.GenerateToolName method) ""); [discriminate|].
    destruct (String.eqb (Tools.generateDescription method) ""); [discriminate|].
    destruct (Strs.Contains (Types.GenerateToolName method) "_");
      [reflexivity | discriminate].
Qed.

Lemma tool_identifier_derivation_witness :
  "hello_helloservice_sayhello" = Types.ToolName Samples.SayHello_info /\
  Types.ToolName Samples.SayHello_info =
    Strs.ReplaceAllByte
      (Strs.ToLower (Types.FullName Samples.SayHello_info)) "." "_" /\
  String.length (Types.ToolName Samples.SayHello_info) =
    String.length (Types.FullName Samples.SayHello_info) /\
  (forall i, String.get i (Types.ToolName Samples.SayHello_info) =
             option_map tool_byte
               (String.get i (Types.FullName Samples.SayHello_info))) /\
  Strs.Contains (Types.ToolName Samples.SayHello_info) "_" = true.
Proof.
  apply (tool_identifier_derivation Samples.hello_backend
           Samples.offline_discoverer
           (snd (Discovery.DiscoverServices Samples.hello_backend
                   Samples.offline_discoverer))
           (Discovery.build_tools [Samples.SayHello_info])
           "hello_helloservice_sayhello" Samples.SayHello_info).
  - intros fdSet files _ Hfiles. simpl in Hfiles.
    injection Hfiles as <-. reflexivity.
  - vm_compute. reflexivity.
  - vm_compute. reflexivity.
  - vm_compute. reflexivity.
Defined.

(** ** Failed discovery rounds *)

(** C10.  When [DiscoverServices] returns an error, the tools pointer holds
    what it held before, so [GetMethods] and the lookup of a tool answer as
    before the round.  A round fails only when the discoverer is not
    connected or when the offline path gave no methods and the reflection
    path failed. *)
Theorem failed_discovery_keeps_catalog (B : Reflection.Backend)
    (d d' : Discovery.serviceDiscoverer) (e : error) :
  Discovery.DiscoverServices B d = (Err e, d') ->
  Discovery.tools d' = Discovery.tools d /\
  Discovery.GetMethods d' = Discovery.GetMethods d /\
  (forall toolName,
      Discovery.getMethodByTool d' toolName = Discovery.getMethodByTool d toolName) /\
  (Discovery.reflectionClient d = None \/
   exists r e' r',
     Discovery.reflectionClient d = Some r /\
     Slice.is_nil (Discovery.offline_methods d) = true /\
     Discovery.discoverFromReflection B r = (Err e', r')).
Proof.
  unfold Discovery.DiscoverServices. intros H.
  assert (Discovery.tools d' = Discovery.tools d /\
          (Discovery.reflectionClient d = None \/
           exists r e' r',
             Discovery.reflectionClient d = Some r /\
             Slice.is_nil (Discovery.offline_methods d) = true /\
             Discovery.discoverFromReflection B r = (Err e', r'))) as [Ht Hc].
  { destruct (Discovery.reflectionClient d) as [r|] eqn:Hr.
    - destruct (Slice.is_nil (Discovery.offline_methods d)) eqn:Hnil;
        [|discriminate].
      destruct (Discovery.discoverFromReflection B r) as [[ms|e'] r'] eqn:E;
        [discriminate|].
      injection H as <- <-. split; [reflexivity|]. right.
      exists r, e', r'. auto.
    - injection H as <- <-. auto. }
  unfold Discovery.GetMethods, Discovery.getMethodByTool. rewrite Ht. auto.
Qed.

Lemma failed_discovery_keeps_catalog_witness :
  Discovery.tools
    (snd (Discovery.DiscoverServices Samples.silent_backend
            Samples.stale_discoverer))
  = Discovery.tools Samples.stale_discoverer.
Proof.
  eapply proj1.
  eapply (failed_discovery_keeps_catalog Samples.silent_backend
            Samples.stale_discoverer).
  vm_compute. reflexivity.
Defined.

(** ** The last dot of a full name *)

Lemma LastIndex_lower_bound (s sub : string) : (-1 <= Strs.LastIndex s sub)%Z.
Proof.
  induction s as [|c s IH]; cbn [Strs.LastIndex].
  - destruct (Strs.HasPrefix "" sub); lia.
  - destruct (0 <=? Strs.LastIndex s sub)%Z eqn:E.
    + apply Z.leb_le in E. lia.
    + destruct (Strs.HasPrefix (String c s) sub); lia.
Qed.

Lemma LastIndex_dot_absent (s : string) :
  (Strs.LastIndex s "." < 0)%Z <-> occurs "." s = false.
Proof.
  induction s as [|c s IH].
  - simpl. split; [reflexivity | lia].
  - cbn [Strs.LastIndex occurs]. rewrite HasPrefix_byte.
    pose proof (LastIndex_lower_bound s ".") as Hlb.
    destruct (0 <=? Strs.LastIndex s ".")%Z eqn:E.
    + apply Z.leb_le in E. split; [lia|].
      intros H. apply orb_false_iff in H as [_ H]. apply IH in H. lia.
    + apply Z.leb_gt in E. apply IH in E. rewrite E, orb_false_r.
      destruct (Ascii.eqb c "."); split; intros; (reflexivity || lia || discriminate).
Qed.

Lemma substring_app_prefix (a b : string) :
  String.substring 0 (String.length a) (a +:+ b) = a.
Proof.
  induction a as [|c a IH]; simpl.
  - destruct b; reflexivity.
  - now rewrite IH.
Qed.

Lemma LastIndex_dot_app (svc rest : string) :
  occurs "." rest = false ->
  Strs.LastIndex (svc +:+ "." +:+ rest) "." = Z.of_nat (String.length svc).
Proof.
  intros Hrest. induction svc as [|c svc IH].
  - change ("" +:+ "." +:+ rest) with (String "." rest).
    cbn [Strs.LastIndex]. rewrite HasPrefix_byte.
    apply LastIndex_dot_absent in Hrest.
    destruct (0 <=? Strs.LastIndex rest ".")%Z eqn:E;
      [apply Z.leb_le in E; lia | reflexivity].
  - change (String c svc +:+ "." +:+ rest)
      with (String c (svc +:+ "." +:+ rest)).
    cbn [Strs.LastIndex]. rewrite IH.
    destruct (0 <=? Z.of_nat (String.length svc))%Z eqn:E.
    + cbn [String.length]. lia.
    + apply Z.leb_gt in E. lia.
Qed.

Lemma LastIndex_dot_split (s : string) :
  (0 <= Strs.LastIndex s ".")%Z ->
  exists svc rest,
    s = svc +:+ "." +:+ rest /\ occurs "." rest = false /\
    Strs.LastIndex s "." = Z.of_nat (String.length svc).
Proof.
  induction s as [|c s IH].
  - simpl. lia.
  - cbn [Strs.LastIndex]. rewrite HasPrefix_byte.
    destruct (0 <=? Strs.LastIndex s ".")%Z eqn:E.
    + apply Z.leb_le in E. intros _.
      destruct (IH E) as (svc & rest & Hs & Hrest & Hidx).
      exists (String c svc), rest. split; [|split].
      * rewrite Hs at 1. reflexivity.
      * exact Hrest.
      * rewrite Hidx. cbn [String.length]. lia.
    + apply Z.leb_gt in E. apply LastIndex_dot_absent in E.
      destruct (Ascii.eqb c ".") eqn:Ec; [|lia]. intros _.
      apply Ascii.eqb_eq in Ec. subst c.
      exists "", s. auto.
Qed.

(** The method path is defined exactly when the full name has a dot, and is
    then built from the part before the last dot. *)
Lemma grpcMethodName_spec (method : Types.MethodInfo) (path : string) :
  Reflection.grpcMethodName method = Some path <->
  exists svc rest,
    Types.FullName method = svc +:+ "." +:+ rest /\ occurs "." rest = false /\
    path = "/" +:+ svc +:+ "/" +:+ Types.Name method.
Proof.
  unfold Reflection.grpcMethodName, Strs.slice_to. split.
  - destruct (0 <=? Strs.LastIndex (Types.FullName method) ".")%Z eqn:E;
      [|discriminate].
    apply Z.leb_le in E.
    destruct (LastIndex_dot_split _ E) as (svc & rest & Hs & Hrest & Hidx).
    rewrite Hidx, Nat2Z.id.
    destruct (_ <=? _)%Z; [|discriminate]. simpl.
    intros [= <-]. exists svc, rest. split; [exact Hs|]. split; [exact Hrest|].
    rewrite Hs at 1. now rewrite substring_app_prefix.
  - intros (svc & rest & Hs & Hrest & ->).
    rewrite Hs, (LastIndex_dot_app svc rest Hrest), Nat2Z.id.
    rewrite substring_app_prefix.
    assert (String.length svc <= String.length (svc +:+ "." +:+ rest))%nat as Hle.
    { clear. induction svc; simpl; lia. }
    destruct (0 <=? Z.of_nat (String.length svc))%Z eqn:E1;
      [|apply Z.leb_gt in E1; lia].
    destruct (Z.of_nat (String.length svc) <=?
              Z.of_nat (String.length (svc +:+ "." +:+ rest)))%Z eqn:E2;
      [reflexivity | apply Z.leb_gt in E2; lia].
Qed.

(** ** Invocation *)

Lemma parse_guard_spec (inputJSON : string) :
  negb (String.eqb inputJSON "") && negb (String.eqb inputJSON "{}") = true <->
  inputJSON <> "" /\ inputJSON <> "{}".
Proof.
  rewrite andb_true_iff, !negb_true_iff.
  split; intros [H1 H2]; split; now apply String.eqb_neq.
Qed.

(** An invocation sends nothing, or one unary call with the given headers. *)
Lemma InvokeMethod_sent (B : Reflection.Backend) (r r' : Reflection.reflectionClient)
    (headers : list (string * string)) (method : Types.MethodInfo)
    (inputJSON : string) (out : option (result string)) :
  Reflection.InvokeMethod B r headers method inputJSON = (out, r') ->
  (r' = r /\
   ((exists e, out = Some (Err (Wrapf "failed to parse input JSON" e))) \/
    out = None /\ Reflection.grpcMethodName method = None)) \/
  (exists path input,
      Reflection.grpcMethodName method = Some path /\
      (if negb (String.eqb inputJSON "") && negb (String.eqb inputJSON "{}")
       then Reflection.protojson_Unmarshal B inputJSON
              (Reflection.NewMessage (Types.InputDescriptor method))
       else Ok (Reflection.NewMessage (Types.InputDescriptor method)))
      = Ok input /\
      Reflection.sent r' =
        Reflection.sent r ++ [Reflection.UnaryCall headers path input] /\
      out <> None).
Proof.
  unfold Reflection.InvokeMethod.
  destruct (if negb (String.eqb inputJSON "") && negb (String.eqb inputJSON "{}")
            then _ else _) as [input|e] eqn:Hparsed.
  - destruct (Reflection.grpcMethodName method) as [path|] eqn:Hpath.
    + intros H. right. exists path, input.
      split; [reflexivity|]. split; [reflexivity|].
      destruct (Reflection.unary_reply B _ _ _ _) as [outputMsg|e];
        [destruct (Reflection.protojson_Marshal B outputMsg)|];
        injection H as <- <-; split; (reflexivity || discriminate).
    + intros [= <- <-]. left. auto.
  - intros [= <- <-]. left. split; [reflexivity|]. left. eauto.
Qed.

(** C6.  A tool call against a tool whose method is client-streaming or
    server-streaming returns the error that rejects streaming methods, and
    leaves the discoverer as it was: nothing is sent on the connection, so
    no backend call is issued, whether or not a reflection client is in place
    and whatever the input is. *)
Theorem streaming_methods_rejected (B : Reflection.Backend)
    (d : Discovery.serviceDiscoverer) (headers : list (string * string))
    (toolName inputJSON : string) (method : Types.MethodInfo) :
  Discovery.getMethodByTool d toolName = Some method ->
  Types.IsClientStreaming method || Types.IsServerStreaming method = true ->
  Discovery.InvokeMethodByTool B d headers toolName inputJSON =
    (Some (Err (Errorf "streaming methods are not supported")), d) /\
  Discovery.sent_by
    (snd (Discovery.InvokeMethodByTool B d headers toolName inputJSON)) =
  Discovery.sent_by d.
Proof.
  intros Hlookup Hstreaming. unfold Discovery.InvokeMethodByTool.
  rewrite Hlookup, Hstreaming. split; reflexivity.
Qed.

Lemma streaming_methods_rejected_witness :
  Discovery.InvokeMethodByTool Samples.hello_backend Samples.ready_discoverer
    [("x-trace-id", "abc")] "hello_helloservice_watchhello" "{}" =
    (Some (Err (Errorf "streaming methods are not supported")),
     Samples.ready_discoverer).
Proof.
  eapply proj1.
  eapply (streaming_methods_rejected Samples.hello_backend
            Samples.ready_discoverer).
  - vm_compute. reflexivity.
  - vm_compute. reflexivity.
Defined.

(** C7.  Whatever an invocation sends to the backend, it sends to the path
    made of a slash, the full name of the method cut at its last dot, a
    slash, and the simple name of the method.  And when the full name has a
    last dot and the input is not refused by the parser, the invocation does
    send one call, to that path. *)
Theorem method_path_on_the_wire (B : Reflection.Backend)
    (r r' : Reflection.reflectionClient) (headers : list (string * string))
    (method : Types.MethodInfo) (inputJSON : string)
    (out : option (result string)) :
  Reflection.InvokeMethod B r headers method inputJSON = (out, r') ->
  (Reflection.sent r' = Reflection.sent r \/
   exists svc rest input,
     Types.FullName method = svc +:+ "." +:+ rest /\
     occurs "." rest = false /\
     Reflection.sent r' =
       Reflection.sent r ++
       [Reflection.UnaryCall headers
          ("/" +:+ svc +:+ "/" +:+ Types.Name method) input]) /\
  (forall svc rest,
      Types.FullName method = svc +:+ "." +:+ rest ->
      occurs "." rest = false ->
      (forall e, out <> Some (Err (Wrapf "failed to parse input JSON" e))) ->
      exists input,
        Reflection.sent r' =
          Reflection.sent r ++
          [Reflection.UnaryCall headers
             ("/" +:+ svc +:+ "/" +:+ Types.Name method) input]).
Proof.
  intros H. apply InvokeMethod_sent in H
    as [[-> Hout]|(path & input & Hpath & _ & Hsent & _)].
  - split; [now left|]. intros svc rest Hfull Hrest Hparse.
    destruct Hout as [[e ->]|[-> Hpanic]]; [now destruct (Hparse e)|].
    assert (Reflection.grpcMethodName method =
            Some ("/" +:+ svc +:+ "/" +:+ Types.Name method)) as Hsome
      by (apply grpcMethodName_spec; eauto).
    congruence.
  - split.
    + right. apply grpcMethodName_spec in Hpath as (svc & rest & Hf & Hr & ->).
      exists svc, rest, input. auto.
    + intros svc rest Hfull Hrest _.
      assert (Reflection.grpcMethodName method =
              Some ("/" +:+ svc +:+ "/" +:+ Types.Name method)) as Hsome
        by (apply grpcMethodName_spec; eauto).
      exists input. congruence.
Qed.

Lemma method_path_on_the_wire_witness :
  exists input,
    Reflection.sent
      (snd (Reflection.InvokeMethod Samples.hello_backend
              Reflection.NewReflectionClient [("x-trace-id", "abc")]
              Samples.SayHello_info "{}")) =
    [Reflection.UnaryCall [("x-trace-id", "abc")]
       "/hello.HelloService/SayHello" input].
Proof.
  eapply (proj2 (method_path_on_the_wire Samples.hello_backend
                   Reflection.NewReflectionClient _ [("x-trace-id", "abc")]
                   Samples.SayHello_info "{}" (Some (Ok "{}")) _)
            "hello.HelloService" "SayHello").
  - reflexivity.
  - reflexivity.
  - intros e. discriminate.
  Unshelve. vm_compute. reflexivity.
Defined.

(** C8, as amended.  An input that is empty or is the literal of the empty
    object is not parsed: the invocation never fails with the parse error,
    and a call it sends carries the empty input message.  Any other input is
    parsed: a call that is sent carries the parsed message, and when the
    parser refuses the input the invocation returns the error of the parser
    wrapped as a parse failure and the client is as it was, so no backend
    call is issued. *)
Theorem input_json_parsing (B : Reflection.Backend)
    (r r' : Reflection.reflectionClient) (headers : list (string * string))
    (method : Types.MethodInfo) (inputJSON : string)
    (out : option (result string)) :
  Reflection.InvokeMethod B r headers method inputJSON = (out, r') ->
  (inputJSON = "" \/ inputJSON = "{}" ->
   (forall e, out <> Some (Err (Wrapf "failed to parse input JSON" e))) /\
   (forall metadata path input,
       Reflection.sent r' =
         Reflection.sent r ++ [Reflection.UnaryCall metadata path input] ->
       input = Reflection.NewMessage (Types.InputDescriptor method))) /\
  (inputJSON <> "" -> inputJSON <> "{}" ->
   (forall metadata path input,
       Reflection.sent r' =
         Reflection.sent r ++ [Reflection.UnaryCall metadata path input] ->
       Reflection.protojson_Unmarshal B inputJSON
         (Reflection.NewMessage (Types.InputDescriptor method)) = Ok input) /\
   (forall e,
       Reflection.protojson_Unmarshal B inputJSON
         (Reflection.NewMessage (Types.InputDescriptor method)) = Err e ->
       out = Some (Err (Wrapf "failed to parse input JSON" e)) /\ r' = r /\
       Reflection.sent r' = Reflection.sent r)).
Proof.
  intros H. split.
  - intros Hempty.
    assert (negb (String.eqb inputJSON "") && negb (String.eqb inputJSON "{}")
            = false) as Hguard by (destruct Hempty as [-> | ->]; reflexivity).
    pose proof (InvokeMethod_sent _ _ _ _ _ _ _ H) as Hcases.
    unfold Reflection.InvokeMethod in H. rewrite Hguard in H, Hcases.
    split.
    + intros e ->.
      destruct (Reflection.grpcMethodName method); [|discriminate].
      destruct (Reflection.unary_reply B _ _ _ _) as [outputMsg|e'];
        [destruct (Reflection.protojson_Marshal B outputMsg)|]; discriminate.
    + intros metadata path input Hsent.
      destruct Hcases as [[-> _]|(path' & input' & _ & [= <-] & Hsent' & _)].
      * apply (f_equal (@length _)) in Hsent.
        rewrite length_app in Hsent. simpl in Hsent. lia.
      * rewrite Hsent' in Hsent. apply app_inv_head in Hsent.
        now injection Hsent.
  - intros Hne1 Hne2.
    assert (negb (String.eqb inputJSON "") && negb (String.eqb inputJSON "{}")
            = true) as Hguard by (apply parse_guard_spec; auto).
    pose proof (InvokeMethod_sent _ _ _ _ _ _ _ H) as Hcases.
    rewrite Hguard in Hcases. split.
    + intros metadata path input Hsent.
      destruct Hcases as [[-> _]|(path' & input' & _ & Hparsed & Hsent' & _)].
      * apply (f_equal (@length _)) in Hsent.
        rewrite length_app in Hsent. simpl in Hsent. lia.
      * rewrite Hsent' in Hsent. apply app_inv_head in Hsent.
        injection Hsent as _ _ <-. exact Hparsed.
    + intros e He. unfold Reflection.InvokeMethod in H.
      rewrite Hguard, He in H. injection H as <- <-. auto.
Qed.

Lemma input_json_parsing_witness :
  snd (Reflection.InvokeMethod Samples.hello_backend
         Reflection.NewReflectionClient [] Samples.SayHello_info "[]") =
  Reflection.NewReflectionClient.
Proof.
  refine (proj1 (proj2 (proj2 (proj2
            (input_json_parsing Samples.hello_backend
               Reflection.NewReflectionClient _ [] Samples.SayHello_info "[]"
               (fst (Reflection.InvokeMethod Samples.hello_backend
                       Reflection.NewReflectionClient [] Samples.SayHello_info
                       "[]")) _)
            _ _) (Errorf "proto: syntax error") _))).
  - vm_compute. reflexivity.
  - discriminate.
  - discriminate.
  - reflexivity.
Defined.

(** C8, as stated, fails.  The parser of [Samples.hello_backend] refuses the
    input [[]], as [protojson.Unmarshal] refuses an array where an object is
    expected.  The invocation returns the error of the parser wrapped by
    [fmt.Errorf]: an error that is no gRPC status and wraps none, so the
    kind gRPC reads off it is [Unknown], not [InvalidArgument]; the same
    holds for the error the tool call hands on. *)
Theorem parse_failure_is_not_invalid_argument :
  exists e,
    e = Wrapf "failed to parse input JSON" (Errorf "proto: syntax error") /\
    (Reflection.InvokeMethod Samples.hello_backend
       Reflection.NewReflectionClient [] Samples.SayHello_info "[]").1
    = Some (Err e) /\
    status_Code e = Codes.Unknown /\
    status_Code e <> Codes.InvalidArgument /\
    (Discovery.InvokeMethodByTool Samples.hello_backend
       Samples.ready_discoverer [] "hello_helloservice_sayhello" "[]").1
    = Some (Err (Wrapf "failed to invoke method" e)) /\
    status_Code (Wrapf "failed to invoke method" e) <> Codes.InvalidArgument.
Proof.
  eexists. split; [reflexivity|].
  split; [vm_compute; reflexivity|]. split; [reflexivity|].
  split; [discriminate|]. split; [vm_compute; reflexivity | discriminate].
Qed.

(** ** The two discovery paths *)

(** When the offline path yields a slice that is not nil, the round stores
    the catalog built from it and does not touch the reflection client. *)
Lemma offline_methods_used_as_is (B : Reflection.Backend)
    (d : Discovery.serviceDiscoverer) (r : Reflection.reflectionClient) :
  Discovery.reflectionClient d = Some r ->
  Slice.is_nil (Discovery.offline_methods d) = false ->
  Discovery.DiscoverServices B d =
    (Ok tt,
     Discovery.tools_Store d
       (Discovery.build_tools (Slice.elems (Discovery.offline_methods d)))) /\
  Discovery.sent_by (snd (Discovery.DiscoverServices B d)) = Discovery.sent_by d.
Proof.
  intros Hr Hnil. unfold Discovery.DiscoverServices.
  rewrite Hr, Hnil. split; [reflexivity|].
  unfold Discovery.sent_by. simpl. now rewrite Hr.
Qed.

(** The reflection client is used by a round only when the offline path
    left [methods] nil. *)
Lemma reflection_only_when_offline_is_nil (B : Reflection.Backend)
    (d : Discovery.serviceDiscoverer) :
  Discovery.sent_by (snd (Discovery.DiscoverServices B d)) <> Discovery.sent_by d ->
  Slice.is_nil (Discovery.offline_methods d) = true.
Proof.
  intros Hsent.
  destruct (Slice.is_nil (Discovery.offline_methods d)) eqn:Hnil;
    [reflexivity|].
  exfalso. apply Hsent. unfold Discovery.DiscoverServices.
  destruct (Discovery.reflectionClient d) as [r|] eqn:Hr; [|reflexivity].
  rewrite Hnil. unfold Discovery.sent_by. simpl. now rewrite Hr.
Qed.

(** The offline path leaves [methods] nil when the descriptor set is
    switched off or has no path, when one of its three steps fails, and
    also when all three succeed and the registry holds no method. *)
Lemma offline_nil_cases (d : Discovery.serviceDiscoverer) :
  Slice.is_nil (Discovery.offline_methods d) = true <->
  Discovery.Enabled (Discovery.descriptorConfig d) = false \/
  Discovery.Path (Discovery.descriptorConfig d) = "" \/
  (exists e, Discovery.discoverFromFileDescriptor d = Err e) \/
  Discovery.discoverFromFileDescriptor d = Ok Slice.nil.
Proof.
  unfold Discovery.offline_methods.
  destruct (Discovery.Enabled (Discovery.descriptorConfig d)); simpl;
    [|split; auto].
  destruct (String.eqb (Discovery.Path (Discovery.descriptorConfig d)) "")
    eqn:Hpath; simpl.
  - apply String.eqb_eq in Hpath. split; auto.
  - apply String.eqb_neq in Hpath.
    destruct (Discovery.discoverFromFileDescriptor d) as [[l|]|e]; simpl.
    + split; [discriminate|].
      intros [H|[H|[[e H]|H]]]; (discriminate || contradiction).
    + split; auto.
    + split; eauto.
Qed.

(** C2.  The round run on [Samples.messages_only_discoverer]: the descriptor
    set is enabled and loads, and [discoverFromFileDescriptor] returns the
    nil slice with no error, because no file of the set declares a service.
    The round then takes the reflection path all the same: it sends a
    ListServices request and a FileContainingSymbol request on the
    connection, and publishes the catalog of the reflection server instead
    of the (empty) catalog of the descriptor set. *)
Theorem empty_descriptor_set_queries_reflection :
  Discovery.discoverFromFileDescriptor Samples.messages_only_discoverer
    = Ok Slice.nil /\
  fst (Discovery.DiscoverServices Samples.hello_backend
         Samples.messages_only_discoverer) = Ok tt /\
  Discovery.sent_by Samples.messages_only_discoverer = [] /\
  Discovery.sent_by
    (snd (Discovery.DiscoverServices Samples.hello_backend
            Samples.messages_only_discoverer)) =
    [Reflection.ListServicesRequest;
     Reflection.FileContainingSymbolRequest "hello.HelloService"] /\
  Types.FullName <$>
    Discovery.getMethodByTool
      (snd (Discovery.DiscoverServices Samples.hello_backend
              Samples.messages_only_discoverer))
      "hello_helloservice_sayhello" = Some "hello.HelloService.SayHello".
Proof. vm_compute. repeat split. Qed.

(** ** Filtering of the internal services *)

Lemma filterInternalServices_In (services : list string) (service : string) :
  In service (Reflection.filterInternalServices services) ->
  In service services /\ Reflection.isInternal service = false.
Proof.
  unfold Reflection.filterInternalServices. revert service.
  apply (fold_left_invariant _
           (fun filtered => forall service, In service filtered ->
              In service services /\ Reflection.isInternal service = false)).
  - intros service [].
  - intros filtered s IH Hs service.
    destruct (Reflection.isInternal s) eqn:E; simpl; [apply IH|].
    intros H. apply in_app_or in H as [H|[<-|[]]]; [now apply IH | auto].
Qed.

Lemma isInternal_false (service pre : string) :
  Reflection.isInternal service = false ->
  In pre Reflection.internalPrefixes ->
  Strs.HasPrefix service pre = false.
Proof.
  unfold Reflection.isInternal. intros H Hpre.
  destruct (Strs.HasPrefix service pre) eqn:E; [|reflexivity].
  assert (existsb (fun pre => Strs.HasPrefix service pre)
            Reflection.internalPrefixes = true) as Hex
    by (apply existsb_exists; eauto).
  congruence.
Qed.

(** C3, as amended.  After a successful discovery round that took the
    reflection path, every record of the published catalog belongs to a
    service that the server listed and whose name begins with none of the
    reserved prefixes [grpc.reflection.], [grpc.health.], [grpc.channelz.],
    [grpc.testing.]; the full name of the record is that service name, a
    dot, and the method name. *)
Theorem reflection_catalog_filtered (B : Reflection.Backend)
    (d d' : Discovery.serviceDiscoverer)
    (cat : gmap string Types.MethodInfo) (t : string) (m : Types.MethodInfo) :
  Slice.is_nil (Discovery.offline_methods d) = true ->
  Discovery.DiscoverServices B d = (Ok tt, d') ->
  Discovery.tools d' = Some cat -> cat !! t = Some m ->
  (forall pre, In pre Reflection.internalPrefixes ->
               Strs.HasPrefix (Types.ServiceName m) pre = false) /\
  Types.FullName m = Types.ServiceName m +:+ "." +:+ Types.Name m /\
  exists r serviceNames,
    Discovery.reflectionClient d = Some r /\
    Reflection.listServices_reply B (Reflection.sent r) = Ok serviceNames /\
    In (Types.ServiceName m) serviceNames.
Proof.
  intros Hnil Hround Hcat Hm.
  destruct (DiscoverServices_catalog B d d' cat t m Hround Hcat Hm)
    as [_ [Hoff|(r & names & Hr & _ & Hnames & Hrec)]].
  - apply is_nil_elems in Hnil. rewrite Hnil in Hoff. destruct Hoff.
  - destruct Hrec as (fd & svc & method & _ & _ & Hin & Hmk).
    apply createMethodInfo_fields in Hmk as (Hname & Hfull & Hsvc & _).
    apply filterInternalServices_In in Hin as [Hlisted Hinternal].
    rewrite Hsvc, Hfull, Hname. split; [|split].
    + intros pre Hpre. now apply isInternal_false.
    + reflexivity.
    + exists r, names. auto.
Qed.

Lemma reflection_catalog_filtered_witness :
  (forall pre, In pre Reflection.internalPrefixes ->
               Strs.HasPrefix "hello.HelloService" pre = false) /\
  "hello.HelloService.SayHello" = "hello.HelloService" +:+ "." +:+ "SayHello".
Proof.
  destruct (reflection_catalog_filtered Samples.hello_backend
              (Samples.connected Samples.broken_loader
                 Samples.descriptor_set_disabled)
              Samples.ready_discoverer
              (default ∅ (Discovery.tools Samples.ready_discoverer))
              "hello_helloservice_sayhello"
              (default Samples.SayHello_info
                 (Discovery.getMethodByTool Samples.ready_discoverer
                    "hello_helloservice_sayhello")))
    as (Hprefix & Hfull & _).
  - reflexivity.
  - vm_compute. reflexivity.
  - vm_compute. reflexivity.
  - vm_compute. reflexivity.
  - split; [exact Hprefix | exact Hfull].
Defined.

(** C3, as stated, fails on both paths.  On the reflection path, a server
    whose package [grpc] declares a service [health] passes the filter (the
    service name [grpc.health] begins with none of the prefixes), and the
    full name of its method begins with [grpc.health.].  On the offline path
    nothing is filtered: a descriptor set that holds the standard health
    service puts [grpc.health.v1.Health.Check] into the catalog, and the
    reflection client is not asked. *)
Lemma internal_prefix_in_catalog :
  (fst (Discovery.DiscoverServices Samples.grpc_health_backend
          (Samples.connected Samples.broken_loader
             Samples.descriptor_set_disabled)) = Ok tt /\
   exists m,
     Discovery.getMethodByTool
       (snd (Discovery.DiscoverServices Samples.grpc_health_backend
               (Samples.connected Samples.broken_loader
                  Samples.descriptor_set_disabled)))
       "grpc_health_probe" = Some m /\
     Types.FullName m = "grpc.health.Probe" /\
     Strs.HasPrefix (Types.FullName m) "grpc.health." = true) /\
  (fst (Discovery.DiscoverServices Samples.hello_backend
          Samples.offline_with_health) = Ok tt /\
   Discovery.sent_by
     (snd (Discovery.DiscoverServices Samples.hello_backend
             Samples.offline_with_health)) = [] /\
   exists m,
     Discovery.getMethodByTool
       (snd (Discovery.DiscoverServices Samples.hello_backend
               Samples.offline_with_health))
       "grpc_health_v1_health_check" = Some m /\
     Types.FullName m = "grpc.health.v1.Health.Check" /\
     Strs.HasPrefix (Types.FullName m) "grpc.health." = true).
Proof.
  split.
  - split; [vm_compute; reflexivity|].
    eexists. split; [vm_compute; reflexivity|]. split; reflexivity.
  - split; [vm_compute; reflexivity|]. split; [vm_compute; reflexivity|].
    eexists. split; [vm_compute; reflexivity|]. split; reflexivity.
Qed.

(** ** The health probe of the connection manager *)

Lemma State_eqb_eq (a b : Connection.State) :
  Connection.State_eqb a b = true <-> a = b.
Proof. destruct a, b; simpl; split; (reflexivity || discriminate). Qed.

Lemma State_eqb_neq (a b : Connection.State) :
  Connection.State_eqb a b = false <-> a <> b.
Proof. destruct a, b; simpl; split; (congruence || discriminate). Qed.

Lemma first_change_Some (c : Connection.ClientConn) (src : Connection.State)
    (n t t' : nat) :
  Connection.first_change c src t n = Some t' <->
  (t <= t' <= t + n)%nat /\ Connection.state_at c t' <> src /\
  (forall u, (t <= u < t')%nat -> Connection.state_at c u = src).
Proof.
  revert t. induction n as [|n IH]; intros t; simpl.
  - destruct (Connection.State_eqb (Connection.state_at c t) src) eqn:E; simpl.
    + apply State_eqb_eq in E. split; [discriminate|].
      intros (Hle & Hne & _). assert (t' = t) as -> by lia. contradiction.
    + apply State_eqb_neq in E. split.
      * intros [= <-]. split; [lia|]. split; [exact E|]. intros u Hu. lia.
      * intros (Hle & _ & _). f_equal. lia.
  - destruct (Connection.State_eqb (Connection.state_at c t) src) eqn:E; simpl.
    + apply State_eqb_eq in E. rewrite IH. split.
      * intros (Hle & Hne & Hbefore). split; [lia|]. split; [exact Hne|].
        intros u Hu. destruct (Nat.eq_dec u t) as [->|Hneq]; [exact E|].
        apply Hbefore. lia.
      * intros (Hle & Hne & Hbefore).
        assert (t' <> t) by (intros ->; contradiction).
        split; [lia|]. split; [exact Hne|]. intros u Hu. apply Hbefore. lia.
    + apply State_eqb_neq in E. split.
      * intros [= <-]. split; [lia|]. split; [exact E|]. intros u Hu. lia.
      * intros (Hle & _ & Hbefore). f_equal.
        destruct (Nat.eq_dec t' t) as [->|Hneq]; [reflexivity|].
        exfalso. apply E, Hbefore. lia.
Qed.

Lemma wait_then_ready (c : Connection.ClientConn) (src : Connection.State)
    (W : nat) :
  src <> Connection.Ready ->
  (match Connection.first_change c src 0 W with
   | None => Err (Errorf "connection state did not change within timeout")
   | Some t =>
       if negb (Connection.State_eqb (Connection.state_at c t) Connection.Ready)
       then Err (Errorf "connection failed to become ready")
       else Ok tt
   end = Ok tt) <-> ready_at_first_change c src W.
Proof.
  intros Hsrc. unfold ready_at_first_change.
  destruct (Connection.first_change c src 0 W) as [t|] eqn:Ew.
  - apply first_change_Some in Ew as (Hle & Hne & Hbefore).
    destruct (Connection.State_eqb (Connection.state_at c t) Connection.Ready)
      eqn:Et; simpl.
    + apply State_eqb_eq in Et. split; [intros _|reflexivity].
      exists t. split; [lia|]. split; [|exact Et].
      intros u Hu. apply Hbefore. lia.
    + apply State_eqb_neq in Et. split; [discriminate|].
      intros (t' & Hle' & Hb' & Ht').
      destruct (Nat.lt_trichotomy t t') as [Hlt|[->|Hgt]].
      * destruct Hne. now apply Hb'.
      * contradiction.
      * rewrite (Hbefore t') in Ht' by lia. contradiction.
  - split; [discriminate|]. intros (t' & Hle' & Hb' & Ht').
    assert (Connection.first_change c src 0 W = Some t') as Hs.
    { apply first_change_Some. split; [lia|]. split; [congruence|].
      intros u Hu. apply Hb'. lia. }
    congruence.
Qed.

(** C9, as amended.  The probe succeeds exactly when there is a channel and
    either the channel is ready when probed, or it is idle or connecting
    when probed, leaves that state within the grace window (five seconds, or
    what is left of the deadline of the caller when that is less) and is
    ready at the instant it leaves it.  The probe fails whenever the channel
    is absent or is in transient failure or shut down when probed. *)
Theorem health_probe_outcome (cm : Connection.connectionManager)
    (ctx : option nat) :
  (Connection.healthCheckLocked cm ctx = Ok tt <->
   exists c,
     Connection.conn cm = Some c /\
     (Connection.state_at c 0 = Connection.Ready \/
      (Connection.state_at c 0 = Connection.Idle \/
       Connection.state_at c 0 = Connection.Connecting) /\
      exists t,
        (t <= Connection.WithTimeout ctx 5000)%nat /\
        (forall u, (u < t)%nat ->
                   Connection.state_at c u = Connection.state_at c 0) /\
        Connection.state_at c t = Connection.Ready)) /\
  ((Connection.conn cm = None \/
    exists c, Connection.conn cm = Some c /\
              (Connection.state_at c 0 = Connection.TransientFailure \/
               Connection.state_at c 0 = Connection.Shutdown)) ->
   exists e, Connection.healthCheckLocked cm ctx = Err e).
Proof.
  unfold Connection.healthCheckLocked, Connection.WaitForStateChange,
    Connection.five_seconds.
  destruct (Connection.conn cm) as [c|]; cycle 1.
  { split; [|eauto]. split; [discriminate|]. intros (c & [=] & _). }
  set (W := Connection.WithTimeout ctx 5000).
  destruct (Connection.state_at c 0) eqn:E0; simpl.
  - (* Idle *)
    split; [|intros [[=]|(c' & [= <-] & [H|H])]; congruence].
    rewrite (wait_then_ready c Connection.Idle W) by discriminate.
    split.
    + intros Hready. exists c. split; [reflexivity|]. right.
      rewrite E0. split; [now left | exact Hready].
    + intros (c' & [= <-] & [H|[_ H]]); [congruence|].
      rewrite E0 in H. exact H.
  - (* Connecting *)
    split; [|intros [[=]|(c' & [= <-] & [H|H])]; congruence].
    rewrite (wait_then_ready c Connection.Connecting W) by discriminate.
    split.
    + intros Hready. exists c. split; [reflexivity|]. right.
      rewrite E0. split; [now right | exact Hready].
    + intros (c' & [= <-] & [H|[_ H]]); [congruence|].
      rewrite E0 in H. exact H.
  - (* Ready *)
    split; [|intros [[=]|(c' & [= <-] & [H|H])]; congruence].
    split; [intros _|reflexivity]. exists c. auto.
  - (* TransientFailure *)
    split; [|eauto]. split; [discriminate|].
    intros (c' & [= <-] & [H|[[H|H] _]]); congruence.
  - (* Shutdown *)
    split; [|eauto]. split; [discriminate|].
    intros (c' & [= <-] & [H|[[H|H] _]]); congruence.
Qed.

(** C9, as stated, fails.  The channel [Samples.connecting_channel] is idle
    when probed (a state [IsConnected] counts as connected), starts to
    connect after one millisecond and is ready after fifty, well within the
    five seconds; the probe returns when the channel leaves the idle state,
    finds it connecting, and fails. *)
Lemma probe_fails_on_channel_that_becomes_ready :
  Connection.healthCheckLocked
    {| Connection.conn := Some Samples.connecting_channel |} None
  = Err (Errorf "connection failed to become ready") /\
  Connection.IsConnected
    {| Connection.conn := Some Samples.connecting_channel |} = true /\
  Connection.state_at Samples.connecting_channel 0 = Connection.Idle /\
  Connection.state_at Samples.connecting_channel 50 = Connection.Ready /\
  (50 <= 5000)%nat.
Proof. vm_compute. repeat split. repeat constructor. Qed.

(** ** The schema projector: the [visited] set *)

(** The deferred [delete] undoes the insertion made on entry. *)
Lemma delete_added (n : string) (v : gset string) :
  n ∉ v -> ({[n]} ∪ v) ∖ {[n]} = v.
Proof.
  intros Hn. apply set_eq. intros x.
  rewrite elem_of_difference, elem_of_union, !elem_of_singleton. split.
  - intros [[Hx|Hx] Hne]; [contradiction | exact Hx].
  - intros Hx. split; [now right|]. intros ->. contradiction.
Qed.

Section ProjectionSteps.
Import Types Protoreflect.
Variable pool : list MessageDescriptor.

Section WithRec.
Variable rec : MessageDescriptor -> Tools.step json.
Hypothesis Hrec : restores rec.

Lemma fieldType_restores (f : FieldDescriptor) (v v' : gset string)
    (r : result json) :
  Tools.extractFieldTypeSchemaInternal pool rec f v = Some (r, v') -> v' = v.
Proof.
  unfold Tools.extractFieldTypeSchemaInternal.
  destruct (fd_Kind f); try (intros [= _ <-]; reflexivity).
  destruct (Tools.well_known_schema (fd_Message f));
    [intros [= _ <-]; reflexivity|].
  destruct (rec _ v) as [[[s|e] v1]|] eqn:E; try discriminate;
    intros [= _ <-]; now apply Hrec in E.
Qed.

Lemma field_restores (f : FieldDescriptor) (v v' : gset string)
    (r : result json) :
  Tools.extractFieldSchemaInternal pool rec f v = Some (r, v') -> v' = v.
Proof.
  unfold Tools.extractFieldSchemaInternal.
  destruct (fd_IsList f).
  - destruct (Tools.extractFieldTypeSchemaInternal pool rec f v)
      as [[[s|e] v1]|] eqn:E; try discriminate;
      intros [= _ <-]; now apply fieldType_restores in E.
  - destruct (fd_MapValue f) as [valueField|].
    + destruct (Tools.extractFieldTypeSchemaInternal pool rec valueField v)
        as [[[s|e] v1]|] eqn:E; try discriminate;
        intros [= _ <-]; now apply fieldType_restores in E.
    + apply fieldType_restores.
Qed.

Lemma fields_loop_restores (fields : list FieldDescriptor)
    (properties properties' : list (string * json))
    (required required' : list string) (v v' : gset string) :
  Tools.fields_loop pool rec fields properties required v =
    Some (properties', required', v') -> v' = v.
Proof.
  revert properties required.
  induction fields as [|f fields IH]; intros properties required; simpl.
  - now intros [= _ _ <-].
  - destruct (Tools.extractFieldSchemaInternal pool rec f v)
      as [[[s|e] v1]|] eqn:E; try discriminate;
      apply field_restores in E; subst v1; apply IH.
Qed.

Lemma oneof_options_restores (fields : list FieldDescriptor)
    (options options' : list json) (v v' : gset string) :
  Tools.oneof_options pool rec fields options v = Some (options', v') ->
  v' = v.
Proof.
  revert options. induction fields as [|f fields IH]; intros options; simpl.
  - now intros [= _ <-].
  - destruct (Tools.extractFieldSchemaInternal pool rec f v)
      as [[[s|e] v1]|] eqn:E; try discriminate;
      apply field_restores in E; subst v1; apply IH.
Qed.

Lemma oneofs_loop_restores (oneofs : list OneofDescriptor)
    (properties properties' : list (string * json)) (v v' : gset string) :
  Tools.oneofs_loop pool rec oneofs properties v = Some (properties', v') ->
  v' = v.
Proof.
  revert properties. induction oneofs as [|o oneofs IH];
    intros properties; simpl.
  - now intros [= _ <-].
  - destruct (Tools.oneof_options pool rec (oneof_Fields o) [] v)
      as [[options v1]|] eqn:E; [|discriminate].
    apply oneof_options_restores in E. subst v1. apply IH.
Qed.

Lemma message_body_restores (m : MessageDescriptor) (v v' : gset string)
    (schema : json) :
  Tools.message_body pool rec m v = Some (schema, v') -> v' = v.
Proof.
  unfold Tools.message_body.
  destruct (Tools.fields_loop pool rec (msg_Fields m) [] [] v)
    as [[[properties required] v1]|] eqn:E1; [|discriminate].
  apply fields_loop_restores in E1. subst v1.
  destruct (Tools.oneofs_loop pool rec (msg_Oneofs m) properties v)
    as [[properties' v2]|] eqn:E2; [|discriminate].
  apply oneofs_loop_restores in E2. subst v2.
  now intros [= _ <-].
Qed.

End WithRec.

(** On the way out of a message the [visited] set is what it was on the
    way in, and the projection of a message returns no error. *)
Lemma extractMessage_restores (depth : nat) :
  restores (Tools.extractMessageSchemaInternal pool depth).
Proof.
  induction depth as [|depth IH]; intros m v r v'; simpl; [discriminate|].
  case_bool_decide as Hin.
  - intros [= <- <-]. eauto.
  - destruct (Tools.message_body pool _ m ({[msg_FullName m]} ∪ v))
      as [[schema v1]|] eqn:E; [|discriminate].
    apply (message_body_restores _ IH) in E. subst v1.
    intros [= Hr Hv]. subst r v'. split; [now apply delete_added | eauto].
Qed.

End ProjectionSteps.

(** ** The schema projector: termination *)

Section ProjectionTotal.
Import Types Protoreflect.
Variable pool : list MessageDescriptor.

Lemma Message_of_FullName (fullName : string) :
  msg_FullName (Tools.Message_of pool fullName) = fullName.
Proof.
  unfold Tools.Message_of.
  destruct (find _ pool) as [m|] eqn:E; [|reflexivity].
  apply find_some in E as [_ E]. now apply String.eqb_eq in E.
Qed.

Lemma Message_of_pooled (fullName : string) :
  pooled pool (Tools.Message_of pool fullName).
Proof.
  unfold pooled, Tools.Message_of.
  destruct (find _ pool) as [m|] eqn:E; [left | right; auto].
  apply find_some in E as [E _].
  unfold Tools.pool_names. apply elem_of_list_to_set, list_elem_of_In.
  now apply in_map.
Qed.

Section WithRec.
Variable rec : MessageDescriptor -> Tools.step json.
Variable V : gset string.
Hypothesis Hrec : restores rec.
Hypothesis Htotal :
  forall fullName, is_Some (rec (Tools.Message_of pool fullName) V).

Lemma fieldType_total (f : FieldDescriptor) :
  exists r, Tools.extractFieldTypeSchemaInternal pool rec f V = Some (r, V).
Proof.
  unfold Tools.extractFieldTypeSchemaInternal.
  destruct (fd_Kind f); eauto.
  destruct (Tools.well_known_schema (fd_Message f)); eauto.
  destruct (Htotal (fd_Message f)) as [[r v1] E]. rewrite E.
  destruct (Hrec _ _ _ _ E) as [-> [s ->]]. eauto.
Qed.

Lemma field_total (f : FieldDescriptor) :
  exists r, Tools.extractFieldSchemaInternal pool rec f V = Some (r, V).
Proof.
  unfold Tools.extractFieldSchemaInternal.
  destruct (fd_IsList f).
  - destruct (fieldType_total f) as [[s|e] ->]; eauto.
  - destruct (fd_MapValue f) as [valueField|]; [|apply fieldType_total].
    destruct (fieldType_total valueField) as [[s|e] ->]; eauto.
Qed.

Lemma fields_loop_total (fields : list FieldDescriptor)
    (properties : list (string * json)) (required : list string) :
  exists properties' required',
    Tools.fields_loop pool rec fields properties required V =
      Some (properties', required', V).
Proof.
  revert properties required.
  induction fields as [|f fields IH]; intros properties required; simpl.
  - eauto.
  - destruct (field_total f) as [[s|e] ->]; apply IH.
Qed.

Lemma oneof_options_total (fields : list FieldDescriptor)
    (options : list json) :
  exists options',
    Tools.oneof_options pool rec fields options V = Some (options', V).
Proof.
  revert options. induction fields as [|f fields IH]; intros options; simpl.
  - eauto.
  - destruct (field_total f) as [[s|e] ->]; apply IH.
Qed.

Lemma oneofs_loop_total (oneofs : list OneofDescriptor)
    (properties : list (string * json)) :
  exists properties',
    Tools.oneofs_loop pool rec oneofs properties V = Some (properties', V).
Proof.
  revert properties. induction oneofs as [|o oneofs IH];
    intros properties; simpl.
  - eauto.
  - destruct (oneof_options_total (oneof_Fields o) []) as [options ->].
    apply IH.
Qed.

Lemma message_body_total (m : MessageDescriptor) :
  exists schema, Tools.message_body pool rec m V = Some (schema, V).
Proof.
  unfold Tools.message_body.
  destruct (fields_loop_total (msg_Fields m) [] [])
    as (properties & required & ->).
  destruct (oneofs_loop_total (msg_Oneofs m) properties)
    as (properties' & ->).
  eauto.
Qed.

End WithRec.

(** A message without fields and oneofs needs no recursive call. *)
Lemma message_body_leaf (rec : MessageDescriptor -> Tools.step json)
    (m : MessageDescriptor) (v : gset string) :
  msg_Fields m = [] -> msg_Oneofs m = [] ->
  exists schema, Tools.message_body pool rec m v = Some (schema, v).
Proof.
  intros Hf Ho. unfold Tools.message_body. rewrite Hf, Ho. simpl. eauto.
Qed.

(** Each message entered takes its name out of the names of the pool that
    are not yet in [visited], so a depth above the number of those names
    is never used up. *)
Lemma extractMessage_total (depth : nat) (m : MessageDescriptor)
    (v : gset string) :
  pooled pool m -> size (Tools.pool_names pool ∖ v) < depth ->
  exists schema,
    Tools.extractMessageSchemaInternal pool depth m v = Some (Ok schema, v).
Proof.
  revert m v. induction depth as [|depth IH]; intros m v Hm Hsize; [lia|].
  simpl. case_bool_decide as Hin; [eauto|].
  destruct Hm as [Hm|[Hf Ho]].
  - destruct (message_body_total
                (Tools.extractMessageSchemaInternal pool depth)
                ({[msg_FullName m]} ∪ v) (extractMessage_restores pool depth))
      with (m := m) as [schema ->].
    + intros fullName.
      destruct (IH (Tools.Message_of pool fullName) ({[msg_FullName m]} ∪ v))
        as [schema ->]; [apply Message_of_pooled | | eauto].
      assert (Tools.pool_names pool ∖ ({[msg_FullName m]} ∪ v)
              ⊂ Tools.pool_names pool ∖ v) as Hsub.
      { split.
        - intros x. rewrite !elem_of_difference, elem_of_union.
          intros [Hx Hnx]. split; [exact Hx|]. intros Hv. apply Hnx. now right.
        - intros Hall. specialize (Hall (msg_FullName m)).
          rewrite !elem_of_difference, elem_of_union, elem_of_singleton in Hall.
          destruct Hall as [_ Hall]; [now split|]. apply Hall. now left. }
      apply subset_size in Hsub. lia.
    + rewrite delete_added by exact Hin. eauto.
  - destruct (message_body_leaf
                (Tools.extractMessageSchemaInternal pool depth) m
                ({[msg_FullName m]} ∪ v) Hf Ho) as [schema ->].
    rewrite delete_added by exact Hin. eauto.
Qed.

(** The depth given by [ExtractMessageSchema] is enough for any message,
    of the pool or not. *)
Lemma ExtractMessageSchema_total (m : MessageDescriptor) :
  exists schema, Tools.ExtractMessageSchema pool m = Some (Ok schema).
Proof.
  unfold Tools.ExtractMessageSchema.
  change (2 + size (Tools.pool_names pool))
    with (S (S (size (Tools.pool_names pool)))).
  remember (S (size (Tools.pool_names pool))) as depth eqn:Hdepth.
  simpl. case_bool_decide as Hin; [now apply not_elem_of_empty in Hin|].
  destruct (message_body_total
              (Tools.extractMessageSchemaInternal pool depth)
              ({[msg_FullName m]} ∪ ∅)
              (extractMessage_restores pool _)) with (m := m) as [schema ->].
  - intros fullName.
    destruct (extractMessage_total depth
                (Tools.Message_of pool fullName) ({[msg_FullName m]} ∪ ∅))
      as [schema ->]; [apply Message_of_pooled | | eauto].
    assert (size (Tools.pool_names pool ∖ ({[msg_FullName m]} ∪ ∅))
            <= size (Tools.pool_names pool)); [|lia].
    apply subseteq_size. intros x. rewrite elem_of_difference. tauto.
  - eauto.
Qed.

End ProjectionTotal.

(** ** The schema projector: a larger depth changes no result *)

Section ProjectionDepth.
Import Types Protoreflect.
Variable pool : list MessageDescriptor.

Section TwoRecs.
Variables rec rec' : MessageDescriptor -> Tools.step json.
Hypothesis Hext : extends rec rec'.

Lemma fieldType_extends (f : FieldDescriptor) (v : gset string)
    (x : result json * gset string) :
  Tools.extractFieldTypeSchemaInternal pool rec f v = Some x ->
  Tools.extractFieldTypeSchemaInternal pool rec' f v = Some x.
Proof.
  unfold Tools.extractFieldTypeSchemaInternal.
  destruct (fd_Kind f); auto.
  destruct (Tools.well_known_schema (fd_Message f)); auto.
  destruct (rec _ v) as [y|] eqn:E; [|discriminate].
  now rewrite (Hext _ _ _ E).
Qed.

Lemma field_extends (f : FieldDescriptor) (v : gset string)
    (x : result json * gset string) :
  Tools.extractFieldSchemaInternal pool rec f v = Some x ->
  Tools.extractFieldSchemaInternal pool rec' f v = Some x.
Proof.
  unfold Tools.extractFieldSchemaInternal.
  destruct (fd_IsList f).
  - destruct (Tools.extractFieldTypeSchemaInternal pool rec f v)
      as [y|] eqn:E; [|discriminate].
    now rewrite (fieldType_extends _ _ _ E).
  - destruct (fd_MapValue f) as [valueField|]; [|apply fieldType_extends].
    destruct (Tools.extractFieldTypeSchemaInternal pool rec valueField v)
      as [y|] eqn:E; [|discriminate].
    now rewrite (fieldType_extends _ _ _ E).
Qed.

Lemma fields_loop_extends (fields : list FieldDescriptor)
    (properties : list (string * json)) (required : list string)
    (v : gset string) x :
  Tools.fields_loop pool rec fields properties required v = Some x ->
  Tools.fields_loop pool rec' fields properties required v = Some x.
Proof.
  revert properties required v.
  induction fields as [|f fields IH]; intros properties required v; simpl;
    [auto|].
  destruct (Tools.extractFieldSchemaInternal pool rec f v) as [y|] eqn:E;
    [|discriminate].
  rewrite (field_extends _ _ _ E). destruct y as [[s|e] v1]; apply IH.
Qed.

Lemma oneof_options_extends (fields : list FieldDescriptor)
    (options : list json) (v : gset string) x :
  Tools.oneof_options pool rec fields options v = Some x ->
  Tools.oneof_options pool rec' fields options v = Some x.
Proof.
  revert options v.
  induction fields as [|f fields IH]; intros options v; simpl; [auto|].
  destruct (Tools.extractFieldSchemaInternal pool rec f v) as [y|] eqn:E;
    [|discriminate].
  rewrite (field_extends _ _ _ E). destruct y as [[s|e] v1]; apply IH.
Qed.

Lemma oneofs_loop_extends (oneofs : list OneofDescriptor)
    (properties : list (string * json)) (v : gset string) x :
  Tools.oneofs_loop pool rec oneofs properties v = Some x ->
  Tools.oneofs_loop pool rec' oneofs properties v = Some x.
Proof.
  revert properties v.
  induction oneofs as [|o oneofs IH]; intros properties v; simpl; [auto|].
  destruct (Tools.oneof_options pool rec (oneof_Fields o) [] v)
    as [[options v1]|] eqn:E; [|discriminate].
  rewrite (oneof_options_extends _ _ _ _ E). apply IH.
Qed.

Lemma message_body_extends (m : MessageDescriptor) (v : gset string) x :
  Tools.message_body pool rec m v = Some x ->
  Tools.message_body pool rec' m v = Some x.
Proof.
  unfold Tools.message_body.
  destruct (Tools.fields_loop pool rec (msg_Fields m) [] [] v)
    as [[[properties required] v1]|] eqn:E1; [|discriminate].
  rewrite (fields_loop_extends _ _ _ _ _ E1).
  destruct (Tools.oneofs_loop pool rec (msg_Oneofs m) properties v1)
    as [[properties' v2]|] eqn:E2; [|discriminate].
  now rewrite (oneofs_loop_extends _ _ _ _ E2).
Qed.

End TwoRecs.

Lemma extractMessage_deeper (depth k : nat) :
  extends (Tools.extractMessageSchemaInternal pool depth)
    (Tools.extractMessageSchemaInternal pool (depth + k)).
Proof.
  induction depth as [|depth IH]; intros m v x; simpl; [discriminate|].
  case_bool_decide as Hin; [auto|].
  destruct (Tools.message_body pool _ m ({[msg_FullName m]} ∪ v))
    as [[schema v1]|] eqn:E; [|discriminate].
  now rewrite (message_body_extends _ _ IH _ _ _ E).
Qed.

(** Any depth from the one [ExtractMessageSchema] uses onwards gives the
    result [ExtractMessageSchema] gives. *)
Lemma ExtractMessageSchema_any_depth (m : MessageDescriptor) (k : nat)
    (schema : json) :
  Tools.ExtractMessageSchema pool m = Some (Ok schema) ->
  Tools.extractMessageSchemaInternal pool
    (2 + size (Tools.pool_names pool) + k) m ∅ = Some (Ok schema, ∅).
Proof.
  unfold Tools.ExtractMessageSchema.
  destruct (Tools.extractMessageSchemaInternal pool
              (2 + size (Tools.pool_names pool)) m ∅)
    as [[r v]|] eqn:E; [|discriminate].
  intros [= ->].
  destruct (extractMessage_restores pool _ _ _ _ _ E) as [-> _].
  now apply extractMessage_deeper.
Qed.

End ProjectionDepth.

(** C5.  The projection of any message descriptor, over any pool of
    messages, cyclic or not, returns a schema: the depth that
    [ExtractMessageSchema] allows is never used up, and any larger depth
    gives the same schema.  The projector hands the [visited] set back as it
    got it; when the name of the message is not in the set, its fields are
    projected with the name added and the name is deleted afterwards; when
    the name is in the set, the result is the reference to the name and no
    field is looked at (depth one is enough); and a message-typed field
    that reaches the default branch with its type in the set gets that
    reference as its type schema. *)
Theorem projection_terminates (pool : list Protoreflect.MessageDescriptor)
    (m : Protoreflect.MessageDescriptor) :
  (exists schema,
      Tools.ExtractMessageSchema pool m = Some (Ok schema) /\
      forall k,
        Tools.extractMessageSchemaInternal pool
          (2 + size (Tools.pool_names pool) + k) m ∅ = Some (Ok schema, ∅)) /\
  (forall depth v r v',
      Tools.extractMessageSchemaInternal pool depth m v = Some (r, v') ->
      v' = v) /\
  (forall depth v,
      Protoreflect.msg_FullName m ∉ v ->
      Tools.extractMessageSchemaInternal pool (S depth) m v =
        match Tools.message_body pool
                (Tools.extractMessageSchemaInternal pool depth) m
                ({[Protoreflect.msg_FullName m]} ∪ v) with
        | None => None
        | Some (schema, v') =>
            Some (Ok schema, v' ∖ {[Protoreflect.msg_FullName m]})
        end) /\
  (forall depth v,
      Protoreflect.msg_FullName m ∈ v ->
      Tools.extractMessageSchemaInternal pool (S depth) m v =
        Some (Ok (Tools.ref_schema (Protoreflect.msg_FullName m)), v)) /\
  (forall depth f v,
      Protoreflect.fd_Kind f = Protoreflect.MessageKind ->
      Tools.well_known_schema (Protoreflect.fd_Message f) = None ->
      Protoreflect.fd_Message f ∈ v ->
      Tools.extractFieldTypeSchemaInternal pool
        (Tools.extractMessageSchemaInternal pool (S depth)) f v =
        Some (Ok (Tools.ref_schema (Protoreflect.fd_Message f)), v)).
Proof.
  split; [|split; [|split; [|split]]].
  - destruct (ExtractMessageSchema_total pool m) as [schema Hs].
    exists schema. split; [exact Hs|]. intros k.
    now apply ExtractMessageSchema_any_depth.
  - intros depth v r v' H. now apply extractMessage_restores in H.
  - intros depth v Hin. simpl. now rewrite bool_decide_eq_false_2.
  - intros depth v Hin. simpl. now rewrite bool_decide_eq_true_2.
  - intros depth f v Hkind Hwk Hin.
    unfold Tools.extractFieldTypeSchemaInternal. rewrite Hkind, Hwk.
    simpl. rewrite Message_of_FullName, bool_decide_eq_true_2 by exact Hin.
    reflexivity.
Qed.

(** The projection of the self-referential [Node] and of a cycle through a
    chain. *)
Example Node_projection :
  Tools.ExtractMessageSchema [Samples.Node] Samples.Node =
  Some (Ok (JObj [("type", JStr "object");
                  ("properties",
                   JObj [("v", JObj [("type", JStr "string")]);
                         ("next", JObj [("$ref", JStr "#/definitions/Node")])]);
                  ("required", JArr [JStr "v"])])).
Proof. vm_compute. reflexivity. Qed.

Example chain_projection :
  Tools.ExtractMessageSchema [Samples.chain_A; Samples.chain_B] Samples.chain_A =
  Some (Ok (JObj
    [("type", JStr "object");
     ("properties",
      JObj [("b",
             JObj [("type", JStr "object");
                   ("properties",
                    JObj [("as",
                           JObj [("type", JStr "array");
                                 ("items",
                                  JObj [("$ref",
                                         JStr "#/definitions/chain.A")])])]);
                   ("required", JArr [JStr "as"])])])])).
Proof. vm_compute. reflexivity. Qed.

(** ** The schema projector: required fields *)

Lemma flat_map_JStr (l : list string) :
  flat_map (fun j => match j with JStr s => [s] | _ => [] end) (map JStr l) = l.
Proof. induction l; simpl; congruence. Qed.

Section Required.
Import Types Protoreflect.
Variable pool : list MessageDescriptor.
Variable rec : MessageDescriptor -> Tools.step json.
Hypothesis Hrec : restores rec.

Lemma fieldType_Ok (f : FieldDescriptor) (v v' : gset string)
    (r : result json) :
  Tools.extractFieldTypeSchemaInternal pool rec f v = Some (r, v') ->
  is_Ok r = match fd_Kind f with GroupKind => false | _ => true end.
Proof.
  unfold Tools.extractFieldTypeSchemaInternal.
  destruct (fd_Kind f); try (intros [= <- _]; reflexivity).
  destruct (Tools.well_known_schema (fd_Message f));
    [intros [= <- _]; reflexivity|].
  destruct (rec _ v) as [[r1 v1]|] eqn:E; [|discriminate].
  destruct (Hrec _ _ _ _ E) as [_ [s ->]]. intros [= <- _]. reflexivity.
Qed.

Lemma field_Ok (f : FieldDescriptor) (v v' : gset string) (r : result json) :
  Tools.extractFieldSchemaInternal pool rec f v = Some (r, v') ->
  is_Ok r = supported f.
Proof.
  unfold Tools.extractFieldSchemaInternal, supported, type_carrier.
  destruct (fd_IsList f).
  - destruct (Tools.extractFieldTypeSchemaInternal pool rec f v)
      as [[r1 v1]|] eqn:E; [|discriminate].
    apply fieldType_Ok in E.
    destruct r1; intros [= <- _]; exact E.
  - destruct (fd_MapValue f) as [valueField|]; [|apply fieldType_Ok].
    destruct (Tools.extractFieldTypeSchemaInternal pool rec valueField v)
      as [[r1 v1]|] eqn:E; [|discriminate].
    apply fieldType_Ok in E.
    destruct r1; intros [= <- _]; exact E.
Qed.

Lemma fields_loop_required (fields : list FieldDescriptor)
    (properties properties' : list (string * json))
    (required required' : list string) (v v' : gset string) :
  Tools.fields_loop pool rec fields properties required v =
    Some (properties', required', v') ->
  required' = required ++ map fd_Name (List.filter listed fields).
Proof.
  revert properties required v.
  induction fields as [|f fields IH]; intros properties required v; simpl.
  - intros [= _ <- _]. now rewrite app_nil_r.
  - destruct (Tools.extractFieldSchemaInternal pool rec f v)
      as [[r v1]|] eqn:E; [|discriminate].
    pose proof (field_Ok _ _ _ _ E) as Hok. unfold listed at 1.
    rewrite <- Hok.
    destruct r as [s|e]; simpl; intros H; apply IH in H; subst required'.
    + destruct (fd_HasOptionalKeyword f || fd_HasPresence f); simpl.
      * reflexivity.
      * now rewrite <- app_assoc.
    + reflexivity.
Qed.

End Required.

Lemma ExtractMessageSchema_required (pool : list Protoreflect.MessageDescriptor)
    (m : Protoreflect.MessageDescriptor) (schema : json) :
  Tools.ExtractMessageSchema pool m = Some (Ok schema) ->
  required_of schema =
  map Protoreflect.fd_Name (List.filter listed (Protoreflect.msg_Fields m)).
Proof.
  unfold Tools.ExtractMessageSchema.
  change (2 + size (Tools.pool_names pool))
    with (S (S (size (Tools.pool_names pool)))).
  remember (S (size (Tools.pool_names pool))) as depth eqn:Hdepth.
  simpl. case_bool_decide as Hin; [now apply not_elem_of_empty in Hin|].
  destruct (Tools.message_body pool _ m _) as [[schema' v1]|] eqn:E;
    [|discriminate].
  intros [= ->]. unfold Tools.message_body in E.
  destruct (Tools.fields_loop pool _ (Protoreflect.msg_Fields m) [] [] _)
    as [[[properties required] v2]|] eqn:E1; [|discriminate].
  destruct (Tools.oneofs_loop pool _ (Protoreflect.msg_Oneofs m) properties v2)
    as [[properties' v3]|] eqn:E2; [|discriminate].
  apply (fields_loop_required pool _ (extractMessage_restores pool depth))
    in E1.
  simpl in E1. rewrite <- E1. injection E as <- _.
  unfold required_of, jfield.
  destruct (negb (String.eqb _ "")); destruct required as [|x required];
    simpl; try reflexivity; now rewrite flat_map_JStr.
Qed.

(** C4, as amended.  In the schema of a message, a name is listed under
    [required] exactly when the message has a field of that name that has
    neither the optional keyword nor presence and whose own schema could be
    built, that is, whose kind (for a map, the kind of its values) is not
    the group kind; a field of the group kind is left out of the schema. *)
Theorem required_fields (pool : list Protoreflect.MessageDescriptor)
    (m : Protoreflect.MessageDescriptor) (schema : json) (name : string) :
  Tools.ExtractMessageSchema pool m = Some (Ok schema) ->
  (In name (required_of schema) <->
   exists f,
     In f (Protoreflect.msg_Fields m) /\ Protoreflect.fd_Name f = name /\
     Protoreflect.fd_HasOptionalKeyword f = false /\
     Protoreflect.fd_HasPresence f = false /\
     supported f = true) /\
  (forall depth f v r v',
      Tools.extractFieldSchemaInternal pool
        (Tools.extractMessageSchemaInternal pool depth) f v = Some (r, v') ->
      is_Ok r = supported f).
Proof.
  intros H. split.
  - rewrite (ExtractMessageSchema_required pool m schema H), in_map_iff.
    split.
    + intros (f & Hname & Hf). apply filter_In in Hf as [Hin Hl].
      unfold listed in Hl. apply andb_true_iff in Hl as [Hs Hp].
      apply negb_true_iff, orb_false_iff in Hp as [Ho Hp].
      exists f. auto.
    + intros (f & Hin & Hname & Ho & Hp & Hs). exists f.
      split; [exact Hname|]. apply filter_In. split; [exact Hin|].
      unfold listed. now rewrite Hs, Ho, Hp.
  - intros depth f v r v'.
    apply (field_Ok pool _ (extractMessage_restores pool depth)).
Qed.

Lemma required_fields_witness :
  In "name"
    (required_of
       (JObj [("type", JStr "object");
              ("properties", JObj [("name", JObj [("type", JStr "string")])]);
              ("required", JArr [JStr "name"])])).
Proof.
  apply (proj1 (required_fields [Samples.HelloRequest] Samples.HelloRequest _
                  "name" eq_refl)).
  exists (Samples.scalar_field "name" Protoreflect.StringKind).
  repeat split. now left.
Defined.

(** C4, as stated, fails.  The field [result] of [Samples.SearchResponse] is
    a repeated group: it has neither the optional keyword nor presence and
    is in no oneof, and yet it is not listed under [required]; the schema
    has no property for it at all. *)
Lemma repeated_group_not_required :
  exists schema,
    Tools.ExtractMessageSchema [Samples.SearchResponse] Samples.SearchResponse
      = Some (Ok schema) /\
    In Samples.Result_group
       (Protoreflect.msg_Fields Samples.SearchResponse) /\
    Protoreflect.fd_HasOptionalKeyword Samples.Result_group = false /\
    Protoreflect.fd_HasPresence Samples.Result_group = false /\
    required_of schema = ["tags"] /\
    properties_of schema = ["tags"] /\
    ~ In (Protoreflect.fd_Name Samples.Result_group) (required_of schema).
Proof.
  eexists. split; [vm_compute; reflexivity|].
  split; [now left|]. split; [reflexivity|]. split; [reflexivity|].
  split; [reflexivity|]. split; [reflexivity|].
  intros [H|[]]. discriminate.
Qed.

(** ** The scenarios of the specification on the sample inputs *)

(** An offline descriptor set with the hello service: one catalog entry,
    nothing sent on the connection, and the tool built from the entry. *)
Example offline_greenfield :
  Discovery.GetMethods
    (snd (Discovery.DiscoverServices Samples.hello_backend
            Samples.offline_discoverer)) = [Samples.SayHello_info] /\
  Discovery.sent_by
    (snd (Discovery.DiscoverServices Samples.hello_backend
            Samples.offline_discoverer)) = [] /\
  Tools.BuildTool [Samples.HelloRequest] Samples.SayHello_info =
  Some (Ok {| Tools.tool_Name := "hello_helloservice_sayhello";
              Tools.tool_Description :=
                "Calls the SayHello method of the hello.HelloService service";
              Tools.tool_InputSchema :=
                Some (JObj [("type", JStr "object");
                            ("properties",
                             JObj [("name", JObj [("type", JStr "string")])]);
                            ("required", JArr [JStr "name"])]);
              Tools.tool_OutputSchema :=
                Some (JObj [("type", JStr "object");
                            ("properties", JObj [])]) |}).
Proof. vm_compute. repeat split. Qed.

(** A corrupt descriptor file and a live reflection server: the round falls
    back to reflection, whose catalog leaves the reflection service out. *)
Example reflection_fallback :
  fst (Discovery.DiscoverServices Samples.hello_backend
         (Samples.connected Samples.broken_loader
            Samples.descriptor_set_enabled)) = Ok tt /\
  map Types.FullName
    (Discovery.GetMethods
       (snd (Discovery.DiscoverServices Samples.hello_backend
               (Samples.connected Samples.broken_loader
                  Samples.descriptor_set_enabled)))) =
  ["hello.HelloService.WatchHello"; "hello.HelloService.SayHello"].
Proof. vm_compute. repeat split. Qed.

(** A unary call with one header: the header and the method path reach the
    backend, and the reply comes back as JSON. *)
Example metadata_forwarded :
  fst (Discovery.InvokeMethodByTool Samples.hello_backend
         Samples.ready_discoverer [("x-trace-id", "abc")]
         "hello_helloservice_sayhello" "{}") = Some (Ok "{}") /\
  Discovery.sent_by
    (snd (Discovery.InvokeMethodByTool Samples.hello_backend
            Samples.ready_discoverer [("x-trace-id", "abc")]
            "hello_helloservice_sayhello" "{}")) =
  Discovery.sent_by Samples.ready_discoverer ++
  [Reflection.UnaryCall [("x-trace-id", "abc")] "/hello.HelloService/SayHello"
     (Reflection.NewMessage "hello.HelloRequest")].
Proof. vm_compute. repeat split. Qed.

(** * Further properties *)

(** ** Splitting names at dots *)

Lemma SplitByte_nonempty (s : string) (sep : ascii) : Strs.SplitByte s sep <> [].
Proof.
  destruct s as [|c s]; simpl; [discriminate|].
  destruct (Ascii.eqb c sep); [discriminate|].
  destruct (Strs.SplitByte s sep); discriminate.
Qed.

Lemma SplitByte_whole (s : string) (sep : ascii) :
  occurs sep s = false -> Strs.SplitByte s sep = [s].
Proof.
  induction s as [|c s IH]; simpl; [reflexivity|].
  intros H. apply orb_false_iff in H as [Hc Hs].
  rewrite Hc, (IH Hs). reflexivity.
Qed.

(** Splitting distributes over a separator. *)
Lemma SplitByte_app (a b : string) (sep : ascii) :
  Strs.SplitByte (a +:+ String sep b) sep =
  Strs.SplitByte a sep ++ Strs.SplitByte b sep.
Proof.
  induction a as [|c a IH]; simpl.
  - now rewrite Ascii.eqb_refl.
  - destruct (Ascii.eqb c sep); [now rewrite IH|].
    rewrite IH.
    destruct (Strs.SplitByte a sep) as [|p ps] eqn:E; [|reflexivity].
    now apply SplitByte_nonempty in E.
Qed.

Lemma append_assoc (a b c : string) : a +:+ (b +:+ c) = (a +:+ b) +:+ c.
Proof.
  induction a as [|x a IH]; [reflexivity|].
  change (String x (a +:+ (b +:+ c)) = String x ((a +:+ b) +:+ c)).
  now rewrite IH.
Qed.

Lemma occurs_true_split (s : string) :
  occurs "." s = true ->
  exists a b, s = a +:+ "." +:+ b /\ occurs "." b = false.
Proof.
  intros H.
  assert (0 <= Strs.LastIndex s ".")%Z as Hidx.
  { destruct (Z.lt_ge_cases (Strs.LastIndex s ".") 0) as [Hlt|Hge]; [|lia].
    apply LastIndex_dot_absent in Hlt. congruence. }
  destruct (LastIndex_dot_split s Hidx) as (a & b & Hs & Hb & _). eauto.
Qed.

Lemma nth_last_two {A : Type} (l : list A) (x y d : A) :
  nth (length (l ++ [x; y]) - 2) (l ++ [x; y]) d = x /\
  nth (length (l ++ [x; y]) - 1) (l ++ [x; y]) d = y.
Proof.
  rewrite length_app. simpl.
  replace (length l + 2 - 2)%nat with (length l + 0)%nat by lia.
  replace (length l + 2 - 1)%nat with (length l + 1)%nat by lia.
  split.
  - rewrite app_nth2_plus. reflexivity.
  - rewrite app_nth2_plus. reflexivity.
Qed.

Lemma compat_two_parts (p s : string) :
  occurs "." p = false -> occurs "." s = false ->
  Descriptors.extractServiceNameForCompatibility (p +:+ "." +:+ s) =
  p +:+ "." +:+ s.
Proof.
  intros Hp Hs. unfold Descriptors.extractServiceNameForCompatibility.
  change (p +:+ "." +:+ s) with (p +:+ String "." s).
  rewrite SplitByte_app, (SplitByte_whole p), (SplitByte_whole s) by assumption.
  reflexivity.
Qed.

Lemma compat_many_parts (pre p s : string) :
  occurs "." p = false -> occurs "." s = false ->
  Descriptors.extractServiceNameForCompatibility
    (pre +:+ "." +:+ p +:+ "." +:+ s) = p +:+ "." +:+ s.
Proof.
  intros Hp Hs. unfold Descriptors.extractServiceNameForCompatibility.
  change (pre +:+ "." +:+ p +:+ "." +:+ s)
    with (pre +:+ String "." (p +:+ String "." s)).
  rewrite !SplitByte_app, (SplitByte_whole p), (SplitByte_whole s) by assumption.
  change ([p] ++ [s]) with [p; s].
  destruct (nth_last_two (Strs.SplitByte pre ".") p s "") as [-> ->].
  rewrite length_app. simpl.
  destruct (length (Strs.SplitByte pre ".") + 2 <? 2)%nat eqn:E;
    [apply Nat.ltb_lt in E; lia | reflexivity].
Qed.

Lemma compat_no_dot (s : string) :
  occurs "." s = false ->
  Descriptors.extractServiceNameForCompatibility s = s.
Proof.
  intros Hs. unfold Descriptors.extractServiceNameForCompatibility.
  now rewrite (SplitByte_whole s _ Hs).
Qed.

(** The shapes of a name: no dot, one dot, or more. *)
Lemma name_shapes (x : string) :
  occurs "." x = false \/
  (exists p s, occurs "." p = false /\ occurs "." s = false /\
               x = p +:+ "." +:+ s) \/
  (exists pre p s, occurs "." p = false /\ occurs "." s = false /\
                   x = pre +:+ "." +:+ p +:+ "." +:+ s).
Proof.
  destruct (occurs "." x) eqn:Hx; [|now left]. right.
  destruct (occurs_true_split x Hx) as (a & s & -> & Hs).
  destruct (occurs "." a) eqn:Ha.
  - right. destruct (occurs_true_split a Ha) as (pre & p & -> & Hp).
    exists pre, p, s. split; [exact Hp|]. split; [exact Hs|].
    now rewrite <- !append_assoc.
  - left. exists a, s. auto.
Qed.

(** X1.  [extractServiceNameForCompatibility] keeps the last two
    dot-separated parts of a name: a name without a dot or with one dot is
    returned as it is, a longer name loses everything before its last two
    parts.  The function is idempotent. *)
Theorem service_name_last_two_parts (x : string) :
  (occurs "." x = false ->
   Descriptors.extractServiceNameForCompatibility x = x) /\
  (forall p s, occurs "." p = false -> occurs "." s = false ->
     Descriptors.extractServiceNameForCompatibility (p +:+ "." +:+ s)
     = p +:+ "." +:+ s /\
     forall pre,
       Descriptors.extractServiceNameForCompatibility
         (pre +:+ "." +:+ p +:+ "." +:+ s) = p +:+ "." +:+ s) /\
  Descriptors.extractServiceNameForCompatibility
    (Descriptors.extractServiceNameForCompatibility x) =
  Descriptors.extractServiceNameForCompatibility x.
Proof.
  split; [apply compat_no_dot|]. split.
  - intros p s Hp Hs. split; [now apply compat_two_parts|].
    intros pre. now apply compat_many_parts.
  - destruct (name_shapes x)
      as [Hx|[(p & s & Hp & Hs & ->)|(pre & p & s & Hp & Hs & ->)]].
    + now rewrite (compat_no_dot x Hx), (compat_no_dot x Hx).
    + now rewrite (compat_two_parts p s Hp Hs), (compat_two_parts p s Hp Hs).
    + now rewrite (compat_many_parts pre p s Hp Hs), (compat_two_parts p s Hp Hs).
Qed.

Lemma simple_name_of_dotted (a s : string) :
  occurs "." s = false ->
  Names.getSimpleServiceName (a +:+ "." +:+ s) = s.
Proof.
  intros Hs. unfold Names.getSimpleServiceName.
  change (a +:+ "." +:+ s) with (a +:+ String "." s).
  rewrite SplitByte_app, (SplitByte_whole s _ Hs).
  rewrite length_app. simpl.
  replace (length (Strs.SplitByte a ".") + 1 - 1)%nat
    with (length (Strs.SplitByte a ".") + 0)%nat by lia.
  rewrite app_nth2_plus. simpl.
  destruct (0 <? length (Strs.SplitByte a ".") + 1)%nat eqn:E;
    [reflexivity | apply Nat.ltb_ge in E; lia].
Qed.

(** X2.  [getSimpleServiceName] returns what follows the last dot of the
    name, and the whole name when it has no dot; its result has no dot. *)
Theorem simple_service_name (x : string) :
  (forall a s, occurs "." s = false ->
     Names.getSimpleServiceName (a +:+ "." +:+ s) = s) /\
  (occurs "." x = false -> Names.getSimpleServiceName x = x) /\
  occurs "." (Names.getSimpleServiceName x) = false.
Proof.
  assert (forall y, occurs "." y = false -> Names.getSimpleServiceName y = y)
    as Hplain.
  { intros y Hy. unfold Names.getSimpleServiceName.
    now rewrite (SplitByte_whole y _ Hy). }
  split; [intros a s; apply simple_name_of_dotted|]. split; [apply Hplain|].
  destruct (occurs "." x) eqn:Hx.
  - destruct (occurs_true_split x Hx) as (a & s & -> & Hs).
    now rewrite simple_name_of_dotted.
  - now rewrite Hplain.
Qed.

(** ** The reflection client *)

Lemma HasPrefix_app (s pre : string) :
  Strs.HasPrefix s pre = true <-> exists rest, s = pre +:+ rest.
Proof.
  unfold Strs.HasPrefix. revert s.
  induction pre as [|c pre IH]; intros s.
  - split; [intros _; now exists s|]. intros _. now destruct s.
  - destruct s as [|c' s]; simpl.
    + split; [discriminate|]. intros [rest H]. discriminate.
    + destruct (ascii_dec c c') as [->|Hne].
      * rewrite IH. split; intros [rest H]; exists rest.
        -- change (String c' s = String c' (pre +:+ rest)). now rewrite H.
        -- change (String c' s = String c' (pre +:+ rest)) in H. congruence.
      * split; [discriminate|]. intros [rest H].
        change (String c' s = String c (pre +:+ rest)) in H. congruence.
Qed.

Lemma isInternal_spec (s : string) :
  Reflection.isInternal s = false <->
  forall pre rest, In pre Reflection.internalPrefixes -> s <> pre +:+ rest.
Proof.
  split.
  - intros H pre rest Hpre ->.
    pose proof (isInternal_false _ _ H Hpre) as Hno.
    assert (Strs.HasPrefix (pre +:+ rest) pre = true) as Hyes
      by (apply HasPrefix_app; now exists rest).
    congruence.
  - intros H. unfold Reflection.isInternal.
    destruct (existsb _ _) eqn:E; [|reflexivity].
    apply existsb_exists in E as (pre & Hpre & Hpfx).
    apply HasPrefix_app in Hpfx as [rest ->]. now destruct (H pre rest Hpre).
Qed.

Lemma filterInternalServices_filter (services : list string) :
  Reflection.filterInternalServices services =
  List.filter (fun s => negb (Reflection.isInternal s)) services.
Proof.
  unfold Reflection.filterInternalServices.
  enough (forall acc,
            fold_left
              (fun filtered service =>
                 if negb (Reflection.isInternal service)
                 then filtered ++ [service] else filtered) services acc =
            acc ++ List.filter (fun s => negb (Reflection.isInternal s)) services)
    as H by apply (H []).
  induction services as [|s l IH]; intros acc; simpl.
  - now rewrite app_nil_r.
  - rewrite IH. destruct (negb (Reflection.isInternal s)); [|reflexivity].
    now rewrite <- app_assoc.
Qed.

(** X3.  [filterInternalServices] keeps, in their order, exactly the
    service names that start with none of the four internal prefixes;
    filtering twice changes nothing more. *)
Theorem internal_services_dropped (services : list string) :
  Reflection.filterInternalServices services =
  List.filter (fun s => negb (Reflection.isInternal s)) services /\
  (forall s, In s (Reflection.filterInternalServices services) <->
     In s services /\
     forall pre rest, In pre Reflection.internalPrefixes -> s <> pre +:+ rest) /\
  Reflection.filterInternalServices (Reflection.filterInternalServices services)
  = Reflection.filterInternalServices services.
Proof.
  split; [apply filterInternalServices_filter|]. split.
  - intros s. rewrite filterInternalServices_filter, filter_In, <- isInternal_spec.
    destruct (Reflection.isInternal s); simpl; intuition congruence.
  - rewrite !filterInternalServices_filter.
    induction services as [|s l IH]; simpl; [reflexivity|].
    destruct (negb (Reflection.isInternal s)) eqn:E; simpl; [|exact IH].
    now rewrite E, IH.
Qed.

(** One lookup sends at most one request, and only on a miss. *)
Lemma getFileDescriptorBySymbol_sent (B : Reflection.Backend)
    (r : Reflection.reflectionClient) (symbol : string) :
  let '(res, r') := Reflection.getFileDescriptorBySymbol B r symbol in
  (Reflection.sent r' = Reflection.sent r /\ r' = r /\
   is_Some (Reflection.fdCache r !! symbol)) \/
  (Reflection.sent r' =
     Reflection.sent r ++ [Reflection.FileContainingSymbolRequest symbol] /\
   Reflection.fdCache r !! symbol = None /\
   (forall e, res = Err e -> Reflection.fdCache r' = Reflection.fdCache r)).
Proof.
  unfold Reflection.getFileDescriptorBySymbol.
  destruct (Reflection.fdCache r !! symbol) as [fd|] eqn:Hc.
  - cbn beta iota. left. eauto.
  - destruct (Reflection.fileContainingSymbol_reply B _ symbol);
      cbn beta iota; right; simpl; (split; [reflexivity|]); (split; [reflexivity|]);
      intros e' He; [discriminate | reflexivity].
Qed.

(** The cache only grows. *)
Lemma getFileDescriptorBySymbol_grows (B : Reflection.Backend)
    (r : Reflection.reflectionClient) (symbol k : string) :
  is_Some (Reflection.fdCache r !! k) ->
  is_Some (Reflection.fdCache
             (Reflection.getFileDescriptorBySymbol B r symbol).2 !! k).
Proof.
  intros Hk. unfold Reflection.getFileDescriptorBySymbol.
  destruct (Reflection.fdCache r !! symbol) as [fd|]; [exact Hk|].
  destruct (Reflection.fileContainingSymbol_reply B _ symbol) as [fd|e];
    simpl; [|exact Hk].
  destruct (negb (String.eqb (Reflection.fp_Name fd) "")).
  - apply lookup_insert_is_Some'. right.
    apply lookup_insert_is_Some'. now right.
  - apply lookup_insert_is_Some'. now right.
Qed.

(** X4.  The descriptor cache of the reflection client: once a symbol has
    been answered, asking for it again returns the same file descriptor
    without any request, whatever the server would answer now; after a
    fetch from the server the file is also found under its own name; and
    the entries of other keys are kept. *)
Theorem descriptor_cache_reused (B B' : Reflection.Backend)
    (r r' : Reflection.reflectionClient) (symbol : string)
    (fd : Reflection.FileDescriptorProto) :
  Reflection.getFileDescriptorBySymbol B r symbol = (Ok fd, r') ->
  Reflection.getFileDescriptorBySymbol B' r' symbol = (Ok fd, r') /\
  (Reflection.fdCache r !! symbol = None -> Reflection.fp_Name fd <> "" ->
   Reflection.getFileDescriptorBySymbol B' r' (Reflection.fp_Name fd)
   = (Ok fd, r')) /\
  (forall k v, k <> Reflection.fp_Name fd ->
     Reflection.fdCache r !! k = Some v ->
     Reflection.fdCache r' !! k = Some v).
Proof.
  unfold Reflection.getFileDescriptorBySymbol at 1.
  destruct (Reflection.fdCache r !! symbol) as [fd0|] eqn:Hc.
  - intros [= -> ->]. split; [|split].
    + unfold Reflection.getFileDescriptorBySymbol. now rewrite Hc.
    + discriminate.
    + auto.
  - destruct (Reflection.fileContainingSymbol_reply B _ symbol) as [fd0|e];
      [|discriminate].
    intros [= -> <-].
    unfold Reflection.getFileDescriptorBySymbol. simpl.
    destruct (String.eqb (Reflection.fp_Name fd) "") eqn:En; simpl.
    + apply String.eqb_eq in En. split; [|split].
      * now rewrite lookup_insert_eq.
      * intros _ Hn. now destruct Hn.
      * intros k v _ Hk. rewrite lookup_insert_ne; [exact Hk|].
        intros <-. congruence.
    + apply String.eqb_neq in En. split; [|split].
      * destruct (decide (Reflection.fp_Name fd = symbol)) as [->|Hne].
        -- now rewrite lookup_insert_eq.
        -- now rewrite lookup_insert_ne, lookup_insert_eq.
      * intros _ _. now rewrite lookup_insert_eq.
      * intros k v Hkn Hk.
        rewrite lookup_insert_ne by congruence.
        rewrite lookup_insert_ne; [exact Hk|]. intros <-. congruence.
Qed.

(** A loop invariant that sees the part of the list already visited. *)
Lemma fold_left_prefix_invariant {A B : Type} (f : A -> B -> A)
    (P : list B -> A -> Prop) (l : list B) (a : A) :
  P [] a ->
  (forall pre b a, P pre a -> P (pre ++ [b]) (f a b)) ->
  P l (fold_left f l a).
Proof.
  intros H0 Hstep.
  enough (forall done, P done a -> P (done ++ l) (fold_left f l a)) as H
    by apply (H [] H0).
  clear H0. revert a. induction l as [|b l IH]; intros a done Hd; simpl.
  - now rewrite app_nil_r.
  - replace (done ++ b :: l) with ((done ++ [b]) ++ l)
      by now rewrite <- app_assoc.
    apply IH. now apply Hstep.
Qed.

Lemma collect_files_requests (B : Reflection.Backend)
    (r : Reflection.reflectionClient) (services : list string) :
  exists requested,
    Reflection.sent (Reflection.collect_files B r services).2 =
      Reflection.sent r ++ map Reflection.FileContainingSymbolRequest requested /\
    sublist requested services /\
    (forall s, In s requested -> Reflection.fdCache r !! s = None) /\
    (forall k, is_Some (Reflection.fdCache r !! k) ->
               is_Some (Reflection.fdCache
                          (Reflection.collect_files B r services).2 !! k)).
Proof.
  unfold Reflection.collect_files.
  apply (fold_left_prefix_invariant _
           (fun pre st =>
              exists requested,
                Reflection.sent st.2 =
                  Reflection.sent r ++
                  map Reflection.FileContainingSymbolRequest requested /\
                sublist requested pre /\
                (forall s, In s requested -> Reflection.fdCache r !! s = None) /\
                (forall k, is_Some (Reflection.fdCache r !! k) ->
                           is_Some (Reflection.fdCache st.2 !! k)))).
  - exists []. simpl. rewrite app_nil_r.
    split; [reflexivity|]. split; [constructor|]. split; [intros s []|auto].
  - intros pre b [m r1] (requested & Hsent & Hsub & Hnew & Hgrow).
    simpl in Hsent, Hgrow.
    pose proof (getFileDescriptorBySymbol_sent B r1 b) as Hs.
    pose proof (getFileDescriptorBySymbol_grows B r1 b) as Hg.
    cbn beta iota.
    destruct (Reflection.getFileDescriptorBySymbol B r1 b) as [[fd|e] r2];
      [destruct (m !! _)|]; simpl in *;
      (destruct Hs as [(Hs1 & -> & _)|(Hs1 & Hnone & _)];
       [ exists requested; split; [exact Hsent|];
         split; [now apply sublist_inserts_r|]; split; [exact Hnew|];
         intros k Hk; apply Hg, Hgrow, Hk
       | exists (requested ++ [b]);
         split; [now rewrite Hs1, Hsent, map_app, <- app_assoc|];
         split; [now apply sublist_app|];
         split; [|intros k Hk; apply Hg, Hgrow, Hk];
         intros s Hin; apply in_app_or in Hin as [Hin|[<-|[]]];
         [now apply Hnew|];
         destruct (Reflection.fdCache r !! b) eqn:Eb; [|reflexivity];
         destruct (Hgrow b) as [x Hx]; [eauto | congruence] ]).
Qed.

(** X5.  The requests of one [DiscoverMethods] round: one ListServices
    request first, then file-descriptor requests only, each for a listed
    service that passed the filter and that the cache did not hold, at most
    one per listed service and in their order.  When the listing fails
    nothing more is sent and the cache is as before; the cache never loses
    a key. *)
Theorem discovery_round_requests (B : Reflection.Backend)
    (r : Reflection.reflectionClient) :
  exists requested,
    Reflection.sent (Reflection.DiscoverMethods B r).2 =
      Reflection.sent r ++
      Reflection.ListServicesRequest ::
      map Reflection.FileContainingSymbolRequest requested /\
    (forall s, In s requested -> Reflection.fdCache r !! s = None) /\
    (forall k, is_Some (Reflection.fdCache r !! k) ->
               is_Some (Reflection.fdCache
                          (Reflection.DiscoverMethods B r).2 !! k)) /\
    match Reflection.listServices_reply B (Reflection.sent r) with
    | Ok names =>
        sublist requested (Reflection.filterInternalServices names) /\
        exists methods, (Reflection.DiscoverMethods B r).1 = Ok methods
    | Err e =>
        requested = [] /\
        (Reflection.DiscoverMethods B r).1 =
          Err (Wrapf "failed to list services" e) /\
        Reflection.fdCache (Reflection.DiscoverMethods B r).2 =
          Reflection.fdCache r
    end.
Proof.
  unfold Reflection.DiscoverMethods, Reflection.listServices.
  destruct (Reflection.listServices_reply B (Reflection.sent r))
    as [names|e]; cbn beta iota.
  - destruct (collect_files_requests B
                (Reflection.send r Reflection.ListServicesRequest)
                (Reflection.filterInternalServices names))
      as (requested & Hsent & Hsub & Hnew & Hgrow).
    destruct (Reflection.collect_files B _ _) as [files r2]. simpl in *.
    exists requested. split; [now rewrite Hsent, <- app_assoc|].
    split; [exact Hnew|]. split; [exact Hgrow|]. split; [exact Hsub|eauto].
  - exists []. simpl. split; [reflexivity|]. split; [intros s []|].
    split; [auto|]. auto.
Qed.

(** ** The catalog and its counts *)

Lemma build_tools_app (l : list Types.MethodInfo) (m : Types.MethodInfo) :
  Discovery.build_tools (l ++ [m]) =
  <[Types.ToolName m := m]> (Discovery.build_tools l).
Proof. unfold Discovery.build_tools. now rewrite fold_left_app. Qed.

Lemma build_tools_dom (methods : list Types.MethodInfo) (t : string) :
  is_Some (Discovery.build_tools methods !! t) <->
  In t (map Types.ToolName methods).
Proof.
  induction methods as [|m l IH] using rev_ind.
  - unfold Discovery.build_tools. simpl. rewrite lookup_empty.
    split; [intros [x Hx]; discriminate | intros []].
  - rewrite build_tools_app, map_app, in_app_iff, <- IH. simpl.
    rewrite lookup_insert_is_Some. split.
    + intros [->|[_ H]]; auto.
    + intros [H|[->|[]]]; [|now left].
      destruct (decide (Types.ToolName m = t)); auto.
Qed.

Lemma build_tools_last_wins (l l' : list Types.MethodInfo)
    (m : Types.MethodInfo) :
  (forall m', In m' l' -> Types.ToolName m' <> Types.ToolName m) ->
  Discovery.build_tools (l ++ m :: l') !! Types.ToolName m = Some m.
Proof.
  induction l' as [|x l' IH] using rev_ind; intros Hlater.
  - rewrite build_tools_app. now rewrite lookup_insert_eq.
  - replace (l ++ m :: l' ++ [x]) with ((l ++ m :: l') ++ [x])
      by now rewrite <- app_assoc.
    rewrite build_tools_app, lookup_insert_ne.
    + apply IH. intros m' Hm'. apply Hlater, in_or_app. now left.
    + apply Hlater, in_or_app. right. now left.
Qed.

Lemma build_tools_size (methods : list Types.MethodInfo) :
  size (Discovery.build_tools methods) <= length methods.
Proof.
  induction methods as [|m l IH] using rev_ind.
  - unfold Discovery.build_tools. simpl. rewrite map_size_empty. lia.
  - rewrite build_tools_app, length_app. simpl.
    destruct (Discovery.build_tools l !! Types.ToolName m) eqn:E.
    + rewrite (map_size_insert_Some _ _ _ (mk_is_Some _ _ E)). lia.
    + rewrite (map_size_insert_None _ _ _ E). lia.
Qed.

(** X6.  The catalog built from a list of records has exactly the tool
    names of the records as its keys; where several records have the same
    tool name the last one is the one stored, so a catalog built from
    records with distinct tool names holds every record, and the catalog
    never has more entries than there are records. *)
Theorem catalog_keys_and_collisions (methods : list Types.MethodInfo) :
  (forall t, is_Some (Discovery.build_tools methods !! t) <->
             In t (map Types.ToolName methods)) /\
  (forall l m l',
      methods = l ++ m :: l' ->
      (forall m', In m' l' -> Types.ToolName m' <> Types.ToolName m) ->
      Discovery.build_tools methods !! Types.ToolName m = Some m) /\
  (NoDup (map Types.ToolName methods) ->
   size (Discovery.build_tools methods) = length methods) /\
  size (Discovery.build_tools methods) <= length methods.
Proof.
  split; [apply build_tools_dom|]. split.
  - intros l m l' -> Hlater. now apply build_tools_last_wins.
  - split; [|apply build_tools_size].
    induction methods as [|m l IH] using rev_ind; intros Hnd.
    + unfold Discovery.build_tools. simpl. now rewrite map_size_empty.
    + rewrite map_app in Hnd. apply NoDup_app in Hnd as (Hl & Hfresh & _).
      rewrite build_tools_app, length_app. simpl.
      rewrite map_size_insert_None, (IH Hl); [lia|].
      destruct (Discovery.build_tools l !! Types.ToolName m) eqn:E;
        [|reflexivity].
      assert (In (Types.ToolName m) (map Types.ToolName l)) as Hin
        by (apply build_tools_dom; eauto).
      apply list_elem_of_In in Hin. destruct (Hfresh _ Hin). simpl. left.
Qed.

Lemma serviceNames_spec (tools : gmap string Types.MethodInfo) :
  Stats.serviceNames tools =
  list_to_set (map Types.ServiceName (map_to_list tools).*2).
Proof.
  unfold Stats.serviceNames.
  enough (forall (l : list (string * Types.MethodInfo)) (acc : gset string),
             fold_left (fun names '(_, method) =>
                          {[Types.ServiceName method]} ∪ names) l acc =
             list_to_set (map Types.ServiceName l.*2) ∪ acc) as H.
  { rewrite H. apply leibniz_equiv. now rewrite (right_id ∅ (∪)). }
  induction l as [|[k m] l IH]; intros acc; simpl.
  - apply leibniz_equiv. now rewrite (left_id ∅ (∪)).
  - rewrite IH. apply leibniz_equiv.
    rewrite (assoc (∪)). f_equiv. apply (comm (∪)).
Qed.

Lemma size_list_to_set_le (l : list string) :
  size (list_to_set l : gset string) <= length l.
Proof.
  induction l as [|x l IH].
  - rewrite list_to_set_nil, size_empty. simpl. lia.
  - rewrite list_to_set_cons, size_union_alt, size_singleton. cbn [length].
    pose proof (subseteq_size (list_to_set l ∖ {[x]}) (list_to_set l : gset string))
      as Hle.
    assert (list_to_set l ∖ {[x]} ⊆ (list_to_set l : gset string)) as Hsub
      by apply subseteq_difference_l, reflexivity.
    specialize (Hle Hsub). lia.
Qed.

(** X7.  The counts of the discoverer: the method count is the number of
    records [GetMethods] returns; the service count is the number of
    different service names among them, so it never exceeds the method count
    and is zero exactly when the catalog is empty; and [GetServiceStats]
    reports the same two counts together with each service name once. *)
Theorem catalog_counts (cm : Connection.connectionManager)
    (d : Discovery.serviceDiscoverer) :
  Stats.GetMethodCount d = length (Discovery.GetMethods d) /\
  Stats.GetServiceCount d <= Stats.GetMethodCount d /\
  (Stats.GetServiceCount d = 0 <-> Stats.GetMethodCount d = 0) /\
  Stats.serviceCount (Stats.GetServiceStats cm d) = Stats.GetServiceCount d /\
  Stats.methodCount (Stats.GetServiceStats cm d) = Stats.GetMethodCount d /\
  length (Stats.services (Stats.GetServiceStats cm d)) = Stats.GetServiceCount d /\
  NoDup (Stats.services (Stats.GetServiceStats cm d)) /\
  (forall s, In s (Stats.services (Stats.GetServiceStats cm d)) <->
             exists m, In m (Discovery.GetMethods d) /\ Types.ServiceName m = s).
Proof.
  unfold Stats.GetMethodCount, Stats.GetServiceCount, Stats.GetServiceStats,
    Discovery.GetMethods.
  destruct (Discovery.tools d) as [tools|]; simpl.
  2:{ split; [reflexivity|]. split; [lia|]. split; [lia|].
      split; [reflexivity|]. split; [reflexivity|]. split; [reflexivity|].
      split; [constructor|]. intros s. split; [intros []|].
      intros (m & [] & _). }
  rewrite serviceNames_spec.
  assert (size tools = length (map_to_list tools).*2) as Hlen
    by now rewrite length_fmap, length_map_to_list.
  pose proof (size_list_to_set_le
                (map Types.ServiceName (map_to_list tools).*2)) as Hle.
  rewrite length_map in Hle.
  split; [exact Hlen|]. split; [lia|]. split.
  - split; [|lia]. intros H0. apply size_empty_inv in H0.
    destruct ((map_to_list tools).*2) as [|m l] eqn:E; [simpl in Hlen; lia|].
    exfalso. simpl in H0.
    apply (not_elem_of_empty (C:=gset string) (Types.ServiceName m)).
    rewrite <- H0. apply elem_of_union_l, elem_of_singleton. reflexivity.
  - split; [reflexivity|]. split; [reflexivity|]. split; [reflexivity|].
    split; [apply NoDup_elements|].
    intros s. rewrite <- list_elem_of_In, elem_of_elements, elem_of_list_to_set.
    rewrite list_elem_of_In, in_map_iff. split.
    + intros (m & Hs & Hm). eauto.
    + intros (m & Hm & Hs). eauto.
Qed.

(** ** Invocation through the catalog *)

Lemma InvokeMethod_client (B : Reflection.Backend)
    (r : Reflection.reflectionClient) (headers : list (string * string))
    (method : Types.MethodInfo) (inputJSON : string) :
  Reflection.fdCache
    (Reflection.InvokeMethod B r headers method inputJSON).2 =
  Reflection.fdCache r /\
  (Reflection.sent (Reflection.InvokeMethod B r headers method inputJSON).2 =
     Reflection.sent r \/
   exists path input,
     Reflection.grpcMethodName method = Some path /\
     Reflection.sent (Reflection.InvokeMethod B r headers method inputJSON).2 =
       Reflection.sent r ++ [Reflection.UnaryCall headers path input]).
Proof.
  unfold Reflection.InvokeMethod.
  destruct (if negb (String.eqb inputJSON "") && negb (String.eqb inputJSON "{}")
            then _ else _) as [input|e]; [|simpl; auto].
  destruct (Reflection.grpcMethodName method) as [path|]; [|simpl; auto].
  destruct (Reflection.unary_reply B _ _ _ _) as [outputMsg|e];
    [destruct (Reflection.protojson_Marshal B outputMsg)|];
    simpl; (split; [reflexivity|]); right; eauto.
Qed.

(** X8.  A tool call never touches the catalog, the loader, the
    configuration or the descriptor cache of the discoverer; it sends
    nothing or exactly one unary call, and a call is sent only for a
    catalogued method that does not stream, to the path of that method; a
    tool name that is not in the catalog is answered by an error that names
    it, with the discoverer left as it was. *)
Theorem tool_call_effects (B : Reflection.Backend)
    (d : Discovery.serviceDiscoverer) (headers : list (string * string))
    (toolName inputJSON : string) :
  Discovery.tools (Discovery.InvokeMethodByTool B d headers toolName inputJSON).2
    = Discovery.tools d /\
  Discovery.descriptorLoader
    (Discovery.InvokeMethodByTool B d headers toolName inputJSON).2
    = Discovery.descriptorLoader d /\
  Discovery.descriptorConfig
    (Discovery.InvokeMethodByTool B d headers toolName inputJSON).2
    = Discovery.descriptorConfig d /\
  option_map Reflection.fdCache
    (Discovery.reflectionClient
       (Discovery.InvokeMethodByTool B d headers toolName inputJSON).2)
    = option_map Reflection.fdCache (Discovery.reflectionClient d) /\
  (Discovery.sent_by
     (Discovery.InvokeMethodByTool B d headers toolName inputJSON).2
     = Discovery.sent_by d \/
   exists method path input,
     Discovery.getMethodByTool d toolName = Some method /\
     Types.IsClientStreaming method || Types.IsServerStreaming method = false /\
     Reflection.grpcMethodName method = Some path /\
     Discovery.sent_by
       (Discovery.InvokeMethodByTool B d headers toolName inputJSON).2
     = Discovery.sent_by d ++ [Reflection.UnaryCall headers path input]) /\
  (Discovery.getMethodByTool d toolName = None ->
   Discovery.InvokeMethodByTool B d headers toolName inputJSON =
   (Some (Err (Errorf ("tool " +:+ toolName +:+ " not found"))), d)).
Proof.
  unfold Discovery.InvokeMethodByTool.
  destruct (Discovery.getMethodByTool d toolName) as [method|] eqn:Hm;
    [|simpl; auto 10].
  destruct (Types.IsClientStreaming method || Types.IsServerStreaming method)
    eqn:Hs; [simpl; repeat split; auto; discriminate|].
  destruct (Discovery.reflectionClient d) as [r|] eqn:Hr;
    [|simpl; rewrite Hr; repeat split; auto; discriminate].
  destruct (InvokeMethod_client B r headers method inputJSON) as [Hc Hsent].
  destruct (Reflection.InvokeMethod B r headers method inputJSON)
    as [[[res|e]|] r']; simpl in *;
    (split; [reflexivity|]); (split; [reflexivity|]); (split; [reflexivity|]);
    (split; [now rewrite Hc|]); (split; [|discriminate]);
    unfold Discovery.sent_by; rewrite Hr; simpl;
    (destruct Hsent as [Hsent|(path & input & Hp & Hsent)];
     [now left | right; exists method, path, input; auto]).
Qed.

Lemma dotted_name_has_path (m : Types.MethodInfo) :
  occurs "." (Types.FullName m) = true ->
  exists path, Reflection.grpcMethodName m = Some path.
Proof.
  intros H. destruct (occurs_true_split _ H) as (svc & rest & Hfull & Hrest).
  exists ("/" +:+ svc +:+ "/" +:+ Types.Name m).
  apply grpcMethodName_spec. eauto.
Qed.

(** X9.  After a successful discovery round no tool call panics, whatever
    the tool name, the headers and the input are and whatever the server
    answers: every record of the published catalog has a dot in its full
    name, so the slice expression of the method path is in range. *)
Theorem discovered_tools_never_panic (B B' : Reflection.Backend)
    (d d' : Discovery.serviceDiscoverer) (headers : list (string * string))
    (toolName inputJSON : string) :
  Discovery.DiscoverServices B d = (Ok tt, d') ->
  loader_names_services d ->
  exists res,
    (Discovery.InvokeMethodByTool B' d' headers toolName inputJSON).1
    = Some res.
Proof.
  intros Hround Hnamed. unfold Discovery.InvokeMethodByTool.
  destruct (Discovery.getMethodByTool d' toolName) as [method|] eqn:Hm;
    [|simpl; eauto].
  destruct (_ || _); [simpl; eauto|].
  destruct (Discovery.reflectionClient d') as [r|]; [|simpl; eauto].
  assert (well_named method) as [_ Hdot].
  { unfold Discovery.getMethodByTool in Hm.
    destruct (Discovery.tools d') as [cat|] eqn:Hcat; [|discriminate].
    destruct (DiscoverServices_catalog B d d' cat toolName method Hround Hcat Hm)
      as [_ [Hoff|(r0 & names & _ & _ & _ & Hrec)]].
    - apply offline_methods_elems in Hoff as (fdSet & files & Hl & Hb & Hrec).
      eapply offline_record_well_named; eauto.
    - eapply reflection_record_well_named; eauto. }
  destruct (dotted_name_has_path method Hdot) as [path Hpath].
  pose proof (InvokeMethod_sent B' r) as Hinv.
  destruct (Reflection.InvokeMethod B' r headers method inputJSON)
    as [[[res|e]|] r'] eqn:E; simpl; eauto.
  destruct (Hinv _ _ _ _ _ E) as [(_ & [[e He]|[_ Hnone]])|(p & i & _ & _ & _ & Hout)];
    congruence.
Qed.

(** X10.  The call path of a record of the offline path is made of the
    full name of the service as the descriptor gives it, not of the
    shortened [ServiceName] the record carries. *)
Theorem offline_record_call_path (serviceName serviceDescription : string)
    (svc : Protoreflect.ServiceDescriptor) (md : Protoreflect.MethodDescriptor) :
  Protoreflect.service_FullName svc <> "" ->
  occurs "." (Protoreflect.method_Name md) = false ->
  Reflection.grpcMethodName
    (Descriptors.methodInfo_of serviceName serviceDescription svc md) =
  Some ("/" +:+ Protoreflect.service_FullName svc +:+ "/"
            +:+ Protoreflect.method_Name md).
Proof.
  intros Hname Hdot. apply grpcMethodName_spec.
  exists (Protoreflect.service_FullName svc), (Protoreflect.method_Name md).
  simpl. unfold Protoreflect.method_FullName, Protoreflect.FullName_Append.
  apply String.eqb_neq in Hname. rewrite Hname. auto.
Qed.

(** X11.  [ExtractMethodInfo] never fails and returns one record per
    method, in the order of the files, of their services and of the methods
    of each service; the slice is nil exactly when there is no method. *)
Theorem offline_records_in_order (files : list Protoreflect.FileDescriptor) :
  exists methods,
    Descriptors.ExtractMethodInfo files = Ok methods /\
    Slice.elems methods =
      flat_map
        (fun fd =>
           flat_map
             (fun svc =>
                map (Descriptors.methodInfo_of
                       (Descriptors.extractServiceNameForCompatibility
                          (Protoreflect.service_FullName svc))
                       (Descriptors.extractComments
                          (Protoreflect.service_Location svc)) svc)
                  (Protoreflect.service_Methods svc))
             (Protoreflect.file_Services fd))
        files /\
    (Slice.is_nil methods = true <->
     forall fd svc, In fd files -> In svc (Protoreflect.file_Services fd) ->
                    Protoreflect.service_Methods svc = []).
Proof.
  destruct (Descriptors.ExtractMethodInfo files) as [methods|e] eqn:E;
    [|discriminate].
  exists methods. split; [reflexivity|].
  pose proof (ExtractMethodInfo_grown files methods E) as Hgrown.
  assert (Slice.elems methods =
          flat_map
            (fun fd =>
               flat_map
                 (fun svc =>
                    map (Descriptors.methodInfo_of
                           (Descriptors.extractServiceNameForCompatibility
                              (Protoreflect.service_FullName svc))
                           (Descriptors.extractComments
                              (Protoreflect.service_Location svc)) svc)
                      (Protoreflect.service_Methods svc))
                 (Protoreflect.file_Services fd))
            files) as Helems.
  { unfold Descriptors.ExtractMethodInfo in E. injection E as <-.
    enough (forall acc,
               Slice.elems
                 (fold_left
                    (fun methods fd =>
                       fold_left Descriptors.extract_service
                         (Protoreflect.file_Services fd) methods) files acc) =
               Slice.elems acc ++
               flat_map
                 (fun fd =>
                    flat_map
                      (fun svc =>
                         map (Descriptors.methodInfo_of
                                (Descriptors.extractServiceNameForCompatibility
                                   (Protoreflect.service_FullName svc))
                                (Descriptors.extractComments
                                   (Protoreflect.service_Location svc)) svc)
                           (Protoreflect.service_Methods svc))
                      (Protoreflect.file_Services fd))
                 files) as H by apply (H Slice.nil).
    clear. induction files as [|fd files IH]; intros acc; simpl.
    - now rewrite app_nil_r.
    - rewrite IH, app_assoc. f_equal.
      generalize acc. clear.
      induction (Protoreflect.file_Services fd) as [|svc svcs IHs];
        intros acc; simpl.
      + now rewrite app_nil_r.
      + now rewrite IHs, extract_service_elems, app_assoc. }
  split; [exact Helems|].
  unfold grown in Hgrown. rewrite Hgrown, Helems. split.
  - intros Hnil fd svc Hfd Hsvc.
    destruct (Protoreflect.service_Methods svc) as [|md mds] eqn:Hm;
      [reflexivity|].
    assert (In (Descriptors.methodInfo_of
                  (Descriptors.extractServiceNameForCompatibility
                     (Protoreflect.service_FullName svc))
                  (Descriptors.extractComments
                     (Protoreflect.service_Location svc)) svc md)
               []) as [].
    rewrite <- Hnil. apply in_flat_map. exists fd. split; [exact Hfd|].
    apply in_flat_map. exists svc. split; [exact Hsvc|].
    rewrite Hm. now left.
  - intros Hnone.
    destruct (flat_map _ files) as [|m ms] eqn:Hf; [reflexivity|].
    assert (In m (m :: ms)) as Hin by now left.
    rewrite <- Hf in Hin.
    apply in_flat_map in Hin as (fd & Hfd & Hin).
    apply in_flat_map in Hin as (svc & Hsvc & Hin).
    rewrite (Hnone fd svc Hfd Hsvc) in Hin. destruct Hin.
Qed.

(** ** Building tools *)

Lemma generateDescription_nonempty (method : Types.MethodInfo) :
  String.eqb (Tools.generateDescription method) "" = false.
Proof.
  unfold Tools.generateDescription.
  destruct (String.eqb (Types.Description method) "") eqn:E; simpl.
  - reflexivity.
  - exact E.
Qed.

(** The outcome of [BuildTool], by the tool name alone. *)
Lemma BuildTool_outcome (pool : list Protoreflect.MessageDescriptor)
    (method : Types.MethodInfo) :
  exists input output,
    Tools.ExtractMessageSchema pool
      (Tools.Message_of pool (Types.InputDescriptor method)) = Some (Ok input) /\
    Tools.ExtractMessageSchema pool
      (Tools.Message_of pool (Types.OutputDescriptor method)) = Some (Ok output) /\
    Tools.BuildTool pool method =
    Some (if Strs.Contains (Types.GenerateToolName method) "_"
          then Ok {| Tools.tool_Name := Types.GenerateToolName method;
                     Tools.tool_Description := Tools.generateDescription method;
                     Tools.tool_InputSchema := Some input;
                     Tools.tool_OutputSchema := Some output |}
          else Err (Wrapf "tool validation failed"
                      (if String.eqb (Types.GenerateToolName method) ""
                       then Errorf "tool name cannot be empty"
                       else Errorf "tool name must contain underscore separator"))).
Proof.
  destruct (ExtractMessageSchema_total pool
              (Tools.Message_of pool (Types.InputDescriptor method)))
    as [input Hin].
  destruct (ExtractMessageSchema_total pool
              (Tools.Message_of pool (Types.OutputDescriptor method)))
    as [output Hout].
  exists input, output. split; [exact Hin|]. split; [exact Hout|].
  unfold Tools.BuildTool. rewrite Hin, Hout.
  unfold Tools.validateTool. cbn [Tools.tool_Name Tools.tool_Description
                                   Tools.tool_InputSchema].
  rewrite generateDescription_nonempty.
  destruct (String.eqb (Types.GenerateToolName method) "") eqn:E.
  - apply String.eqb_eq in E. rewrite E. reflexivity.
  - destruct (Strs.Contains (Types.GenerateToolName method) "_"); reflexivity.
Qed.

(** X12.  [BuildTool] returns a tool exactly when the tool name of the
    method contains an underscore: the two schemas are always produced, and
    the description is never empty, so of the four checks of [validateTool]
    only the checks of the name can fail.  The tool carries the tool name,
    the description and the two schemas. *)
Theorem tool_built_iff_underscore (pool : list Protoreflect.MessageDescriptor)
    (method : Types.MethodInfo) :
  String.eqb (Tools.generateDescription method) "" = false /\
  ((exists tool, Tools.BuildTool pool method = Some (Ok tool)) <->
   Strs.Contains (Types.GenerateToolName method) "_" = true) /\
  (forall tool,
      Tools.BuildTool pool method = Some (Ok tool) ->
      Tools.tool_Name tool = Types.GenerateToolName method /\
      Tools.tool_Description tool = Tools.generateDescription method /\
      option_map Ok (Tools.tool_InputSchema tool) =
        Tools.ExtractMessageSchema pool
          (Tools.Message_of pool (Types.InputDescriptor method)) /\
      option_map Ok (Tools.tool_OutputSchema tool) =
        Tools.ExtractMessageSchema pool
          (Tools.Message_of pool (Types.OutputDescriptor method))) /\
  (forall e,
      Tools.BuildTool pool method = Some (Err e) ->
      e = Wrapf "tool validation failed"
            (Errorf "tool name cannot be empty") \/
      e = Wrapf "tool validation failed"
            (Errorf "tool name must contain underscore separator")).
Proof.
  split; [apply generateDescription_nonempty|].
  destruct (BuildTool_outcome pool method) as (input & output & Hin & Hout & ->).
  destruct (Strs.Contains (Types.GenerateToolName method) "_").
  - split; [split; eauto|]. split.
    + intros tool [= <-]. simpl. now rewrite Hin, Hout.
    + discriminate.
  - split; [split; [intros [tool H]|]; discriminate|]. split; [discriminate|].
    intros e [= <-].
    destruct (String.eqb (Types.GenerateToolName method) ""); auto.
Qed.

(** The methods [BuildTools] makes a tool of. *)
Lemma build_loop_spec (pool : list Protoreflect.MessageDescriptor)
    (methods : list Types.MethodInfo) (acc : list Tools.Tool) :
  exists tools,
    Listing.build_loop pool methods acc = Some (acc ++ tools) /\
    map (fun tool => Some (Ok tool)) tools =
    map (Tools.BuildTool pool)
      (List.filter
         (fun method =>
            negb (Types.IsClientStreaming method
                  || Types.IsServerStreaming method)
            && Strs.Contains (Types.GenerateToolName method) "_")
         methods).
Proof.
  revert acc. induction methods as [|method rest IH]; intros acc; simpl.
  - exists []. now rewrite app_nil_r.
  - destruct (Types.IsClientStreaming method || Types.IsServerStreaming method);
      simpl; [apply IH|].
    destruct (BuildTool_outcome pool method) as (input & output & _ & _ & Hb).
    rewrite Hb.
    destruct (Strs.Contains (Types.GenerateToolName method) "_");
      [|apply IH].
    destruct (IH (acc ++ [{| Tools.tool_Name := Types.GenerateToolName method;
                            Tools.tool_Description :=
                              Tools.generateDescription method;
                            Tools.tool_InputSchema := Some input;
                            Tools.tool_OutputSchema := Some output |}]))
      as (tools & -> & Htools).
    eexists (_ :: tools). rewrite <- app_assoc. split; [reflexivity|].
    simpl. now rewrite Htools, Hb.
Qed.

Lemma built_names (pool : list Protoreflect.MessageDescriptor)
    (methods : list Types.MethodInfo) (tools : list Tools.Tool) :
  map (fun tool => Some (Ok tool)) tools = map (Tools.BuildTool pool) methods ->
  map Tools.tool_Name tools = map Types.GenerateToolName methods.
Proof.
  revert tools. induction methods as [|method l IH]; intros tools Htools.
  - destruct tools; [reflexivity | discriminate].
  - destruct tools as [|tool tools]; [discriminate|].
    simpl in Htools. injection Htools as Htool Htools.
    simpl. rewrite (IH tools Htools). f_equal.
    destruct (BuildTool_outcome pool method) as (input & output & _ & _ & Hb).
    rewrite Hb in Htool.
    destruct (Strs.Contains (Types.GenerateToolName method) "_");
      [|discriminate].
    now injection Htool as ->.
Qed.

(** X13.  [BuildTools] never fails: it returns, in the order of the
    methods, the tool of each method that does not stream and whose tool
    name contains an underscore, and nothing for any other method. *)
Theorem tools_of_unary_methods (pool : list Protoreflect.MessageDescriptor)
    (methods : list Types.MethodInfo) :
  exists tools,
    Listing.BuildTools pool methods = Some (Ok tools) /\
    map (fun tool => Some (Ok tool)) tools =
    map (Tools.BuildTool pool)
      (List.filter
         (fun method =>
            negb (Types.IsClientStreaming method
                  || Types.IsServerStreaming method)
            && Strs.Contains (Types.GenerateToolName method) "_")
         methods) /\
    map Tools.tool_Name tools =
    map Types.GenerateToolName
      (List.filter
         (fun method =>
            negb (Types.IsClientStreaming method
                  || Types.IsServerStreaming method)
            && Strs.Contains (Types.GenerateToolName method) "_")
         methods).
Proof.
  unfold Listing.BuildTools.
  destruct (build_loop_spec pool methods []) as (tools & -> & Htools).
  exists tools. split; [reflexivity|]. split; [exact Htools|].
  now apply (built_names pool).
Qed.

Lemma discovered_record_well_named (B : Reflection.Backend)
    (d d' : Discovery.serviceDiscoverer) (m : Types.MethodInfo) :
  Discovery.DiscoverServices B d = (Ok tt, d') ->
  loader_names_services d ->
  In m (Discovery.GetMethods d') -> well_named m.
Proof.
  intros Hround Hnamed Hm. unfold Discovery.GetMethods in Hm.
  destruct (Discovery.tools d') as [cat|] eqn:Hcat; [|destruct Hm].
  apply list_elem_of_In, list_elem_of_fmap in Hm as ([t m'] & -> & Hm).
  apply elem_of_map_to_list in Hm. simpl.
  destruct (DiscoverServices_catalog B d d' cat t m' Hround Hcat Hm)
    as [_ [Hoff|(r0 & names & _ & _ & _ & Hrec)]].
  - apply offline_methods_elems in Hoff as (fdSet & files & Hl & Hb & Hrec).
    eapply offline_record_well_named; eauto.
  - eapply reflection_record_well_named; eauto.
Qed.

(** X14.  After a successful discovery round, the tools list holds one tool
    for each record of the catalog that does not stream, named by the tool
    name of the record, in the order of [GetMethods]; it never fails. *)
Theorem tools_list_after_discovery (B : Reflection.Backend)
    (pool : list Protoreflect.MessageDescriptor)
    (d d' : Discovery.serviceDiscoverer) :
  Discovery.DiscoverServices B d = (Ok tt, d') ->
  loader_names_services d ->
  exists tools,
    Listing.handleToolsList pool d' = Some (Ok tools) /\
    map Tools.tool_Name tools =
    map Types.ToolName
      (List.filter
         (fun method =>
            negb (Types.IsClientStreaming method
                  || Types.IsServerStreaming method))
         (Discovery.GetMethods d')).
Proof.
  intros Hround Hnamed. unfold Listing.handleToolsList, Listing.BuildTools.
  destruct (build_loop_spec pool (Discovery.GetMethods d') [])
    as (tools & -> & Htools).
  exists tools. split; [reflexivity|].
  rewrite (built_names pool _ _ Htools).
  assert (forall m, In m (Discovery.GetMethods d') -> well_named m) as Hwn
    by (intros m; now apply (discovered_record_well_named B d d')).
  clear Htools. revert Hwn. generalize (Discovery.GetMethods d') as l.
  induction l as [|m l IH]; intros Hwn; simpl; [reflexivity|].
  destruct (Hwn m (or_introl eq_refl)) as [Htool Hdot].
  rewrite (GenerateToolName_underscore m Hdot), andb_true_r.
  destruct (negb _); simpl.
  - rewrite Htool. f_equal. apply IH. intros m' Hm'. apply Hwn. now right.
  - apply IH. intros m' Hm'. apply Hwn. now right.
Qed.

(** ** The shape of a schema *)

Lemma jget_jset (k k' : string) (v : json) (l : list (string * json)) :
  jget k (jset k' v l) = if String.eqb k' k then Some v else jget k l.
Proof.
  induction l as [|[k0 v0] l IH]; simpl; [reflexivity|].
  destruct (String.eqb k0 k') eqn:E0; simpl.
  - apply String.eqb_eq in E0. subst k0.
    destruct (String.eqb k' k); reflexivity.
  - rewrite IH. destruct (String.eqb k0 k) eqn:E1; [|reflexivity].
    apply String.eqb_eq in E1. subst k0.
    destruct (String.eqb k' k) eqn:E2; [|reflexivity].
    apply String.eqb_eq in E2. subst k'. now rewrite String.eqb_refl in E0.
Qed.

Lemma jset_keys (k k' : string) (v : json) (l : list (string * json)) :
  In k' (map fst (jset k v l)) <-> k' = k \/ In k' (map fst l).
Proof.
  induction l as [|[k0 v0] l IH]; simpl; [intuition|].
  destruct (String.eqb k0 k) eqn:E0; simpl.
  - apply String.eqb_eq in E0. subst k0. intuition.
  - rewrite IH. intuition.
Qed.

Lemma jset_NoDup (k : string) (v : json) (l : list (string * json)) :
  NoDup (map fst l) -> NoDup (map fst (jset k v l)).
Proof.
  induction l as [|[k0 v0] l IH]; simpl; intros Hnd.
  - apply NoDup_singleton.
  - apply NoDup_cons in Hnd as [Hk0 Hnd].
    destruct (String.eqb k0 k) eqn:E0; simpl.
    + apply String.eqb_eq in E0. subst k0. now apply NoDup_cons.
    + apply NoDup_cons. split; [|now apply IH].
      rewrite list_elem_of_In, jset_keys. intros [->|Hin].
      * now rewrite String.eqb_refl in E0.
      * now apply Hk0, list_elem_of_In.
Qed.

Section Shape.
Import Types Protoreflect.
Variable pool : list MessageDescriptor.
Variable rec : MessageDescriptor -> Tools.step json.
Hypothesis Hrec : restores rec.

Lemma fields_loop_properties (fields : list FieldDescriptor)
    (properties properties' : list (string * json))
    (required required' : list string) (v v' : gset string) :
  Tools.fields_loop pool rec fields properties required v =
    Some (properties', required', v') ->
  (forall k, In k (map fst properties') <->
             In k (map fst properties) \/
             exists f, In f fields /\ fd_Name f = k /\ supported f = true) /\
  (NoDup (map fst properties) -> NoDup (map fst properties')).
Proof.
  revert properties required v.
  induction fields as [|f fields IH]; intros properties required v; simpl.
  - intros [= <- _ _]. split; [|auto]. intros k. split; [auto|].
    intros [H|(f & [] & _)]. exact H.
  - destruct (Tools.extractFieldSchemaInternal pool rec f v)
      as [[r v1]|] eqn:E; [|discriminate].
    pose proof (field_Ok pool rec Hrec _ _ _ _ E) as Hok.
    destruct r as [s|e]; simpl in Hok; intros H; apply IH in H as [Hkeys Hnd].
    + split.
      * intros k. rewrite Hkeys, jset_keys. split.
        -- intros [[->|Hk]|(f' & Hf' & Hn & Hs)]; eauto 6.
        -- intros [Hk|(f' & [<-|Hf'] & Hn & Hs)]; eauto 6.
      * intros Hp. now apply Hnd, jset_NoDup.
    + split; [|exact Hnd].
      intros k. rewrite Hkeys. split.
      * intros [Hk|(f' & Hf' & Hn & Hs)]; eauto 6.
      * intros [Hk|(f' & [<-|Hf'] & Hn & Hs)]; eauto 6. congruence.
Qed.

Lemma oneofs_loop_properties (oneofs : list OneofDescriptor)
    (properties properties' : list (string * json)) (v v' : gset string) :
  Tools.oneofs_loop pool rec oneofs properties v = Some (properties', v') ->
  (forall k, In k (map fst properties') <->
             In k (map fst properties) \/
             exists o, In o oneofs /\ oneof_Name o = k) /\
  (NoDup (map fst properties) -> NoDup (map fst properties')).
Proof.
  revert properties v.
  induction oneofs as [|o oneofs IH]; intros properties v; simpl.
  - intros [= <- _]. split; [|auto]. intros k. split; [auto|].
    intros [H|(o & [] & _)]. exact H.
  - destruct (Tools.oneof_options pool rec (oneof_Fields o) [] v)
      as [[options v1]|]; [|discriminate].
    intros H. apply IH in H as [Hkeys Hnd]. split.
    + intros k. rewrite Hkeys, jset_keys. split.
      * intros [[->|Hk]|(o' & Ho' & Hn)]; eauto 6.
      * intros [Hk|(o' & [<-|Ho'] & Hn)]; eauto 6.
    + intros Hp. now apply Hnd, jset_NoDup.
Qed.

Lemma message_body_shape (m : MessageDescriptor) (v v' : gset string)
    (schema : json) :
  Tools.message_body pool rec m v = Some (schema, v') ->
  jfield "type" schema = Some (JStr "object") /\
  jfield "description" schema = description_of (msg_Location m) /\
  NoDup (properties_of schema) /\
  (forall k, In k (properties_of schema) <->
             (exists f, In f (msg_Fields m) /\ fd_Name f = k /\
                        supported f = true) \/
             (exists o, In o (msg_Oneofs m) /\ oneof_Name o = k)).
Proof.
  unfold Tools.message_body.
  destruct (Tools.fields_loop pool rec (msg_Fields m) [] [] v)
    as [[[properties required] v1]|] eqn:E1; [|discriminate].
  destruct (Tools.oneofs_loop pool rec (msg_Oneofs m) properties v1)
    as [[properties' v2]|] eqn:E2; [|discriminate].
  apply fields_loop_properties in E1 as [Hk1 Hn1].
  apply oneofs_loop_properties in E2 as [Hk2 Hn2].
  intros [= <- _]. split; [reflexivity|]. split; [|split].
  - unfold description_of. simpl.
    destruct (String.eqb (Tools.extractComments (msg_Location m)) "");
      simpl; [|reflexivity].
    destruct (0 <? length required)%nat; reflexivity.
  - unfold properties_of. simpl. apply Hn2, Hn1. constructor.
  - intros k. unfold properties_of. simpl. rewrite Hk2, Hk1. simpl. tauto.
Qed.

End Shape.

(** X15.  The schema of a message is an object schema; its properties are
    named, each name once, by the fields of the message whose kind is
    supported and by its oneofs; and it carries the comments of the message
    as its description exactly when there are any. *)
Theorem schema_of_a_message (pool : list Protoreflect.MessageDescriptor)
    (m : Protoreflect.MessageDescriptor) (schema : json) :
  Tools.ExtractMessageSchema pool m = Some (Ok schema) ->
  jfield "type" schema = Some (JStr "object") /\
  jfield "description" schema = description_of (Protoreflect.msg_Location m) /\
  NoDup (properties_of schema) /\
  (forall k, In k (properties_of schema) <->
             (exists f, In f (Protoreflect.msg_Fields m) /\
                        Protoreflect.fd_Name f = k /\ supported f = true) \/
             (exists o, In o (Protoreflect.msg_Oneofs m) /\
                        Protoreflect.oneof_Name o = k)).
Proof.
  unfold Tools.ExtractMessageSchema.
  change (2 + size (Tools.pool_names pool))
    with (S (S (size (Tools.pool_names pool)))).
  remember (S (size (Tools.pool_names pool))) as depth eqn:Hdepth.
  simpl. case_bool_decide as Hin; [now apply not_elem_of_empty in Hin|].
  destruct (Tools.message_body pool _ m _) as [[schema' v1]|] eqn:E;
    [|discriminate].
  intros [= ->].
  exact (message_body_shape pool _ (extractMessage_restores pool depth)
           m _ _ _ E).
Qed.

(** X16.  What becomes of the comments of a field: a repeated field and a
    map field carry them as the description of their array or object
    schema; the schema of any other field is the schema of its type alone
    and does not depend on the comments of the field, so a singular field
    of a scalar kind has no description at all. *)
Theorem field_comments_in_schema (pool : list Protoreflect.MessageDescriptor)
    (rec : Protoreflect.MessageDescriptor -> Tools.step json)
    (f : Protoreflect.FieldDescriptor) (v : gset string) :
  (forall schema v',
      Tools.extractFieldSchemaInternal pool rec f v = Some (Ok schema, v') ->
      Protoreflect.fd_IsList f = true \/ Protoreflect.fd_IsMap f = true ->
      jfield "description" schema = description_of (Protoreflect.fd_Location f) /\
      jfield "type" schema =
        Some (JStr (if Protoreflect.fd_IsList f then "array" else "object"))) /\
  (Protoreflect.fd_IsList f = false -> Protoreflect.fd_IsMap f = false ->
   forall loc,
     Tools.extractFieldSchemaInternal pool rec (with_Location f loc) v =
     Tools.extractFieldSchemaInternal pool rec f v) /\
  (Protoreflect.fd_IsList f = false -> Protoreflect.fd_IsMap f = false ->
   scalar_kind (Protoreflect.fd_Kind f) = true ->
   exists schema,
     Tools.extractFieldSchemaInternal pool rec f v = Some (Ok schema, v) /\
     jfield "description" schema = None).
Proof.
  unfold Tools.extractFieldSchemaInternal, Protoreflect.fd_IsMap.
  split; [|split].
  - intros schema v'. unfold description_of.
    destruct (Protoreflect.fd_IsList f).
    + destruct (Tools.extractFieldTypeSchemaInternal pool rec f v)
        as [[[s|e] v1]|]; try discriminate.
      intros [= <- _] _. simpl. rewrite !jget_jset. simpl.
      destruct (String.eqb (Tools.extractComments _) ""); simpl; auto.
    + destruct (Protoreflect.fd_MapValue f) as [valueField|];
        [|intros _ [H|H]; discriminate].
      destruct (Tools.extractFieldTypeSchemaInternal pool rec valueField v)
        as [[[s|e] v1]|]; try discriminate.
      intros [= <- _] _. simpl. rewrite !jget_jset. simpl.
      destruct (String.eqb (Tools.extractComments _) ""); simpl; auto.
  - intros Hl Hm loc. destruct f; simpl in *. rewrite Hl.
    destruct fd_MapValue; [discriminate|]. reflexivity.
  - intros Hl Hm Hk. rewrite Hl.
    destruct (Protoreflect.fd_MapValue f); [discriminate|].
    unfold Tools.extractFieldTypeSchemaInternal.
    destruct (Protoreflect.fd_Kind f); try discriminate; eauto.
Qed.

Lemma enumDescriptions_empty (values : list Protoreflect.EnumValueDescriptor)
    (acc : list (string * json)) :
  fold_left
    (fun descriptions v =>
       if negb (String.eqb (Tools.extractComments (Protoreflect.ev_Location v)) "")
       then jset (Protoreflect.ev_Name v)
              (JStr (Tools.extractComments (Protoreflect.ev_Location v)))
              descriptions
       else descriptions) values acc = [] <->
  acc = [] /\
  forall v, In v values ->
            Tools.extractComments (Protoreflect.ev_Location v) = "".
Proof.
  revert acc. induction values as [|x values IH]; intros acc; simpl.
  - split; [intros ->; split; [reflexivity | intros v []] | now intros [-> _]].
  - rewrite IH.
    destruct (String.eqb (Tools.extractComments (Protoreflect.ev_Location x)) "")
      eqn:E; simpl.
    + apply String.eqb_eq in E. split.
      * intros [-> H]. split; [reflexivity|]. intros v [<-|Hv]; auto.
      * intros [-> H]. split; [reflexivity|]. auto.
    + apply String.eqb_neq in E. split.
      * intros [H _]. destruct acc as [|[k0 v0] acc]; simpl in H;
          [discriminate|]. destruct (String.eqb k0 _); discriminate.
      * intros [_ H]. destruct E. apply H. now left.
Qed.

(** X17.  The schema of an enum field is a string schema that lists the
    names of all the values of the enum in their order; it carries the
    comments of the enum as its description when there are any, and the map
    of value descriptions exactly when some value has comments. *)
Theorem enum_schema_lists_values (enumDesc : Protoreflect.EnumDescriptor) :
  jfield "type" (Tools.enum_schema enumDesc) = Some (JStr "string") /\
  jfield "enum" (Tools.enum_schema enumDesc) =
    Some (jstrings (map Protoreflect.ev_Name
                      (Protoreflect.enum_Values enumDesc))) /\
  jfield "description" (Tools.enum_schema enumDesc) =
    description_of (Protoreflect.enum_Location enumDesc) /\
  (jfield "enumDescriptions" (Tools.enum_schema enumDesc) = None <->
   forall v, In v (Protoreflect.enum_Values enumDesc) ->
             Tools.extractComments (Protoreflect.ev_Location v) = "").
Proof.
  unfold Tools.enum_schema, description_of, jstrings.
  pose proof (enumDescriptions_empty (Protoreflect.enum_Values enumDesc) [])
    as Hempty.
  destruct (fold_left _ (Protoreflect.enum_Values enumDesc) [])
    as [|d ds] eqn:Hd;
    destruct (String.eqb (Tools.extractComments
                            (Protoreflect.enum_Location enumDesc)) "");
    simpl; rewrite ?jget_jset; simpl; rewrite map_map;
    (split; [reflexivity|]); (split; [reflexivity|]); (split; [reflexivity|]).
  - split; [intros _; now apply Hempty | reflexivity].
  - split; [intros _; now apply Hempty | reflexivity].
  - split; [discriminate|]. intros H.
    assert (d :: ds = []) as Hnil by (apply Hempty; auto). discriminate.
  - split; [discriminate|]. intros H.
    assert (d :: ds = []) as Hnil by (apply Hempty; auto). discriminate.
Qed.

(** ** Connecting, probing and closing *)

Lemma first_change_longer (c : Connection.ClientConn) (src : Connection.State)
    (t n n' t' : nat) :
  Connection.first_change c src t n = Some t' -> n <= n' ->
  Connection.first_change c src t n' = Some t'.
Proof.
  revert t n'. induction n as [|n IH]; intros t n'; simpl.
  - destruct (negb _) eqn:E; [|discriminate].
    intros H _. destruct n'; simpl; now rewrite E.
  - destruct (negb _) eqn:E.
    + intros H _. destruct n'; simpl; now rewrite E.
    + intros H Hle. destruct n' as [|n']; [lia|]. simpl. rewrite E.
      apply IH; [exact H | lia].
Qed.

(** X18.  A longer deadline never turns a passed probe into a failed one,
    and the only verdict a longer deadline can change is that the state did
    not change in time; from five seconds on the deadline of the caller
    plays no part. *)
Theorem probe_deadline_monotone (cm : Connection.connectionManager)
    (d1 d2 : nat) :
  d1 <= d2 ->
  (Connection.healthCheckLocked cm (Some d1) = Ok tt ->
   Connection.healthCheckLocked cm (Some d2) = Ok tt /\
   Connection.healthCheckLocked cm None = Ok tt) /\
  (forall e,
      Connection.healthCheckLocked cm (Some d1) = Err e ->
      e <> Errorf "connection state did not change within timeout" ->
      Connection.healthCheckLocked cm (Some d2) = Err e) /\
  (Connection.five_seconds <= d1 ->
   Connection.healthCheckLocked cm (Some d1) =
   Connection.healthCheckLocked cm None).
Proof.
  intros Hle. unfold Connection.healthCheckLocked.
  destruct (Connection.conn cm) as [c|];
    [|split; [discriminate|]; split; [intros e [= <-] _|]; reflexivity].
  destruct (_ || _); [split; [discriminate|]; split; [auto | reflexivity]|].
  destruct (negb _); [|auto].
  unfold Connection.WaitForStateChange, Connection.WithTimeout.
  split; [|split].
  - destruct (Connection.first_change c _ 0 (Nat.min d1 _)) as [t|] eqn:E;
      [|discriminate].
    intros H.
    rewrite (first_change_longer c _ 0 _ (Nat.min d2 Connection.five_seconds)
               t E) by lia.
    rewrite (first_change_longer c _ 0 _ Connection.five_seconds t E) by lia.
    auto.
  - intros e.
    destruct (Connection.first_change c _ 0 (Nat.min d1 _)) as [t|] eqn:E.
    + intros H _.
      now rewrite (first_change_longer c _ 0 _
                     (Nat.min d2 Connection.five_seconds) t E) by lia.
    + intros [= <-] H. now destruct H.
  - intros H5. now rewrite Nat.min_r by exact H5.
Qed.

Lemma probe_passed (c : Connection.ClientConn) (ctx : option nat) :
  Connection.healthCheckLocked {| Connection.conn := Some c |} ctx = Ok tt ->
  Connection.state_at c (Lifecycle.probe_end c ctx) = Connection.Ready.
Proof.
  unfold Connection.healthCheckLocked, Lifecycle.probe_end. simpl.
  destruct (_ || _); [discriminate|].
  destruct (Connection.State_eqb (Connection.state_at c 0) Connection.Ready)
    eqn:E0; simpl.
  - intros _. now apply State_eqb_eq.
  - destruct (Connection.WaitForStateChange c _ _) as [t|]; [|discriminate].
    destruct (Connection.State_eqb (Connection.state_at c t) Connection.Ready)
      eqn:E1; simpl; [|discriminate].
    intros _. now apply State_eqb_eq.
Qed.

Lemma ready_is_healthy (c : Connection.ClientConn) (ctx : option nat) :
  Connection.state_at c 0 = Connection.Ready ->
  Connection.IsConnected {| Connection.conn := Some c |} = true /\
  Connection.healthCheckLocked {| Connection.conn := Some c |} ctx = Ok tt.
Proof.
  unfold Connection.IsConnected, Connection.healthCheckLocked. simpl.
  now intros ->.
Qed.

(** What [Connect] leaves in the manager. *)
Lemma Connect_outcome (dial : result Connection.ClientConn)
    (cm : Connection.connectionManager) (ctx : option nat) :
  match Lifecycle.Connect dial cm ctx with
  | (Ok _, cm') =>
      exists c,
        dial = Ok c /\
        Connection.healthCheckLocked {| Connection.conn := Some c |} ctx
        = Ok tt /\
        cm' = {| Connection.conn :=
                   Some (Lifecycle.later (Lifecycle.probe_end c ctx) c) |} /\
        Connection.IsConnected cm' = true /\
        forall ctx', Connection.healthCheckLocked cm' ctx' = Ok tt
  | (Err e, cm') =>
      Connection.IsConnected cm' = false /\
      (forall ctx', is_Ok (Connection.healthCheckLocked cm' ctx') = false) /\
      (Connection.conn cm' = None \/
       Connection.conn cm' = Some Lifecycle.closed) /\
      ((exists e', dial = Err e' /\
                   e = Wrapf "failed to connect to gRPC server" e') \/
       (exists c e', dial = Ok c /\
                     Connection.healthCheckLocked
                       {| Connection.conn := Some c |} ctx = Err e' /\
                     e = Wrapf "health check failed" e' /\
                     Connection.conn cm' = None))
  end.
Proof.
  unfold Lifecycle.Connect. destruct dial as [c|e].
  - destruct (Connection.healthCheckLocked {| Connection.conn := Some c |} ctx)
      as [[]|e] eqn:E.
    + exists c. split; [reflexivity|]. split; [exact E|].
      split; [reflexivity|].
      apply probe_passed in E.
      assert (Connection.state_at
                (Lifecycle.later (Lifecycle.probe_end c ctx) c) 0
              = Connection.Ready) as Hready
        by (simpl; now rewrite Nat.add_0_r).
      split; [now apply (ready_is_healthy _ None)|].
      intros ctx'. now apply ready_is_healthy.
    + split; [reflexivity|]. split; [reflexivity|]. split; [now left|].
      right. exists c, e. split; [reflexivity|]. split; [exact E|]. auto.
  - destruct (Connection.conn cm) as [c0|] eqn:Hc.
    + split; [reflexivity|]. split; [reflexivity|]. split; [now right|].
      left. eauto.
    + split; [unfold Connection.IsConnected; now rewrite Hc|].
      split; [intros ctx'; unfold Connection.healthCheckLocked; now rewrite Hc|].
      split; [now left|]. left. eauto.
Qed.

(** X19.  [connectionManager.Connect] succeeds exactly when the dial
    succeeds and the new connection passes the probe; the manager then holds
    a connection that is ready, so [IsConnected] holds and every later probe
    passes at once.  After a failed [Connect] the manager is not connected
    and fails every probe, also when it was connected before: the old
    connection has been closed, and a dialed connection that failed the
    probe has been dropped. *)
Theorem connect_all_or_nothing (dial : result Connection.ClientConn)
    (cm : Connection.connectionManager) (ctx : option nat) :
  ((Lifecycle.Connect dial cm ctx).1 = Ok tt <->
   exists c,
     dial = Ok c /\
     Connection.healthCheckLocked {| Connection.conn := Some c |} ctx = Ok tt) /\
  ((Lifecycle.Connect dial cm ctx).1 = Ok tt ->
   Connection.IsConnected (Lifecycle.Connect dial cm ctx).2 = true /\
   forall ctx',
     Connection.healthCheckLocked (Lifecycle.Connect dial cm ctx).2 ctx'
     = Ok tt) /\
  (forall e,
      (Lifecycle.Connect dial cm ctx).1 = Err e ->
      Connection.IsConnected (Lifecycle.Connect dial cm ctx).2 = false /\
      (Connection.conn (Lifecycle.Connect dial cm ctx).2 = None \/
       Connection.conn (Lifecycle.Connect dial cm ctx).2
       = Some Lifecycle.closed) /\
      forall ctx',
        is_Ok (Connection.healthCheckLocked
                 (Lifecycle.Connect dial cm ctx).2 ctx') = false).
Proof.
  pose proof (Connect_outcome dial cm ctx) as H.
  destruct (Lifecycle.Connect dial cm ctx) as [[[]|e] cm']; simpl.
  - destruct H as (c & Hd & Hp & _ & Hc & Hh).
    split; [split; eauto|]. split; [auto|]. discriminate.
  - destruct H as (Hc & Hh & Hconn & Hwhy).
    split; [|split; [discriminate | auto]].
    split; [discriminate|]. intros (c & -> & Hp).
    destruct Hwhy as [(e' & He' & _)|(c' & e' & [= <-] & Hp' & _)];
      congruence.
Qed.

(** ** The life of the discoverer *)

(** X20.  A health check of the discoverer never changes the catalog or
    the descriptor cache; it sends one ListServices request when the probe
    of the connection passes and a reflection client is in place, and
    nothing otherwise; and it passes exactly when the probe passes and the
    server answers the request. *)
Theorem health_check_effects (B : Reflection.Backend)
    (d : Discovery.serviceDiscoverer) (cm : Connection.connectionManager)
    (ctx : option nat) :
  Discovery.tools (Lifecycle.discoverer_HealthCheck B d cm ctx).2
    = Discovery.tools d /\
  option_map Reflection.fdCache
    (Discovery.reflectionClient (Lifecycle.discoverer_HealthCheck B d cm ctx).2)
    = option_map Reflection.fdCache (Discovery.reflectionClient d) /\
  Discovery.sent_by (Lifecycle.discoverer_HealthCheck B d cm ctx).2 =
    (match Connection.healthCheckLocked cm ctx, Discovery.reflectionClient d with
     | Ok _, Some r => Reflection.sent r ++ [Reflection.ListServicesRequest]
     | _, _ => Discovery.sent_by d
     end) /\
  ((Lifecycle.discoverer_HealthCheck B d cm ctx).1 = Ok tt <->
   Connection.healthCheckLocked cm ctx = Ok tt /\
   exists r names,
     Discovery.reflectionClient d = Some r /\
     Reflection.listServices_reply B (Reflection.sent r) = Ok names).
Proof.
  unfold Lifecycle.discoverer_HealthCheck, Lifecycle.HealthCheck,
    Lifecycle.reflection_HealthCheck, Reflection.listServices.
  destruct (Connection.healthCheckLocked cm ctx) as [[]|e]; simpl.
  2:{ repeat (split; [reflexivity|]). split; [discriminate|].
      intros [H _]. discriminate. }
  destruct (Discovery.reflectionClient d) as [r|] eqn:Hr; simpl.
  2:{ rewrite Hr. repeat (split; [reflexivity|]). split; [discriminate|].
      intros [_ (r & names & H & _)]. discriminate. }
  destruct (Reflection.listServices_reply B (Reflection.sent r))
    as [names|e] eqn:El; simpl; repeat (split; [reflexivity|]).
  - split; [|reflexivity]. intros _. split; [reflexivity|]. eauto.
  - split; [discriminate|]. intros [_ (r' & names & [= <-] & H)]. congruence.
Qed.

(** What [serviceDiscoverer.Connect] does, by the two steps it takes. *)
Lemma discoverer_Connect_steps (B : Reflection.Backend)
    (dial : result Connection.ClientConn) (d : Discovery.serviceDiscoverer)
    (cm : Connection.connectionManager) (ctx : option nat) :
  Lifecycle.discoverer_Connect B dial d cm ctx =
  match Lifecycle.Connect dial cm ctx with
  | (Err e, cm') =>
      (Err (Wrapf "failed to connect via connection manager" e), d, cm')
  | (Ok _, cm') =>
      (match Reflection.listServices_reply B [] with
       | Ok _ => Ok tt
       | Err e => Err (Wrapf "health check failed"
                         (Wrapf "health check failed" e))
       end,
       Discovery.with_reflectionClient d
         (Reflection.send Reflection.NewReflectionClient
            Reflection.ListServicesRequest),
       cm')
  end.
Proof.
  unfold Lifecycle.discoverer_Connect.
  pose proof (Connect_outcome dial cm ctx) as H.
  destruct (Lifecycle.Connect dial cm ctx) as [[[]|e] cm']; [|reflexivity].
  destruct H as (c & _ & _ & -> & _). unfold Lifecycle.GetConnection.
  cbn [Connection.conn].
  unfold Lifecycle.reflection_HealthCheck, Reflection.listServices.
  cbn [Reflection.sent Reflection.NewReflectionClient].
  destruct (Reflection.listServices_reply B []); reflexivity.
Qed.

(** X21.  [serviceDiscoverer.Connect] never touches the catalog.  When the
    connection manager fails to connect, the discoverer is left as it was.
    When it connects, a fresh reflection client that has sent one
    ListServices request and cached nothing is put in place, whether or not
    the server answers that request: after a failed reflection health check
    the discoverer still counts as connected.  The error for a nil
    connection is never returned. *)
Theorem discoverer_connect_effects (B : Reflection.Backend)
    (dial : result Connection.ClientConn) (d : Discovery.serviceDiscoverer)
    (cm : Connection.connectionManager) (ctx : option nat) :
  Discovery.tools (Lifecycle.discoverer_Connect B dial d cm ctx).1.2
    = Discovery.tools d /\
  (Lifecycle.discoverer_Connect B dial d cm ctx).1.1 <>
    Err (Errorf "connection manager returned nil connection") /\
  ((Lifecycle.Connect dial cm ctx).1 <> Ok tt ->
   (Lifecycle.discoverer_Connect B dial d cm ctx).1.2 = d /\
   exists e,
     (Lifecycle.discoverer_Connect B dial d cm ctx).1.1 =
     Err (Wrapf "failed to connect via connection manager" e)) /\
  ((Lifecycle.Connect dial cm ctx).1 = Ok tt ->
   Discovery.reflectionClient
     (Lifecycle.discoverer_Connect B dial d cm ctx).1.2 =
   Some {| Reflection.fdCache := ∅;
           Reflection.sent := [Reflection.ListServicesRequest] |} /\
   Stats.isConnected (Lifecycle.discoverer_Connect B dial d cm ctx).2
     (Lifecycle.discoverer_Connect B dial d cm ctx).1.2 = true /\
   ((Lifecycle.discoverer_Connect B dial d cm ctx).1.1 = Ok tt <->
    exists names, Reflection.listServices_reply B [] = Ok names)).
Proof.
  rewrite discoverer_Connect_steps.
  pose proof (Connect_outcome dial cm ctx) as H.
  destruct (Lifecycle.Connect dial cm ctx) as [[[]|e] cm']; simpl.
  - destruct H as (c & _ & _ & _ & Hc & _).
    split; [reflexivity|]. split.
    { destruct (Reflection.listServices_reply B []); discriminate. }
    split; [intros Hne; now destruct Hne|]. intros _.
    split; [reflexivity|]. unfold Stats.isConnected. simpl.
    split; [now rewrite Hc|].
    destruct (Reflection.listServices_reply B []) as [names|e'].
    + split; eauto.
    + split; [discriminate|]. intros [names Hn]. discriminate.
  - split; [reflexivity|]. split; [discriminate|].
    split; [intros _; eauto|]. discriminate.
Qed.

(** X22.  [serviceDiscoverer.Close] leaves a discoverer with an empty
    catalog, no reflection client and no connection: it counts no method
    and is not connected, every tool call is answered by the error for an
    unknown tool, a discovery round and a health check fail without a
    request being sent, and closing it again changes nothing. *)
Theorem closed_discoverer (B : Reflection.Backend)
    (d : Discovery.serviceDiscoverer) (cm : Connection.connectionManager) :
  Discovery.GetMethods (Lifecycle.discoverer_Close d cm).1 = [] /\
  Stats.GetMethodCount (Lifecycle.discoverer_Close d cm).1 = 0 /\
  Stats.GetServiceCount (Lifecycle.discoverer_Close d cm).1 = 0 /\
  Stats.isConnected (Lifecycle.discoverer_Close d cm).2
    (Lifecycle.discoverer_Close d cm).1 = false /\
  (forall headers toolName inputJSON,
      Discovery.InvokeMethodByTool B (Lifecycle.discoverer_Close d cm).1
        headers toolName inputJSON =
      (Some (Err (Errorf ("tool " +:+ toolName +:+ " not found"))),
       (Lifecycle.discoverer_Close d cm).1)) /\
  Discovery.DiscoverServices B (Lifecycle.discoverer_Close d cm).1 =
    (Err (Errorf "not connected to gRPC server"),
     (Lifecycle.discoverer_Close d cm).1) /\
  (forall ctx,
      Lifecycle.discoverer_HealthCheck B (Lifecycle.discoverer_Close d cm).1
        (Lifecycle.discoverer_Close d cm).2 ctx =
      (Err (Wrapf "connection manager health check failed"
              (Errorf "no connection available")),
       (Lifecycle.discoverer_Close d cm).1)) /\
  Lifecycle.discoverer_Close (Lifecycle.discoverer_Close d cm).1
    (Lifecycle.discoverer_Close d cm).2 = Lifecycle.discoverer_Close d cm.
Proof.
  assert (Connection.conn (Lifecycle.Close cm).2 = None) as Hconn
    by (unfold Lifecycle.Close; destruct (Connection.conn cm) eqn:E;
        [reflexivity | exact E]).
  unfold Lifecycle.discoverer_Close. cbn [fst snd].
  split.
  { unfold Discovery.GetMethods. simpl. now rewrite map_to_list_empty. }
  split.
  { unfold Stats.GetMethodCount. simpl. apply map_size_empty. }
  split.
  { unfold Stats.GetServiceCount, Stats.serviceNames.
    cbn [Discovery.tools]. rewrite map_to_list_empty. reflexivity. }
  split.
  { unfold Stats.isConnected. simpl. apply andb_false_r. }
  split.
  { intros headers toolName inputJSON.
    unfold Discovery.InvokeMethodByTool, Discovery.getMethodByTool. simpl.
    now rewrite lookup_empty. }
  split; [reflexivity|]. split.
  { intros ctx. unfold Lifecycle.discoverer_HealthCheck, Lifecycle.HealthCheck,
      Connection.healthCheckLocked. now rewrite Hconn. }
  simpl. f_equal. unfold Lifecycle.Close at 1. now rewrite Hconn.
Qed.

Lemma DiscoverServices_failed (B : Reflection.Backend)
    (d d' : Discovery.serviceDiscoverer) (e : error) :
  Discovery.DiscoverServices B d = (Err e, d') ->
  Discovery.tools d' = Discovery.tools d.
Proof.
  unfold Discovery.DiscoverServices.
  destruct (Discovery.reflectionClient d) as [r|]; [|now intros [= _ <-]].
  destruct (Slice.is_nil _); [|discriminate].
  destruct (Discovery.discoverFromReflection B r) as [[methods|e'] r'];
    [discriminate|].
  now intros [= _ <-].
Qed.

Lemma Connect_connected (dial : result Connection.ClientConn)
    (cm cm' : Connection.connectionManager) (ctx : option nat) (u : unit) :
  Lifecycle.Connect dial cm ctx = (Ok u, cm') ->
  Connection.IsConnected cm' = true /\ exists c, Connection.conn cm' = Some c.
Proof.
  intros H. pose proof (Connect_outcome dial cm ctx) as Ho.
  rewrite H in Ho. destruct Ho as (c & _ & _ & -> & Hc & _).
  split; [exact Hc|]. eauto.
Qed.

(** A turn that does not end the loop leaves the catalog as it was. *)
Lemma attempt_failed (turn : Lifecycle.Turn) (d d' : Discovery.serviceDiscoverer)
    (cm cm' : Connection.connectionManager) (e : error) :
  Lifecycle.attempt turn d cm = (Err e, d', cm') ->
  Discovery.tools d' = Discovery.tools d.
Proof.
  unfold Lifecycle.attempt, Lifecycle.Reconnect.
  destruct (Lifecycle.Connect _ cm _) as [[u|e0] cm1]; [|now intros [= _ <- _]].
  destruct (Lifecycle.GetConnection cm1); [|now intros [= _ <- _]].
  destruct (Discovery.DiscoverServices _ _) as [[[]|e1] d2] eqn:Hd;
    [discriminate|].
  intros [= _ <- _]. now apply DiscoverServices_failed in Hd.
Qed.

(** A turn that ends the loop leaves the manager connected and publishes
    the catalog of its discovery round. *)
Lemma attempt_succeeded (turn : Lifecycle.Turn)
    (d d' : Discovery.serviceDiscoverer)
    (cm cm' : Connection.connectionManager) (u : unit) :
  Lifecycle.attempt turn d cm = (Ok u, d', cm') ->
  Connection.IsConnected cm' = true /\
  Discovery.DiscoverServices (Lifecycle.turn_backend turn)
    (Discovery.with_reflectionClient d Reflection.NewReflectionClient)
  = (Ok tt, d').
Proof.
  unfold Lifecycle.attempt, Lifecycle.Reconnect.
  destruct (Lifecycle.Connect _ cm _) as [[u0|e0] cm1] eqn:Hc; [|discriminate].
  destruct (Connect_connected _ _ _ _ _ Hc) as [Hconn _].
  destruct (Lifecycle.GetConnection cm1); [|discriminate].
  destruct (Discovery.DiscoverServices _ _) as [[[]|e1] d2] eqn:Hd;
    [|discriminate].
  intros [= <- <- <-]. split; [exact Hconn | reflexivity].
Qed.

Lemma after_turns_S (turns : nat -> Lifecycle.Turn) (k : nat)
    (d : Discovery.serviceDiscoverer) (cm : Connection.connectionManager) :
  after_turns turns (S k) d cm =
  ((Lifecycle.attempt (turns k) (after_turns turns k d cm).1
      (after_turns turns k d cm).2).1.2,
   (Lifecycle.attempt (turns k) (after_turns turns k d cm).1
      (after_turns turns k d cm).2).2).
Proof.
  simpl. destruct (after_turns turns k d cm) as [d1 cm1]. simpl.
  now destruct (Lifecycle.attempt (turns k) d1 cm1) as [[res d2] cm2].
Qed.

(** The loop of [Reconnect] from turn [i] on, entered in the state the
    first [i] turns left. *)
Lemma reconnect_loop_outcome (maxAttempts : nat) (turns : nat -> Lifecycle.Turn)
    (d : Discovery.serviceDiscoverer) (cm : Connection.connectionManager)
    (n i : nat) (lastErr : option error) :
  match Lifecycle.reconnect_loop maxAttempts turns i n lastErr
          (after_turns turns i d cm).1 (after_turns turns i d cm).2 with
  | (Ok _, d', cm') =>
      exists j,
        i <= j < i + n /\
        (forall k, i <= k < j ->
           exists e, (Lifecycle.attempt (turns k) (after_turns turns k d cm).1
                        (after_turns turns k d cm).2).1.1 = Err e) /\
        Lifecycle.attempt (turns j) (after_turns turns j d cm).1
          (after_turns turns j d cm).2 = (Ok tt, d', cm')
  | (Err e, d', cm') =>
      (exists j,
          i <= j < i + n /\ 0 < j /\
          (forall k, i <= k < j ->
             exists e, (Lifecycle.attempt (turns k) (after_turns turns k d cm).1
                          (after_turns turns k d cm).2).1.1 = Err e) /\
          Lifecycle.ctx_done (turns j) = Some e /\
          (d', cm') = after_turns turns j d cm) \/
      (exists last,
          e = Lifecycle.exhausted maxAttempts last /\
          (forall k, i <= k < i + n ->
             exists e, (Lifecycle.attempt (turns k) (after_turns turns k d cm).1
                          (after_turns turns k d cm).2).1.1 = Err e) /\
          (d', cm') = after_turns turns (i + n) d cm /\
          match n with
          | O => last = lastErr
          | S m =>
              exists err,
                last = Some err /\
                (Lifecycle.attempt (turns (i + m))
                   (after_turns turns (i + m) d cm).1
                   (after_turns turns (i + m) d cm).2).1.1 = Err err
          end)
  end.
Proof.
  revert i lastErr. induction n as [|n IH]; intros i lastErr; simpl.
  - right. exists lastErr. split; [reflexivity|]. split; [intros k Hk; lia|].
    rewrite Nat.add_0_r. split; [|reflexivity].
    now destruct (after_turns turns i d cm).
  - destruct (if (0 <? i)%nat then Lifecycle.ctx_done (turns i) else None)
      as [e|] eqn:Hdone.
    { left. exists i. destruct (0 <? i)%nat eqn:Hi; [|discriminate].
      apply Nat.ltb_lt in Hi. split; [lia|]. split; [exact Hi|].
      split; [intros k Hk; lia|]. split; [exact Hdone|].
      now destruct (after_turns turns i d cm). }
    pose proof (after_turns_S turns i d cm) as HS.
    destruct (Lifecycle.attempt (turns i) (after_turns turns i d cm).1
                (after_turns turns i d cm).2) as [[[[]|e1] d1] cm1] eqn:Ha.
    + exists i. split; [lia|]. split; [intros k Hk; lia|]. exact Ha.
    + cbn [fst snd] in HS. specialize (IH (S i) (Some e1)).
      rewrite HS in IH. cbn [fst snd] in IH.
      assert (forall k, i <= k < S i ->
                exists e, (Lifecycle.attempt (turns k)
                             (after_turns turns k d cm).1
                             (after_turns turns k d cm).2).1.1 = Err e)
        as Hfirst.
      { intros k Hk. assert (k = i) as -> by lia. rewrite Ha. simpl. eauto. }
      destruct (Lifecycle.reconnect_loop maxAttempts turns (S i) n (Some e1)
                  d1 cm1) as [[[u|e'] d'] cm'].
      * destruct IH as (j & Hj & Hfail & Hok). exists j.
        split; [lia|]. split; [|exact Hok].
        intros k Hk. destruct (Nat.eq_dec k i) as [->|Hne];
          [apply Hfirst; lia | apply Hfail; lia].
      * destruct IH as [(j & Hj & Hpos & Hfail & Hctx & Hst)
                       |(last & -> & Hfail & Hst & Hlast)].
        -- left. exists j. split; [lia|]. split; [exact Hpos|].
           split; [|auto].
           intros k Hk. destruct (Nat.eq_dec k i) as [->|Hne];
             [apply Hfirst; lia | apply Hfail; lia].
        -- right. exists last. split; [reflexivity|]. split.
           { intros k Hk. destruct (Nat.eq_dec k i) as [->|Hne];
               [apply Hfirst; lia | apply Hfail; lia]. }
           rewrite Nat.add_succ_r. split; [exact Hst|].
           destruct n as [|m].
           ++ exists e1. split; [exact Hlast|].
              rewrite Nat.add_0_r, Ha. reflexivity.
           ++ destruct Hlast as (err & -> & Herr). exists err.
              split; [reflexivity|]. rewrite Nat.add_succ_r. exact Herr.
Qed.

(** While the turns fail the catalog is the one from before. *)
Lemma after_failed_turns_tools (turns : nat -> Lifecycle.Turn)
    (d : Discovery.serviceDiscoverer) (cm : Connection.connectionManager)
    (j : nat) :
  (forall k, k < j ->
     exists e, (Lifecycle.attempt (turns k) (after_turns turns k d cm).1
                  (after_turns turns k d cm).2).1.1 = Err e) ->
  Discovery.tools (after_turns turns j d cm).1 = Discovery.tools d.
Proof.
  induction j as [|j IH]; intros Hfail; [reflexivity|].
  rewrite after_turns_S. cbn [fst snd].
  destruct (Hfail j) as [e He]; [lia|].
  destruct (Lifecycle.attempt (turns j) (after_turns turns j d cm).1
              (after_turns turns j d cm).2) as [[res d2] cm2] eqn:Ha.
  simpl in He. subst res. apply attempt_failed in Ha. simpl.
  rewrite Ha. apply IH. intros k Hk. apply Hfail. lia.
Qed.

(** X23.  [serviceDiscoverer.Reconnect] with [maxReconnectAttempts] turns.
    When it fails the catalog is what it was, and the error is that of the
    context, met before a turn other than the first, or the error for the
    attempts used up; that error wraps the error with which the last turn
    failed, in the state the turns before it left, and wraps no error at
    all only when no turn is allowed.  When it succeeds the connection
    manager is connected, every earlier turn has failed, and the catalog is
    the one published by the discovery round of the turn that succeeded,
    which started from a fresh reflection client and the catalog from
    before. *)
Theorem reconnect_outcome (maxReconnectAttempts : nat)
    (turns : nat -> Lifecycle.Turn) (d : Discovery.serviceDiscoverer)
    (cm : Connection.connectionManager) :
  (forall e,
      (Lifecycle.discoverer_Reconnect maxReconnectAttempts turns d cm).1.1
      = Err e ->
      Discovery.tools
        (Lifecycle.discoverer_Reconnect maxReconnectAttempts turns d cm).1.2
      = Discovery.tools d /\
      ((exists j, 0 < j < maxReconnectAttempts /\
                  Lifecycle.ctx_done (turns j) = Some e /\
                  ((Lifecycle.discoverer_Reconnect maxReconnectAttempts
                      turns d cm).1.2,
                   (Lifecycle.discoverer_Reconnect maxReconnectAttempts
                      turns d cm).2) = after_turns turns j d cm) \/
       (exists last,
           e = Lifecycle.exhausted maxReconnectAttempts last /\
           (last = None <-> maxReconnectAttempts = 0) /\
           ((Lifecycle.discoverer_Reconnect maxReconnectAttempts
               turns d cm).1.2,
            (Lifecycle.discoverer_Reconnect maxReconnectAttempts
               turns d cm).2) = after_turns turns maxReconnectAttempts d cm /\
           match maxReconnectAttempts with
           | O => last = None
           | S m =>
               exists err,
                 last = Some err /\
                 (Lifecycle.attempt (turns m) (after_turns turns m d cm).1
                    (after_turns turns m d cm).2).1.1 = Err err
           end))) /\
  ((Lifecycle.discoverer_Reconnect maxReconnectAttempts turns d cm).1.1
   = Ok tt ->
   Connection.IsConnected
     (Lifecycle.discoverer_Reconnect maxReconnectAttempts turns d cm).2 = true /\
   exists j,
     j < maxReconnectAttempts /\
     (forall k, k < j ->
        exists e, (Lifecycle.attempt (turns k) (after_turns turns k d cm).1
                     (after_turns turns k d cm).2).1.1 = Err e) /\
     Discovery.tools (after_turns turns j d cm).1 = Discovery.tools d /\
     Lifecycle.attempt (turns j) (after_turns turns j d cm).1
       (after_turns turns j d cm).2 =
     Lifecycle.discoverer_Reconnect maxReconnectAttempts turns d cm /\
     Discovery.DiscoverServices (Lifecycle.turn_backend (turns j))
       (Discovery.with_reflectionClient (after_turns turns j d cm).1
          Reflection.NewReflectionClient)
     = (Ok tt,
        (Lifecycle.discoverer_Reconnect maxReconnectAttempts turns d cm).1.2)).
Proof.
  unfold Lifecycle.discoverer_Reconnect.
  pose proof (reconnect_loop_outcome maxReconnectAttempts turns d cm
                maxReconnectAttempts 0 None) as H.
  simpl in H.
  destruct (Lifecycle.reconnect_loop maxReconnectAttempts turns 0
              maxReconnectAttempts None d cm) as [[[[]|e] d'] cm']; simpl.
  - split; [discriminate|]. intros _.
    destruct H as (j & Hj & Hfail & Hok).
    assert (forall k, k < j ->
              exists e, (Lifecycle.attempt (turns k)
                           (after_turns turns k d cm).1
                           (after_turns turns k d cm).2).1.1 = Err e)
      as Hfail' by (intros k Hk; apply Hfail; lia).
    destruct (attempt_succeeded _ _ _ _ _ _ Hok) as [Hconn Hd].
    split; [exact Hconn|]. exists j. split; [lia|]. split; [exact Hfail'|].
    split; [now apply after_failed_turns_tools|]. auto.
  - split; [|discriminate]. intros e' [= <-].
    destruct H as [(j & Hj & Hpos & Hfail & Hctx & Hst)
                  |(last & -> & Hfail & Hst & Hlast)].
    + assert (Discovery.tools d' = Discovery.tools d) as Ht.
      { change d' with (d', cm').1. rewrite Hst.
        apply after_failed_turns_tools. intros k Hk. apply Hfail. lia. }
      split; [exact Ht|]. left. exists j. split; [lia|]. auto.
    + assert (Discovery.tools d' = Discovery.tools d) as Ht.
      { change d' with (d', cm').1. rewrite Hst.
        apply after_failed_turns_tools. intros k Hk. apply Hfail. lia. }
      split; [exact Ht|]. right. exists last. split; [reflexivity|].
      split; [|split; [exact Hst | exact Hlast]].
      destruct maxReconnectAttempts as [|m].
      * subst last. tauto.
      * destruct Hlast as (err & -> & _). split; discriminate.
Qed.

(** ** The HTTP side *)

Lemma extractHeaders_fold (l : list (string * list string))
    (acc : gmap string string) (name : string) :
  NoDup l.*1 ->
  fold_left
    (fun headerMap '(name, values) =>
       match values with
       | [] => headerMap
       | v :: _ => <[name := v]> headerMap
       end) l acc !! name =
  match (list_to_map l : gmap string (list string)) !! name with
  | Some (v :: _) => Some v
  | _ => acc !! name
  end.
Proof.
  revert acc. induction l as [|[k vs] l IH]; intros acc Hnd; simpl.
  - now rewrite lookup_empty.
  - apply NoDup_cons in Hnd as [Hk Hnd]. rewrite (IH _ Hnd).
    destruct (decide (k = name)) as [->|Hne].
    + rewrite lookup_insert_eq.
      rewrite (not_elem_of_list_to_map_1 _ _ Hk).
      destruct vs as [|v vs]; [reflexivity|]. now rewrite lookup_insert_eq.
    + rewrite lookup_insert_ne by exact Hne.
      destruct (list_to_map l !! name) as [[|v vs']|]; [|reflexivity|];
        (destruct vs as [|v0 vs]; [reflexivity|]);
        now rewrite lookup_insert_ne.
Qed.

(** X24.  [extractHeaders] maps each header that has a value to its first
    value, and leaves out a header that has none. *)
Theorem first_value_of_each_header (header : gmap string (list string))
    (name : string) :
  Server.extractHeaders header !! name =
  match header !! name with
  | Some (v :: _) => Some v
  | _ => None
  end.
Proof.
  unfold Server.extractHeaders.
  rewrite extractHeaders_fold by apply NoDup_fst_map_to_list.
  rewrite list_to_map_to_list, lookup_empty. reflexivity.
Qed.

Lemma Contains_app_r (a b s : string) :
  Strs.Contains b s = true -> Strs.Contains (a +:+ b) s = true.
Proof.
  intros H. induction a as [|c a IH]; [exact H|].
  change (String c a +:+ b) with (String c (a +:+ b)).
  cbn [Strs.Contains]. rewrite IH. apply orb_true_r.
Qed.

(** X25.  The error code of a failed request.  The error for an unknown
    JSON-RPC method always gets the method-not-found code, whatever the
    method is called.  An error that wraps one whose text contains
    [not found] gets that code too, so the invalid-parameters error of a
    tool call gets the invalid-params code only when the text of its cause
    does not contain [not found]. *)
Theorem error_code_by_text (msg method : string) (cause : error) :
  Server.errorCode (Server.method_not_found method)
    = Server.ErrorCodeMethodNotFound /\
  (Strs.Contains (error_Error cause) "not found" = true ->
   Server.errorCode (Wrapf msg cause) = Server.ErrorCodeMethodNotFound) /\
  Server.errorCode (Wrapf "invalid parameters" cause) =
    (if Strs.Contains (error_Error cause) "not found"
     then Server.ErrorCodeMethodNotFound
     else Server.ErrorCodeInvalidParams).
Proof.
  unfold Server.errorCode, Server.method_not_found. split; [|split].
  - simpl error_Error.
    change ("method not found: " +:+ method)
      with ("method " +:+ ("not found: " +:+ method)).
    rewrite Contains_app_r; [reflexivity|].
    destruct method; reflexivity.
  - intros H. cbn [error_Error].
    rewrite append_assoc, Contains_app_r; [reflexivity | exact H].
  - cbn [error_Error].
    destruct (Strs.Contains (error_Error cause) "not found") eqn:E.
    + rewrite append_assoc, Contains_app_r; [reflexivity | exact E].
    + generalize dependent (error_Error cause). intros text E.
      assert (Strs.Contains ("invalid parameters" +:+ ": " +:+ text) "not found"
              = Strs.Contains text "not found") as -> by reflexivity.
      rewrite E. reflexivity.
Qed.

(** ** More on the two discovery paths *)

(** X26.  A round whose descriptor set yields at least one method is
    silent: it sends nothing on the connection, its outcome does not depend
    on the server, it succeeds, and it publishes the catalog of the records
    the descriptor set gave in this round. *)
Theorem offline_round_is_silent (B B' : Reflection.Backend)
    (d : Discovery.serviceDiscoverer) (r : Reflection.reflectionClient) :
  Discovery.reflectionClient d = Some r ->
  Slice.is_nil (Discovery.offline_methods d) = false ->
  Discovery.DiscoverServices B d = Discovery.DiscoverServices B' d /\
  (Discovery.DiscoverServices B d).1 = Ok tt /\
  Discovery.sent_by (Discovery.DiscoverServices B d).2 = Discovery.sent_by d /\
  Discovery.tools (Discovery.DiscoverServices B d).2 =
    Some (Discovery.build_tools (Slice.elems (Discovery.offline_methods d))).
Proof.
  intros Hr Hnil.
  destruct (offline_methods_used_as_is B d r Hr Hnil) as [HB HsB].
  destruct (offline_methods_used_as_is B' d r Hr Hnil) as [HB' _].
  split; [now rewrite HB, HB'|]. split; [now rewrite HB|].
  split; [exact HsB|]. rewrite HB. reflexivity.
Qed.

(** X27.  A type name is resolved without its leading dot: the name with
    the dot and the name without it resolve alike, and only one dot is
    taken off. *)
Theorem leading_dot_ignored (B : Reflection.Backend) (typeName : string)
    (fileDescriptor : Reflection.FileDescriptorProto) :
  Reflection.resolveMessageDescriptor B ("." +:+ typeName) fileDescriptor =
    Reflection.resolve B typeName fileDescriptor /\
  (Strs.HasPrefix typeName "." = false ->
   Reflection.resolveMessageDescriptor B typeName fileDescriptor =
   Reflection.resolve B typeName fileDescriptor) /\
  (Strs.HasPrefix typeName "." = false ->
   Reflection.resolveMessageDescriptor B ("." +:+ typeName) fileDescriptor =
   Reflection.resolveMessageDescriptor B typeName fileDescriptor).
Proof.
  unfold Reflection.resolveMessageDescriptor, Strs.TrimPrefix.
  assert (Strs.HasPrefix ("." +:+ typeName) "." = true) as Hdot.
  { apply HasPrefix_app. now exists typeName. }
  rewrite Hdot. split; [reflexivity|].
  split; intros H; rewrite H; reflexivity.
Qed.

(** X28.  The records [extractMethodsFromFileDescriptor] returns for a
    file: for each service of the file whose full name is among the target
    services, in the order of the file, one record for each method whose
    two message types resolve, in the order of the service; a method that
    does not resolve is left out, and so is every other service. *)
Theorem reflection_records_in_order (B : Reflection.Backend)
    (fileDescriptor : Reflection.FileDescriptorProto)
    (targetServices : list string) :
  Slice.elems
    (Reflection.extractMethodsFromFileDescriptor B fileDescriptor
       targetServices) =
  flat_map
    (fun service =>
       if bool_decide
            (Reflection.fullServiceName fileDescriptor service ∈ targetServices)
       then
         flat_map
           (fun method =>
              match Reflection.createMethodInfoWithServiceContext B
                      (Reflection.fullServiceName fileDescriptor service)
                      method fileDescriptor with
              | Ok methodInfo => [methodInfo]
              | Err _ => []
              end)
           (Reflection.sp_Method service)
       else [])
    (Reflection.fp_Service fileDescriptor).
Proof.
  unfold Reflection.extractMethodsFromFileDescriptor.
  enough (forall services acc,
             Slice.elems
               (fold_left
                  (fun methods service =>
                     let name :=
                       Reflection.fullServiceName fileDescriptor service in
                     if bool_decide
                          (name ∈ (list_to_set targetServices : gset string))
                     then
                       fold_left
                         (fun methods method =>
                            match Reflection.createMethodInfoWithServiceContext
                                    B name method fileDescriptor with
                            | Err _ => methods
                            | Ok methodInfo =>
                                Slice.append methods [methodInfo]
                            end)
                         (Reflection.sp_Method service) methods
                     else methods)
                  services acc) =
             Slice.elems acc ++
             flat_map
               (fun service =>
                  if bool_decide
                       (Reflection.fullServiceName fileDescriptor service
                        ∈ targetServices)
                  then
                    flat_map
                      (fun method =>
                         match Reflection.createMethodInfoWithServiceContext B
                                 (Reflection.fullServiceName fileDescriptor
                                    service)
                                 method fileDescriptor with
                         | Ok methodInfo => [methodInfo]
                         | Err _ => []
                         end)
                      (Reflection.sp_Method service)
                  else [])
               services) as H
    by apply (H (Reflection.fp_Service fileDescriptor) Slice.nil).
  induction services as [|service services IH]; intros acc; simpl.
  - now rewrite app_nil_r.
  - rewrite IH, app_assoc. f_equal.
    rewrite (bool_decide_ext _ _
               (elem_of_list_to_set
                  (Reflection.fullServiceName fileDescriptor service)
                  targetServices)).
    destruct (bool_decide _); [|now rewrite app_nil_r].
    generalize acc. clear.
    induction (Reflection.sp_Method service) as [|method methods IHm];
      intros acc; simpl.
    + now rewrite app_nil_r.
    + rewrite IHm.
      destruct (Reflection.createMethodInfoWithServiceContext B _ method _).
      * now rewrite elems_append, <- app_assoc.
      * reflexivity.
Qed.

(** ** The properties above on the samples *)

Lemma descriptor_cache_reused_witness :
  Reflection.getFileDescriptorBySymbol Samples.hello_backend
    Reflection.NewReflectionClient "hello.HelloService" =
    (Ok Samples.hello_proto, MoreSamples.cached_client) /\
  Reflection.getFileDescriptorBySymbol Samples.silent_backend
    MoreSamples.cached_client "hello.HelloService" =
    (Ok Samples.hello_proto, MoreSamples.cached_client) /\
  Reflection.getFileDescriptorBySymbol Samples.silent_backend
    MoreSamples.cached_client "hello.proto" =
    (Ok Samples.hello_proto, MoreSamples.cached_client).
Proof.
  assert (Reflection.getFileDescriptorBySymbol Samples.hello_backend
            Reflection.NewReflectionClient "hello.HelloService" =
          (Ok Samples.hello_proto, MoreSamples.cached_client)) as H
    by (vm_compute; reflexivity).
  destruct (descriptor_cache_reused Samples.hello_backend
              Samples.silent_backend _ _ _ _ H) as (Hsym & Hname & _).
  split; [exact H|]. split; [exact Hsym|].
  apply Hname; [reflexivity | discriminate].
Defined.

Lemma discovered_tools_never_panic_witness :
  exists res,
    (Discovery.InvokeMethodByTool Samples.silent_backend
       Samples.ready_discoverer [] "hello_helloservice_sayhello" "").1
    = Some res.
Proof.
  apply (discovered_tools_never_panic Samples.hello_backend
           Samples.silent_backend
           (Samples.connected Samples.broken_loader
              Samples.descriptor_set_disabled)
           Samples.ready_discoverer).
  - vm_compute. reflexivity.
  - intros fdSet files Hload. discriminate.
Defined.

Lemma offline_record_call_path_witness :
  Types.ServiceName
    (Descriptors.methodInfo_of
       (Descriptors.extractServiceNameForCompatibility "grpc.health.v1.Health")
       "" MoreSamples.Health_service MoreSamples.Check_method) = "v1.Health" /\
  Reflection.grpcMethodName
    (Descriptors.methodInfo_of
       (Descriptors.extractServiceNameForCompatibility "grpc.health.v1.Health")
       "" MoreSamples.Health_service MoreSamples.Check_method) =
  Some "/grpc.health.v1.Health/Check".
Proof.
  split; [reflexivity|].
  apply (offline_record_call_path
           (Descriptors.extractServiceNameForCompatibility "grpc.health.v1.Health")
           "" MoreSamples.Health_service MoreSamples.Check_method).
  - discriminate.
  - reflexivity.
Defined.

Lemma tools_list_after_discovery_witness :
  exists tools,
    Listing.handleToolsList [Samples.HelloRequest] Samples.ready_discoverer
    = Some (Ok tools) /\
    map Tools.tool_Name tools = ["hello_helloservice_sayhello"].
Proof.
  destruct (tools_list_after_discovery Samples.hello_backend
              [Samples.HelloRequest]
              (Samples.connected Samples.broken_loader
                 Samples.descriptor_set_disabled)
              Samples.ready_discoverer) as (tools & Htools & Hnames).
  - vm_compute. reflexivity.
  - intros fdSet files Hload. discriminate.
  - exists tools. split; [exact Htools|]. rewrite Hnames.
    vm_compute. reflexivity.
Defined.

Lemma schema_of_a_message_witness :
  jfield "type"
    (JObj [("type", JStr "object");
           ("properties", JObj [("name", JObj [("type", JStr "string")])]);
           ("required", JArr [JStr "name"])]) = Some (JStr "object") /\
  NoDup (properties_of
           (JObj [("type", JStr "object");
                  ("properties", JObj [("name", JObj [("type", JStr "string")])]);
                  ("required", JArr [JStr "name"])])).
Proof.
  destruct (schema_of_a_message [Samples.HelloRequest] Samples.HelloRequest
              (JObj [("type", JStr "object");
                     ("properties",
                      JObj [("name", JObj [("type", JStr "string")])]);
                     ("required", JArr [JStr "name"])]))
    as (Htype & _ & Hnodup & _).
  - vm_compute. reflexivity.
  - split; [exact Htype | exact Hnodup].
Defined.

Lemma probe_deadline_monotone_witness :
  Connection.healthCheckLocked MoreSamples.dialing_manager (Some 100) = Ok tt /\
  Connection.healthCheckLocked MoreSamples.dialing_manager (Some 200) = Ok tt /\
  Connection.healthCheckLocked MoreSamples.dialing_manager None = Ok tt.
Proof.
  assert (Connection.healthCheckLocked MoreSamples.dialing_manager (Some 100)
          = Ok tt) as H by (vm_compute; reflexivity).
  split; [exact H|].
  apply (proj1 (probe_deadline_monotone MoreSamples.dialing_manager 100 200
                  ltac:(lia))).
  exact H.
Defined.

Lemma offline_round_is_silent_witness :
  Discovery.DiscoverServices Samples.hello_backend Samples.offline_discoverer =
  Discovery.DiscoverServices Samples.silent_backend Samples.offline_discoverer /\
  Discovery.sent_by
    (Discovery.DiscoverServices Samples.hello_backend
       Samples.offline_discoverer).2 = [].
Proof.
  destruct (offline_round_is_silent Samples.hello_backend
              Samples.silent_backend Samples.offline_discoverer
              Reflection.NewReflectionClient) as (Hsame & _ & Hsent & _).
  - reflexivity.
  - vm_compute. reflexivity.
  - split; [exact Hsame | exact Hsent].
Defined.
